(* ===== verification/_CoqProject ===== *)
-Q . S2P
Prelude.v
PyStr.v
PyPath.v
FileSys.v
Glob.v
Executor.v
Workers.v
CreateFolder.v
Fetcher.v
ImageLib.v
Transformer.v
Console.v
Main.v
