(* ===== verification/Prelude.v ===== *)
(** * A verification development of [src/main.py]

    The program (python_multithreading_and_multiprocessing, one file,
    [src/main.py]) downloads a fixed list of 21 image URLs into
    [<cwd>/images] with a [ThreadPoolExecutor], then turns every
    [<cwd>/images/*.jpg] into a blurred thumbnail
    [<cwd>/images/processed/thumb_<name>] with a [ProcessPoolExecutor].

    ** The parts of the program and where they are modelled

    The files, in dependency order ([_CoqProject]):

    - [Prelude.v] (this file): the Python exceptions the code can raise
      ([exc]), the outcome of a call ([res]: a value or an exception),
      the state-and-exception monad [stm] with its notations
      [x <- m ;; k] and [m ;;; k] (scope [py_scope]), the hint databases
      [pyvf] and [pyvf_rw], and the shared lemmas on strings, lists and
      byte overlays.
    - [PyStr.v], module [PyStr]: [str.split] with a one-character
      separator, list indexing with negative indices ([py_getitem],
      [IndexError] out of range), slices, [startswith] and [endswith].
    - [PyPath.v], module [PyPath]: [os.path.join] ([</>]),
      [os.path.split] (posixpath, with [rfind] and [rstrip] written
      out), [pathlib]'s parsing of a path into components, and the
      resolution of a path against the working directory.
    - [FileSys.v], module [FileSys]: the file system as the program sees
      it, a [gmap] from component lists to inodes (directory, or a file
      and its bytes), and every operation the program or the libraries
      it calls perform on it: [os.mkdir], [Path.mkdir] (CPython's
      [try/except] structure, recursing on the parent), [open(..., "wb")],
      [write] at a handle's offset, reading a file, [os.remove],
      [os.path.exists] and [os.scandir].  Each returns a [res] with the
      exception Python raises.
    - [Glob.v], module [Glob]: the library code line 88 runs, CPython
      3.12's [glob.glob] ([_iglob], [_glob0], [_glob1], [_listdir],
      [has_magic], hidden names) and [fnmatch] ([translate] with bracket
      sets, ranges and negation, matched as the regular expression it
      builds), as executable functions.  The working directory is part
      of the pattern, so its wildcards are expanded like any others.
    - [Executor.v], module [Executor] with the class [Task]: [executor.map]
      inside a [with] block.  A task is a local state, one atomic step
      on the shared file system, a [done] test and a decreasing measure;
      [pool_step] lets any unfinished task take a step, so the paths of
      [pool_step] are all the interleavings of the workers, whatever
      their number; [stage_run] ends when every task is done (the
      [shutdown(wait=True)] of the [with] block).
    - [Workers.v], module [Workers]: the executors as the program creates
      them ([ThreadPoolExecutor()] and [ProcessPoolExecutor()], lines 83
      and 87), with their default number of workers ([thread_workers],
      [process_workers]); [wpool_step w] takes the items off the FIFO
      queue in order, only while fewer than [w] taken calls are
      unfinished, and steps taken calls only; [wstage_run] is the [with]
      block.  It is an instance of [pool_step].
    - [CreateFolder.v], module [CreateFolder]: [create_folder] (lines
      37-43) as a worker whose atomic steps are the system calls of
      CPython's [Path.mkdir] ([os.mkdir] and the [is_dir] test of its
      [except OSError] clause), its recursion on the parent kept as a
      stack of frames; any number of such workers run in an [Executor]
      pool.  [main] calls [create_folder] one call after the other, and
      its model uses the atomic [FileSys.path_mkdir]; this file relates
      the two and answers the specification's demand that the call be
      safe to race.
    - [Fetcher.v], module [Fetcher] with the class [Http]: [download_image]
      (lines 47-59), as a sequential [stm] computation and as the task
      [dl_task] of one download thread (fetch, open, write); the
      download stage [dl_stage] (lines 83-84).
    - [ImageLib.v], class [ImageLib] and module [Thumbnail]: the Pillow
      calls of [process_image]; decoding, blurring, resizing and
      encoding are an interface, and [Image.thumbnail]'s size
      computation ([preserve_aspect_ratio], [round_aspect]) is written
      out in exact arithmetic.  Module [SizeOnly] is a library of images
      that are only a size, to run the model on concrete inputs.
    - [Transformer.v], module [Transformer]: [process_image] (lines
      62-76), with [Image.save]'s create-or-truncate and
      remove-on-failure, sequentially and as the task [pr_task] of one
      worker; the processing stage [pr_stage] (lines 87-88).
    - [Console.v], module [Console]: the [print] calls (lines 54, 59,
      69, 76 and 91).  The standard output is the list of writes to
      [sys.stdout]; [print(s)] is two writes, [s] and the line end
      ([py_print]).  Section [Printing] turns any [Task] into a printing
      one ([otask], [o_step]): a worker writes the chunks of its prints
      one step at a time, so other workers interleave between them; the
      program's prints are [dl_out] and [pr_out].
    - [Main.v], module [Main]: the constants (lines 10-34),
      [create_folder] (lines 37-43), the [glob] of line 88 ([glob_images],
      [Glob.glob] on the program's pattern), and [main]
      (lines 79-91) as the relation [main_with] from the initial file
      system to the outcome and the final file system: create
      [IMAGE_FOLDER], run the download stage to completion, create
      [PROCESSED_FOLDER], list [IMAGE_FOLDER/*.jpg] once, run the
      processing stage to completion.  An exception of [create_folder]
      ends [main]; an exception of a worker stays in its future.
      [main_out] is [main] with its standard output, the stages run by
      the printing workers of [Console], then line 91's [Time taken];
      [main_exec cpu] is the program as it runs on a machine of [cpu]
      processors: [main_out] with each stage run by the executor of
      [Workers] the program creates.  [script] is the entry point (lines
      94-95): run as [__main__] the module runs [main_exec] on
      [IMAGE_URLS], imported it runs nothing.

    ** What is proved

    - [Main]: end to end, when [main] returns, every URL whose request
      succeeded has its body stored under its name and, when its bytes
      decode, blur and encode, the JPEG of its thumbnail stored under
      [processed/thumb_<name>], for every interleaving of both stages
      ([main_end_to_end]); [main] always has a complete run and never
      raises ([main_ok]); [main] is idempotent, a second run from the
      state a returning run left ends in that same state, every entry
      included ([main_idempotent], through [main_run_pre],
      [main_run_fixed] and [main_noop]); every thumbnail a run writes
      or changes is [thumb_<n>] of a stored image [n] that decodes
      ([main_thumb_source]); with no URL, [IMAGE_FOLDER] ends holding
      only an empty [processed] ([main_no_urls]).  These four assume a
      working directory without [glob] wildcards ([*], [?], [[]): with
      one, line 88 lists other folders or none
      ([glob_images_magic_cwd]).  For every working directory, [glob]
      never lists a name that starts with a dot, so the [.jpg] of a URL
      ending with a slash is never processed ([glob_skips_hidden]).
      Printing changes nothing else ([main_out_refines]); the output is
      the download chunks, then the thumbnail chunks, then the time
      ([main_out_order]).  The program as it runs, with its executors
      and its output, is a run of [main_out] ([main_exec_refines]), so
      the theorems above hold of it.
    - [Console]: each stage's output is an interleaving of its workers'
      lines, each worker's in its order, with the [Downloaded] or
      [Processed] line exactly when the file was written
      ([dl_stage_output], [pr_stage_output]).  When the interpreter
      switches threads between the two writes of a [print] (unbuffered
      or free-threaded), two threads' messages can share one terminal
      line ([dl_output_lines_merge]).
    - [Fetcher] and [Transformer]: each stage is serializable, every
      complete interleaving of its workers ends in the file system and
      the futures of the sequential loop over its items
      ([fetch_stage_serializable], [transform_stage_serializable]);
      each target holds what its task alone produces and every other
      path is unchanged ([fetch_stage_correct],
      [transform_stage_correct]); the futures hold the exceptions;
      a task run alone refines the sequential function; two URLs of the
      same name can leave a file holding neither body; the sequential
      functions on every branch, including the encoder failure that
      leaves an old thumbnail empty.
    - [CreateFolder]: concurrent calls on any paths always have a
      complete interleaving, and every complete interleaving has every
      call return normally, every prefix of every path a directory and
      every other entry unchanged ([create_folder_race]); one worker by
      itself ends as [FileSys.path_mkdir] does
      ([create_folder_task_refines]).
    - [Executor]: a run to completion exists; invariants of one step
      hold on every run.
    - [Workers]: the runs of a pool of [w] workers are runs of
      [pool_step] ([wstage_refines]); with one worker or more it always
      completes ([wstage_completes]).
    - [Thumbnail]: the thumbnail is at least 1x1, fits the box, is no
      larger than the image and keeps the aspect ratio within a pixel.
    - [FileSys]: every operation keeps the tree invariant;
      [Path.mkdir(parents=True, exist_ok=True)] succeeds when no prefix
      is a file, is idempotent, raises otherwise; the frame of each
      operation.
    - [Glob]: [_iglob] terminates ([iglob_total]); for a directory part
      without wildcards and a last component [*<literal suffix>], [glob]
      is the directory's listing without hidden names, filtered by the
      suffix ([glob_star_literal]); whatever the directory part, every
      result's last component matches the pattern's and is not hidden
      ([glob_star_result]).
    - [PyStr] and [PyPath]: [os.path.split(os.path.join(d, n)) = (d, n)]
      and the prefix and suffix structure of [os.path.split].

    ** Bounds, fuel and what is not modelled

    Python integers are unbounded and are modelled by [Z]; Pillow's
    floating-point aspect computation is modelled in exact rationals
    (cross-multiplication on [Z]), which agrees with it on every size a
    JPEG can have.  Two library loops run on fuel: [fnmatch]'s
    [_translate] takes one unit per character of the pattern
    ([translate_total]), and [glob]'s [_iglob] the length of the pattern
    plus one, which is enough because [os.path.split] returns a strictly
    shorter directory part when it is not the whole path
    ([iglob_total]).  The other recursions are structural, and the
    executor's completion is proved with a measure; the schedulers
    [run_first], [run_schedule] and [Workers.wrun_first] take the number
    of steps, and [pool_measure] steps are proved enough for
    [run_first].  The worker counts are
    those of CPython 3.8 and later ([min(32, cpu + 4)] threads, [cpu]
    processes); the theorems of [Workers] hold for every count of one or
    more.  Not modelled: the imports (lines 1-7), which only bind
    names; the value of [time.perf_counter] (the time printed is any
    text) and the buffering of [sys.stdout] (a write is the unit of
    output, and the two writes of a [print] may be separated, which
    over-approximates the default buffered stdout where the GIL keeps a
    [print] whole); the network (the response is the [Http] oracle, the
    same for a URL during a run; [requests.get] has no timeout and could
    block forever, so the completion theorems assume every request
    answers); pixel values (images are the [ImageLib] interface, with
    [thumbnail] total and the JPEG encoder all-or-nothing, although
    Pillow's [ImageFile._save] can raise after a partial write);
    permissions, links, [..] components and disk-full errors; the
    [max_workers] argument, which the program never passes, and the
    processes' separate memory (a [process_image] call shares nothing
    but the file system). *)

From stdpp Require Export base list gmap strings.
From Stdlib Require Export Ascii ZArith Lia.
From Stdlib Require Export Strings.Byte.

Declare Scope py_scope.
Delimit Scope py_scope with py.

(** ** Python exceptions raised by the calls the program makes *)

Inductive exc :=
  | IndexError
  | FileNotFoundError
  | FileExistsError
  | NotADirectoryError
  | IsADirectoryError
  | RequestException
  | UnidentifiedImageError
  | ImageOSError
  | ValueError.

#[export] Instance exc_eq_dec : EqDecision exc.
Proof. solve_decision. Defined.

(** A Python call returns a value or raises an exception. *)
Inductive res (A : Type) :=
  | Ok (a : A)
  | Raise (e : exc).
Arguments Ok {A} a.
Arguments Raise {A} e.

#[export] Instance res_ret : MRet res := λ A a, Ok a.
#[export] Instance res_bind : MBind res :=
  λ A B k r, match r with Ok a => k a | Raise e => Raise e end.

Definition res_is_ok {A} (r : res A) : bool :=
  match r with Ok _ => true | Raise _ => false end.

(** ** State threaded through fallible code

    [stm S A] is a computation on a state [S] that returns an [A] and the
    new state, or raises.  A raised exception keeps the state reached so
    far, as Python's side effects are not undone. *)
Definition stm (S A : Type) := S → (res A * S)%type.

Definition st_ret {S A} (a : A) : stm S A := λ s, (Ok a, s).
Definition st_raise {S A} (e : exc) : stm S A := λ s, (Raise e, s).
Definition st_bind {S A B} (m : stm S A) (k : A → stm S B) : stm S B :=
  λ s, match m s with
       | (Ok a, s') => k a s'
       | (Raise e, s') => (Raise e, s')
       end.
Definition st_lift {S A} (r : res A) : stm S A := λ s, (r, s).

Notation "x <- m ;; k" := (st_bind m (λ x, k))
  (at level 100, m at next level, right associativity) : py_scope.
Notation "m ;;; k" := (st_bind m (λ _, k))
  (at level 100, right associativity) : py_scope.

Open Scope py_scope.

(** ** Tactics and the development's hint database *)

Create HintDb pyvf.
Create Rewrite HintDb pyvf_rw.

Ltac invc H := inversion H; subst; clear H.

(** Case on the first [match] on a [res] or a pair in a hypothesis. *)
Ltac res_destr :=
  match goal with
  | H : context [match ?r with Ok _ => _ | Raise _ => _ end] |- _ =>
      let E := fresh "E" in destruct r eqn:E
  | |- context [match ?r with Ok _ => _ | Raise _ => _ end] =>
      let E := fresh "E" in destruct r eqn:E
  end.

Lemma st_bind_ret_l {S A B} (a : A) (k : A → stm S B) s :
  st_bind (st_ret a) k s = k a s.
Proof. reflexivity. Qed.

Lemma st_bind_ok {S A B} (m : stm S A) (k : A → stm S B) s a s' :
  m s = (Ok a, s') → st_bind m k s = k a s'.
Proof. intros H. unfold st_bind. by rewrite H. Qed.

Lemma st_bind_raise {S A B} (m : stm S A) (k : A → stm S B) s e s' :
  m s = (Raise e, s') → st_bind m k s = (Raise e, s').
Proof. intros H. unfold st_bind. by rewrite H. Qed.

Lemma st_bind_assoc {S A B C} (m : stm S A) (k : A → stm S B)
  (k' : B → stm S C) s :
  st_bind (st_bind m k) k' s = st_bind m (λ a, st_bind (k a) k') s.
Proof. unfold st_bind. by destruct (m s) as [[a|e] s']. Qed.

#[export] Hint Rewrite @st_bind_ret_l @st_bind_assoc : pyvf_rw.

(** ** Strings: [+:+] is [String.append], which stdpp keeps opaque to
    [simpl]; these equations replace its unfolding. *)

Lemma str_app_nil_l s : "" +:+ s = s.
Proof. reflexivity. Qed.

Lemma str_app_cons a s1 s2 : String a s1 +:+ s2 = String a (s1 +:+ s2).
Proof. reflexivity. Qed.

Lemma str_app_nil_r s : s +:+ "" = s.
Proof. induction s as [|a s IH]; [done|]. by rewrite str_app_cons, IH. Qed.

Lemma str_app_assoc s1 s2 s3 : s1 +:+ (s2 +:+ s3) = (s1 +:+ s2) +:+ s3.
Proof.
  induction s1 as [|a s1 IH]; [done|]. by rewrite !str_app_cons, IH.
Qed.

#[export] Hint Rewrite str_app_nil_l str_app_cons str_app_nil_r : pyvf_rw.

(** [str_has c s]: the character [c] occurs in [s] ([c in s]). *)
Fixpoint str_has (c : ascii) (s : string) : bool :=
  match s with
  | EmptyString => false
  | String a s' => bool_decide (a = c) || str_has c s'
  end.

Lemma str_has_app c s1 s2 : str_has c (s1 +:+ s2) = str_has c s1 || str_has c s2.
Proof.
  induction s1 as [|a s1 IH]; [done|].
  rewrite str_app_cons. simpl. rewrite IH. by destruct (bool_decide _).
Qed.

#[export] Hint Rewrite str_has_app : pyvf_rw.

Lemma str_app_inj_l s s1 s2 : s +:+ s1 = s +:+ s2 → s1 = s2.
Proof. apply (inj (String.app s)). Qed.

(** ** Lists *)

(** [omap] of a function that is injective where it is defined keeps
    a list without duplicates without duplicates. *)
Lemma NoDup_omap_inj {A B} (f : A → option B) (l : list A) :
  (∀ x y z, x ∈ l → y ∈ l → f x = Some z → f y = Some z → x = y) →
  NoDup l → NoDup (omap f l).
Proof.
  intros Hinj Hl. induction Hl as [|x l Hx Hl IH]; simpl; [constructor|].
  assert (∀ x y z, x ∈ l → y ∈ l → f x = Some z → f y = Some z → x = y) as Hinj'.
  { intros ???????. eapply Hinj; eauto; by apply list_elem_of_further. }
  destruct (f x) as [z|] eqn:Hfx; [|by apply IH].
  constructor; [|by apply IH].
  intros (y & Hy & Hfy)%list_elem_of_omap.
  assert (x = y) as <- by (eapply Hinj; [by left|by right| |]; eauto).
  done.
Qed.

(** A filter whose test every element passes. *)
Lemma list_filter_all {A} (P : A → Prop) `{!∀ x, Decision (P x)} (l : list A) :
  (∀ x, P x) → filter P l = l.
Proof. intros HP. induction l as [|x l IH]; [done|]. by rewrite filter_cons_True, IH. Qed.

(** A computation whose outcome is known, with its state left as is. *)
Lemma pair_eq_fst {A B} (p : A * B) a : p.1 = a → p = (a, p.2).
Proof. destruct p. by intros <-. Qed.

#[export] Instance byte_eq_decision : EqDecision byte := byte_eq_dec.

(** ** Lists *)

(** [overlay c pos data]: the bytes of a file holding [c] after [data]
    is written at offset [pos] (a gap past the end reads as zero bytes). *)
Definition overlay (c : list byte) (pos : nat) (data : list byte) : list byte :=
  take pos c ++ replicate (pos - length c) x00 ++ data ++ drop (pos + length data) c.

Lemma overlay_nil_0 data : overlay [] 0 data = data.
Proof. unfold overlay. simpl. by rewrite drop_nil, app_nil_r. Qed.

Lemma overlay_0_longer c data : length c ≤ length data → overlay c 0 data = data.
Proof. intros H. unfold overlay. simpl. rewrite drop_ge by lia. by rewrite app_nil_r. Qed.

#[export] Hint Rewrite overlay_nil_0 : pyvf_rw.
