(* ===== verification/PyStr.v ===== *)
(** * Python strings and list indexing used by [src/main.py]

    [str.split(sep)] with a one-character separator (the code splits on
    ["/"] and ["?"], line 53), list indexing [l[i]] with Python's
    negative indices and [IndexError], slices, [str.startswith] and
    [str.endswith]. *)

From S2P Require Import Prelude.

Module PyStr.

(** [s.split(c)]: the pieces of [s] between occurrences of [c]; the
    empty string splits to [[""]], and adjacent separators give empty
    pieces, as in CPython. *)
Fixpoint str_split (c : ascii) (s : string) : list string :=
  match s with
  | EmptyString => [""]
  | String a s' =>
      let parts := str_split c s' in
      if decide (a = c) then "" :: parts
      else match parts with
           | p :: ps => String a p :: ps
           | [] => [String a ""]
           end
  end.

(** [l[i]]: a negative index counts from the end; out of range raises. *)
Definition py_getitem {A} (l : list A) (i : Z) : res A :=
  let n := Z.of_nat (length l) in
  let j := if (i <? 0)%Z then (i + n)%Z else i in
  if ((0 <=? j) && (j <? n))%Z then
    match l !! Z.to_nat j with Some x => Ok x | None => Raise IndexError end
  else Raise IndexError.

(** Slices [s[:n]] and [s[n:]] for [0 <= n]. *)
Fixpoint str_take (n : nat) (s : string) : string :=
  match n, s with
  | O, _ | _, EmptyString => ""
  | S n', String a s' => String a (str_take n' s')
  end.

Fixpoint str_drop (n : nat) (s : string) : string :=
  match n, s with
  | O, _ => s
  | _, EmptyString => ""
  | S n', String _ s' => str_drop n' s'
  end.

(** [s.endswith(suffix)]: [s[len(s) - len(suffix):] == suffix]. *)
Definition str_endswith (s suffix : string) : bool :=
  String.eqb (str_drop (String.length s - String.length suffix) s) suffix.

(** [s.startswith(prefix)]. *)
Definition str_startswith (s prefix : string) : bool :=
  String.prefix prefix s.

(** The last character, [s[-1]] when [s] is not empty. *)
Fixpoint str_last (s : string) : option ascii :=
  match s with
  | EmptyString => None
  | String a EmptyString => Some a
  | String _ s' => str_last s'
  end.

(** ** Lemmas on [str_split] *)

Lemma str_split_nonempty c s : str_split c s ≠ [].
Proof.
  induction s as [|a s IH]; simpl; [done|].
  case_decide; [done|]. destruct (str_split c s); done.
Qed.

(** Splitting at one occurrence of the separator splits the two sides. *)
Lemma str_split_app_sep c s1 s2 :
  str_split c (s1 +:+ String c s2) = str_split c s1 ++ str_split c s2.
Proof.
  induction s1 as [|a s1 IH].
  - simpl. by case_decide.
  - rewrite str_app_cons. simpl. rewrite IH. case_decide; [done|].
    destruct (str_split c s1) eqn:E; [by apply str_split_nonempty in E|]. done.
Qed.

Lemma str_split_no_sep c s : str_has c s = false → str_split c s = [s].
Proof.
  induction s as [|a s IH]; simpl; [done|].
  intros [Ha Hs]%orb_false_iff. apply bool_decide_eq_false in Ha.
  rewrite IH by done. by case_decide.
Qed.

Lemma str_split_pieces c s : Forall (λ p, str_has c p = false) (str_split c s).
Proof.
  induction s as [|a s IH]; simpl; [by repeat constructor|].
  case_decide; [by constructor|].
  destruct (str_split c s) as [|p ps]; [by repeat constructor; simpl; rewrite bool_decide_false|].
  inv IH. constructor; [|done]. simpl. by rewrite bool_decide_false.
Qed.

Lemma str_split_pieces_other c c' s :
  str_has c' s = false → Forall (λ p, str_has c' p = false) (str_split c s).
Proof.
  induction s as [|a s IH]; simpl; [by repeat constructor|].
  intros [Ha Hs]%orb_false_iff. specialize (IH Hs).
  destruct (decide (a = c)); [by constructor|].
  destruct (str_split c s) as [|p ps]; [by repeat constructor; simpl; rewrite Ha|].
  inv IH. constructor; [|done]. simpl. by rewrite Ha.
Qed.

#[export] Hint Resolve str_split_nonempty : pyvf.
#[export] Hint Rewrite str_split_app_sep : pyvf_rw.

(** ** Slices, [endswith] and the last character *)

Lemma str_length_app s1 s2 :
  String.length (s1 +:+ s2) = (String.length s1 + String.length s2)%nat.
Proof. induction s1 as [|a s1 IH]; [done|]. rewrite str_app_cons. simpl. by rewrite IH. Qed.

Lemma str_take_app_length s1 s2 : str_take (String.length s1) (s1 +:+ s2) = s1.
Proof. induction s1 as [|a s1 IH]; [by destruct s2|]. rewrite str_app_cons. simpl. by rewrite IH. Qed.

Lemma str_drop_app_length s1 s2 : str_drop (String.length s1) (s1 +:+ s2) = s2.
Proof. induction s1 as [|a s1 IH]; [done|]. rewrite str_app_cons. simpl. by rewrite IH. Qed.

Lemma str_endswith_app s suf : str_endswith (s +:+ suf) suf = true.
Proof.
  unfold str_endswith. rewrite str_length_app, Nat.add_sub, str_drop_app_length.
  apply String.eqb_refl.
Qed.

Lemma str_endswith_char s c :
  str_endswith s (String c "") = bool_decide (str_last s = Some c).
Proof.
  unfold str_endswith. induction s as [|a s IH]; [done|]. simpl.
  destruct s as [|b s].
  - simpl. destruct (decide (a = c)) as [->|Hne].
    + rewrite bool_decide_true by done. by rewrite Ascii.eqb_refl.
    + rewrite bool_decide_false by congruence.
      destruct (Ascii.eqb_spec a c); [done|]. by destruct (Ascii.eqb a c).
  - simpl in IH |- *. rewrite Nat.sub_0_r in IH. exact IH.
Qed.

Lemma str_last_app_char s c : str_last (s +:+ String c "") = Some c.
Proof.
  induction s as [|a s IH]; [done|]. rewrite str_app_cons. simpl.
  destruct (s +:+ String c "") eqn:E; [|done]. by destruct s.
Qed.

Lemma str_last_app_ne s1 s2 : s2 ≠ "" → str_last (s1 +:+ s2) = str_last s2.
Proof.
  intros Hs2. induction s1 as [|a s1 IH]; [done|]. rewrite str_app_cons. simpl.
  rewrite IH. destruct s1 as [|b s1]; simpl; [by destruct s2|].
  by destruct (String b s1 +:+ s2) eqn:E; [destruct s2|].
Qed.

Lemma str_last_nonempty s : s ≠ "" → is_Some (str_last s).
Proof.
  induction s as [|a s IH]; [done|]. intros _. destruct s as [|b s]; [by eexists|].
  by apply IH.
Qed.

Lemma str_last_has c s : str_last s = Some c → str_has c s = true.
Proof.
  induction s as [|a s IH]; [done|]. intros Hl. cbn [str_has]. apply orb_true_iff.
  destruct s as [|b s].
  - left. simpl in Hl. simplify_eq. by apply bool_decide_eq_true.
  - right. by apply IH.
Qed.

Lemma str_startswith_char a s c :
  str_startswith (String a s) (String c "") = bool_decide (a = c).
Proof.
  unfold str_startswith.
  change (String.prefix _ _) with (if Ascii.ascii_dec c a then String.prefix "" s else false).
  destruct (Ascii.ascii_dec c a) as [->|Hne].
  - rewrite bool_decide_true by done. by destruct s.
  - rewrite bool_decide_false; [done|]. intros ->. by apply Hne.
Qed.

Lemma str_startswith_no c s : str_has c s = false → str_startswith s (String c "") = false.
Proof.
  destruct s as [|a s]; [done|]. intros H. cbn [str_has] in H.
  apply orb_false_iff in H as [Ha _]. by rewrite str_startswith_char.
Qed.

#[export] Hint Rewrite str_length_app str_take_app_length str_drop_app_length : pyvf_rw.

(** ** Lemmas on [py_getitem] *)

Lemma py_getitem_last {A} (l : list A) x : py_getitem (l ++ [x]) (-1) = Ok x.
Proof.
  unfold py_getitem. rewrite length_app. simpl.
  replace (-1 + Z.of_nat (length l + 1))%Z with (Z.of_nat (length l)) by lia.
  rewrite (proj2 (Z.leb_le 0 _)), (proj2 (Z.ltb_lt _ _)) by lia. simpl.
  rewrite Nat2Z.id, lookup_app_r, Nat.sub_diag by lia. done.
Qed.

Lemma py_getitem_first {A} (x : A) l : py_getitem (x :: l) 0 = Ok x.
Proof. unfold py_getitem. simpl. by destruct (length l). Qed.

(** ** The first and the last piece *)

(** [s.split(c)[-1]] is the text after the last separator. *)
Lemma str_split_last c q p :
  str_has c p = false → py_getitem (str_split c (q +:+ String c p)) (-1) = Ok p.
Proof.
  intros Hp. rewrite str_split_app_sep, (str_split_no_sep c p) by done.
  apply py_getitem_last.
Qed.

(** [s.split(c)[0]] is the text before the first separator. *)
Lemma str_split_first c p q :
  str_has c p = false → py_getitem (str_split c (p +:+ String c q)) 0 = Ok p.
Proof.
  intros Hp. rewrite str_split_app_sep, (str_split_no_sep c p) by done.
  apply py_getitem_first.
Qed.

Lemma str_split_single c s :
  str_has c s = false →
  py_getitem (str_split c s) 0 = Ok s ∧ py_getitem (str_split c s) (-1) = Ok s.
Proof.
  intros Hs. rewrite str_split_no_sep by done.
  split; [apply py_getitem_first | apply (py_getitem_last [])].
Qed.

Lemma py_getitem_elem {A} (l : list A) i x : py_getitem l i = Ok x → x ∈ l.
Proof.
  unfold py_getitem. case_match; [|done].
  destruct (l !! _) eqn:E; [|done]. intros [= ->].
  by eapply list_elem_of_lookup_2.
Qed.

(** Indexing the pieces of a split at [0] or [-1] never raises. *)
Lemma py_getitem_ends_ok {A} (l : list A) :
  l ≠ [] → (∃ x, py_getitem l 0 = Ok x) ∧ (∃ y, py_getitem l (-1) = Ok y).
Proof.
  intros Hl. split.
  - destruct l as [|x l]; [done|]. eexists. apply py_getitem_first.
  - destruct (exists_last Hl) as (l' & y & ->). eexists. apply py_getitem_last.
Qed.

End PyStr.
