(* ===== verification/PyPath.v ===== *)
(** * [os.path] (posixpath) and [pathlib] path handling

    [os.path.join(a, b)] builds every path of [src/main.py] (lines 33,
    34, 42, 56, 75, 88); [os.path.split(p)[-1]] recovers the file name
    in [process_image] (line 68); [Path(...)] turns a path string into
    components (line 42), which is also how the kernel resolves a path
    against the working directory when a file is opened. *)

From S2P Require Import Prelude PyStr.
Import PyStr.

Module PyPath.

(** [posixpath.join(a, b)]. *)
Definition path_join (a b : string) : string :=
  if str_startswith b "/" then b
  else if bool_decide (a = "") || str_endswith a "/" then a +:+ b
  else a +:+ "/" +:+ b.

Notation "a </> b" := (path_join a b) (at level 40, left associativity) : py_scope.

(** [s.rfind(c)]: the index of the last [c], or [-1]. *)
Fixpoint str_rfind (c : ascii) (s : string) : Z :=
  match s with
  | EmptyString => (-1)%Z
  | String a s' =>
      let r := str_rfind c s' in
      if (0 <=? r)%Z then (r + 1)%Z
      else if decide (a = c) then 0%Z else (-1)%Z
  end.

(** [s.rstrip(c)]. *)
Fixpoint str_rstrip (c : ascii) (s : string) : string :=
  match s with
  | EmptyString => ""
  | String a s' =>
      let r := str_rstrip c s' in
      if bool_decide (r = "") && bool_decide (a = c) then "" else String a r
  end.

(** [s == c * len(s)]. *)
Fixpoint str_all (c : ascii) (s : string) : bool :=
  match s with
  | EmptyString => true
  | String a s' => bool_decide (a = c) && str_all c s'
  end.

(** [posixpath.split(p)]:
<<
    i = p.rfind(sep) + 1
    head, tail = p[:i], p[i:]
    if head and head != sep*len(head):
        head = head.rstrip(sep)
    return head, tail
>> *)
Definition path_split (p : string) : string * string :=
  let i := Z.to_nat (str_rfind "/" p + 1) in
  let head := str_take i p in
  let tail := str_drop i p in
  if bool_decide (head ≠ "") && negb (str_all "/" head)
  then (str_rstrip "/" head, tail) else (head, tail).

(** The components [pathlib.PurePosixPath] keeps: the pieces between
    slashes, without empty pieces and ["."]. *)
Definition path_parts (p : string) : list string :=
  filter (λ x, x ≠ "" ∧ x ≠ ".") (str_split "/" p).

(** The component list the kernel looks up for [p] from the working
    directory [cwd] (absolute paths ignore [cwd]). *)
Definition os_resolve (cwd : list string) (p : string) : list string :=
  if str_startswith p "/" then path_parts p else cwd ++ path_parts p.

(** A file name: no slash, and neither empty nor ["."]. *)
Definition is_name (n : string) : Prop :=
  str_has "/" n = false ∧ n ≠ "" ∧ n ≠ ".".

#[export] Instance is_name_dec n : Decision (is_name n).
Proof. unfold is_name. apply _. Defined.

(** ** Lemmas *)

Lemma str_all_app c s1 s2 : str_all c (s1 +:+ s2) = str_all c s1 && str_all c s2.
Proof.
  induction s1 as [|a s1 IH]; [done|]. rewrite str_app_cons. simpl. rewrite IH.
  by rewrite andb_assoc.
Qed.

Lemma str_rfind_no c s : str_has c s = false → str_rfind c s = (-1)%Z.
Proof.
  induction s as [|a s IH]; [done|]. simpl.
  intros [Ha Hs]%orb_false_iff. rewrite IH by done. simpl.
  apply bool_decide_eq_false in Ha. by case_decide.
Qed.

Lemma str_rfind_last c q p :
  str_has c p = false →
  str_rfind c (q +:+ String c p) = Z.of_nat (String.length q).
Proof.
  intros Hp. induction q as [|a q IH].
  - simpl. rewrite str_rfind_no by done. simpl. by case_decide.
  - rewrite str_app_cons. simpl. rewrite IH.
    rewrite (proj2 (Z.leb_le _ _)) by lia. lia.
Qed.

(** The three shapes of [os.path.join(d, n)] for a [n] without a
    slash. *)
Lemma path_join_shape d n :
  str_has "/" n = false →
  (d = "" ∧ d </> n = n) ∨
  (∃ d', d = d' +:+ "/" ∧ d </> n = d' +:+ String "/" n) ∨
  (d ≠ "" ∧ str_endswith d "/" = false ∧ d </> n = d +:+ String "/" n).
Proof.
  intros Hn. unfold path_join.
  assert (str_startswith n "/" = false) as ->.
  { by apply str_startswith_no. }
  destruct (decide (d = "")) as [->|Hd]; [by left|]. right.
  rewrite bool_decide_false by done. simpl.
  destruct (str_endswith d "/") eqn:E.
  - left. rewrite str_endswith_char in E. apply bool_decide_eq_true in E.
    assert (∃ d', d = d' +:+ "/") as [d' ->].
    { clear Hd. induction d as [|a d IH]; [done|]. destruct d as [|b d].
      - simplify_eq/=. by exists "".
      - destruct IH as [d' Hd']; [done|]. exists (String a d').
        by rewrite Hd'. }
    exists d'. split; [done|]. by rewrite <-str_app_assoc.
  - by right.
Qed.

Lemma str_rfind_ge c s : (-1 ≤ str_rfind c s)%Z.
Proof. induction s as [|a s IH]; simpl; [lia|]. repeat case_match; lia. Qed.

Lemma str_rfind_neg c s : (str_rfind c s < 0)%Z → str_has c s = false.
Proof.
  induction s as [|a s IH]; [done|]. simpl.
  destruct (0 <=? str_rfind c s)%Z eqn:Hr; [lia|]. apply Z.leb_gt in Hr.
  case_decide; [lia|]. intros _. rewrite IH by done. by rewrite bool_decide_false.
Qed.

(** The text after the last separator has no separator. *)
Lemma str_drop_rfind c s : str_has c (str_drop (Z.to_nat (str_rfind c s + 1)) s) = false.
Proof.
  induction s as [|a s IH]; [done|]. simpl.
  pose proof (str_rfind_ge c s).
  destruct (0 <=? str_rfind c s)%Z eqn:Hr.
  - apply Z.leb_le in Hr. replace (Z.to_nat (str_rfind c s + 1 + 1)) with (S (Z.to_nat (str_rfind c s + 1))) by lia.
    exact IH.
  - apply Z.leb_gt in Hr. pose proof (str_rfind_neg c s Hr) as Hs. case_decide.
    + exact Hs.
    + simpl. rewrite Hs, bool_decide_false by done. done.
Qed.

(** [os.path.split(p)[-1]] has no slash. *)
Lemma path_split_tail p : str_has "/" (path_split p).2 = false.
Proof. unfold path_split. case_match; apply str_drop_rfind. Qed.

(** [os.path.join(d, n)] ends as [n] does. *)
Lemma path_join_last d n : is_name n → str_last (d </> n) = str_last n.
Proof.
  intros Hn. assert (n ≠ "") by apply Hn.
  destruct (path_join_shape d n (proj1 Hn)) as [[_ ->]|[(d' & _ & ->)|(_ & _ & ->)]];
    [done| |]; rewrite str_last_app_ne by done; by destruct n.
Qed.

(** [os.path.join(d, n)] for a name [n] is not empty and does not end
    with a slash. *)
Lemma path_join_name_shape d n :
  is_name n → d </> n ≠ "" ∧ str_endswith (d </> n) "/" = false.
Proof.
  intros Hn. pose proof (path_join_last d n Hn) as Hl. split.
  - intros Hd. rewrite Hd in Hl. destruct Hn as (_ & Hne & _).
    destruct (str_last_nonempty n Hne) as [c Hc]. simpl in Hl. congruence.
  - rewrite str_endswith_char. apply bool_decide_eq_false. rewrite Hl.
    intros Hc%str_last_has. destruct Hn as [Hs _]. congruence.
Qed.

(** [os.path.split(os.path.join(d, n))[-1] == n] for a name [n]. *)
Lemma path_split_join_tail d n :
  str_has "/" n = false → (path_split (d </> n)).2 = n.
Proof.
  intros Hn. unfold path_split.
  destruct (path_join_shape d n Hn) as [[_ ->]|[(d' & _ & ->)|(_ & _ & ->)]].
  - rewrite str_rfind_no by done. simpl. by case_match || done.
  - rewrite str_rfind_last by done.
    replace (Z.to_nat (Z.of_nat (String.length d') + 1))
      with (String.length (d' +:+ "/")) by (rewrite str_length_app; simpl; lia).
    change (d' +:+ String "/" n) with (d' +:+ ("/" +:+ n)).
    rewrite (str_app_assoc d' "/" n), str_drop_app_length. by case_match || done.
  - rewrite str_rfind_last by done.
    replace (Z.to_nat (Z.of_nat (String.length d) + 1))
      with (String.length (d +:+ "/")) by (rewrite str_length_app; simpl; lia).
    change (d +:+ String "/" n) with (d +:+ ("/" +:+ n)).
    rewrite (str_app_assoc d "/" n), str_drop_app_length. by case_match || done.
Qed.

Lemma path_parts_app_sep a b :
  path_parts (a +:+ String "/" b) = path_parts a ++ path_parts b.
Proof. unfold path_parts. by rewrite str_split_app_sep, filter_app. Qed.

Lemma path_parts_empty : path_parts "" = [].
Proof. reflexivity. Qed.

Lemma path_parts_name n : is_name n → path_parts n = [n].
Proof.
  intros (Hn & Hne & Hdot). unfold path_parts. rewrite str_split_no_sep by done.
  rewrite filter_cons_True; naive_solver.
Qed.

Lemma path_parts_join d n : is_name n → path_parts (d </> n) = path_parts d ++ [n].
Proof.
  intros Hn. rewrite <-path_parts_name by done.
  destruct (path_join_shape d n (proj1 Hn)) as [[-> ->]|[(d' & -> & ->)|(_ & _ & ->)]].
  - done.
  - rewrite !path_parts_app_sep, path_parts_empty. by rewrite app_nil_r.
  - by rewrite path_parts_app_sep.
Qed.

Lemma str_startswith_join d n :
  is_name n → d ≠ "" → str_startswith (d </> n) "/" = str_startswith d "/".
Proof.
  intros Hn Hd.
  destruct (path_join_shape d n (proj1 Hn)) as [[-> _]|[(d' & -> & ->)|(_ & _ & ->)]];
    [done| |].
  - destruct d' as [|a d']; rewrite ?str_app_nil_l, ?str_app_cons, !str_startswith_char; done.
  - destruct d as [|a d]; [done|]. rewrite str_app_cons, !str_startswith_char. done.
Qed.

(** The kernel resolves [os.path.join(d, n)] to the component list of
    [d] followed by [n]. *)
Theorem os_resolve_join cwd d n :
  is_name n → os_resolve cwd (d </> n) = os_resolve cwd d ++ [n].
Proof.
  intros Hn. unfold os_resolve.
  destruct (decide (d = "")) as [->|Hd].
  - destruct (path_join_shape "" n (proj1 Hn)) as [[_ ->]|[(d' & Hd' & _)|[? _]]];
      [|by destruct d'|done].
    rewrite path_parts_name, str_startswith_no, path_parts_empty by apply Hn.
    by rewrite app_nil_r.
  - rewrite str_startswith_join, path_parts_join by done.
    by case_match; rewrite ?app_assoc.
Qed.

Lemma str_rstrip_snoc c s : str_rstrip c (s +:+ String c "") = str_rstrip c s.
Proof.
  induction s as [|a s IH].
  - simpl. by rewrite !bool_decide_true.
  - rewrite str_app_cons. simpl. by rewrite IH.
Qed.

Lemma str_rstrip_noend c s : str_last s ≠ Some c → str_rstrip c s = s.
Proof.
  induction s as [|a s IH]; [done|]. intros Hl. simpl.
  destruct s as [|b s].
  - simpl. rewrite bool_decide_false; [done|]. simpl in Hl. congruence.
  - rewrite IH by done. by rewrite bool_decide_false.
Qed.

Lemma str_all_last c s : str_all c s = true → s ≠ "" → str_last s = Some c.
Proof.
  induction s as [|a s IH]; [done|]. simpl. intros [Ha Hs]%andb_prop _.
  apply bool_decide_eq_true in Ha. subst. destruct s as [|b s]; [done|]. by apply IH.
Qed.

(** [os.path.split(os.path.join(d, n)) == (d, n)] when [d] is not empty and
    does not end with a slash, and [n] has no slash. *)
Lemma path_split_join d n :
  d ≠ "" → str_endswith d "/" = false → str_has "/" n = false →
  path_split (d </> n) = (d, n).
Proof.
  intros Hd Hend Hn. rewrite str_endswith_char in Hend. apply bool_decide_eq_false in Hend.
  unfold path_split.
  destruct (path_join_shape d n Hn) as [[-> _]|[(d' & -> & _)|(_ & _ & ->)]].
  - done.
  - by rewrite str_last_app_char in Hend.
  - rewrite str_rfind_last by done.
    replace (Z.to_nat (Z.of_nat (String.length d) + 1))
      with (String.length (d +:+ "/")) by (rewrite str_length_app; simpl; lia).
    change (d +:+ String "/" n) with (d +:+ ("/" +:+ n)).
    rewrite (str_app_assoc d "/" n), str_drop_app_length, str_take_app_length.
    assert (str_all "/" (d +:+ "/") = false) as ->.
    { destruct (str_all "/" (d +:+ "/")) eqn:E; [|done]. exfalso.
      rewrite str_all_app in E. apply andb_prop in E as [E _].
      by apply Hend, str_all_last. }
    rewrite bool_decide_true by (by destruct d). simpl.
    change "/" with (String "/" ""). by rewrite str_rstrip_snoc, str_rstrip_noend.
Qed.

(** ** [os.path.split] cuts the path *)

Lemma str_take_drop n s : str_take n s +:+ str_drop n s = s.
Proof.
  revert s. induction n as [|n IH]; intros [|a s]; try done.
  simpl. rewrite str_app_cons. by rewrite IH.
Qed.

Lemma str_rstrip_prefix c s : ∃ r, s = str_rstrip c s +:+ r.
Proof.
  induction s as [|a s [r Hr]]; [by exists ""|]. simpl.
  destruct (bool_decide (str_rstrip c s = "") && bool_decide (a = c)); [by exists (String a s)|].
  exists r. rewrite str_app_cons. by rewrite <-Hr.
Qed.

(** The directory part of [os.path.split(p)] is a prefix of [p], and the
    name part a suffix. *)
Lemma path_split_prefix p : ∃ r, p = (path_split p).1 +:+ r.
Proof.
  unfold path_split. set (i := Z.to_nat _).
  destruct (str_rstrip_prefix "/" (str_take i p)) as [r Hr].
  case_match; simpl.
  - exists (r +:+ str_drop i p). by rewrite str_app_assoc, <-Hr, str_take_drop.
  - exists (str_drop i p). by rewrite str_take_drop.
Qed.

Lemma path_split_suffix p : ∃ h, p = h +:+ (path_split p).2.
Proof.
  unfold path_split. exists (str_take (Z.to_nat (str_rfind "/" p + 1)) p).
  case_match; simpl; by rewrite str_take_drop.
Qed.

(** The directory part is shorter than the path when it is not the path. *)
Lemma path_split_shorter p :
  (path_split p).1 ≠ p → String.length (path_split p).1 < String.length p.
Proof.
  destruct (path_split_prefix p) as [r Hr]. intros Hne.
  destruct r as [|a r]; [by rewrite str_app_nil_r in Hr|].
  rewrite Hr at 2. rewrite str_length_app. simpl. lia.
Qed.

End PyPath.
