(* ===== verification/FileSys.v ===== *)
(** * The file system seen by [src/main.py]

    The state is a finite map from absolute paths (lists of components)
    to inodes, a directory or a regular file with its bytes; the root
    [[]] is always a directory.  Each operation is the system call the
    program makes through Python: [os.mkdir] and [pathlib.Path.mkdir]
    (line 43), [open(path, "wb")] with [write] (lines 56-57, and
    Pillow's [save], line 75), reading a file ([Image.open], line 71),
    and the directory listing behind [glob.glob] (line 88).  Failures are
    the exceptions Python raises ([FileNotFoundError] for a missing
    ancestor, [NotADirectoryError] when an ancestor is a file, ...). *)

From S2P Require Import Prelude PyStr PyPath.
Import PyStr PyPath.

Module FileSys.

Inductive inode :=
  | IDir
  | IFile (data : list byte).

#[export] Instance inode_eq_dec : EqDecision inode.
Proof. solve_decision. Defined.

Abbreviation FS := (gmap (list string) inode).

(** The kernel's walk over the components [rest] below the directory
    [pre]: each one must exist and be a directory. *)
Fixpoint check_dirs (fs : FS) (pre rest : list string) : res unit :=
  match rest with
  | [] => Ok ()
  | x :: xs =>
      match fs !! (pre ++ [x]) with
      | Some IDir => check_dirs fs (pre ++ [x]) xs
      | Some (IFile _) => Raise NotADirectoryError
      | None => Raise FileNotFoundError
      end
  end.

(** [os.path.isdir] / [Path.is_dir]: the walk to [p] succeeds. *)
Definition path_is_dir (fs : FS) (p : list string) : bool :=
  res_is_ok (check_dirs fs [] p).

(** [os.mkdir(p)]: the parent must resolve, [p] must not exist. *)
Definition os_mkdir (p : list string) : stm FS unit := λ fs,
  match p with
  | [] => (Raise FileExistsError, fs)
  | _ =>
      match check_dirs fs [] (removelast p) with
      | Raise e => (Raise e, fs)
      | Ok _ =>
          match fs !! p with
          | Some _ => (Raise FileExistsError, fs)
          | None => (Ok (), <[p := IDir]> fs)
          end
      end
  end.

(** [open(p, "wb")]: create the file or truncate it to empty. *)
Definition open_wb (p : list string) : stm FS unit := λ fs,
  match p with
  | [] => (Raise IsADirectoryError, fs)
  | _ =>
      match check_dirs fs [] (removelast p) with
      | Raise e => (Raise e, fs)
      | Ok _ =>
          match fs !! p with
          | Some IDir => (Raise IsADirectoryError, fs)
          | _ => (Ok (), <[p := IFile []]> fs)
          end
      end
  end.

(** [Path(p).mkdir(parents=False, exist_ok=exist_ok)]:
<<
        try:
            os.mkdir(self, mode)
        except FileNotFoundError:
            if not parents or self.parent == self:
                raise
            ...
        except OSError:
            if not exist_ok or not self.is_dir():
                raise
>> *)
Definition mkdir_once (p : list string) (exist_ok : bool) : stm FS unit := λ fs,
  match os_mkdir p fs with
  | (Ok _, fs') => (Ok (), fs')
  | (Raise FileNotFoundError, fs') => (Raise FileNotFoundError, fs')
  | (Raise e, fs') => if exist_ok && path_is_dir fs' p then (Ok (), fs') else (Raise e, fs')
  end.

(** [Path(p).mkdir(parents=parents, exist_ok=exist_ok)], on the reversed
    component list [rp] of [p], so that [self.parent] is the tail:
<<
        except FileNotFoundError:
            if not parents or self.parent == self:
                raise
            self.parent.mkdir(parents=True, exist_ok=True)
            self.mkdir(mode, parents=False, exist_ok=exist_ok)
>> *)
Fixpoint mkdir_rev (rp : list string) (parents exist_ok : bool) : stm FS unit := λ fs,
  match os_mkdir (reverse rp) fs with
  | (Ok _, fs') => (Ok (), fs')
  | (Raise FileNotFoundError, fs') =>
      match rp with
      | [] => (Raise FileNotFoundError, fs')
      | _ :: rp' =>
          if parents
          then (mkdir_rev rp' true true ;;; mkdir_once (reverse rp) exist_ok) fs'
          else (Raise FileNotFoundError, fs')
      end
  | (Raise e, fs') =>
      if exist_ok && path_is_dir fs' (reverse rp) then (Ok (), fs') else (Raise e, fs')
  end.

Definition path_mkdir (p : list string) (parents exist_ok : bool) : stm FS unit :=
  mkdir_rev (reverse p) parents exist_ok.

(** [f.write(data)] on a handle of [p] at offset [pos]; returns the new
    offset.  A file is removed only after its handle is closed, so the
    inode a handle refers to is the file at [p]. *)
Definition write_at (p : list string) (pos : nat) (data : list byte) : stm FS nat := λ fs,
  match fs !! p with
  | Some (IFile c) => (Ok (pos + length data), <[p := IFile (overlay c pos data)]> fs)
  | _ => (Ok (pos + length data), fs)
  end.

(** [open(p, "rb").read()]. *)
Definition read_file (p : list string) : stm FS (list byte) := λ fs,
  match p with
  | [] => (Raise IsADirectoryError, fs)
  | _ =>
      match check_dirs fs [] (removelast p) with
      | Raise e => (Raise e, fs)
      | Ok _ =>
          match fs !! p with
          | Some (IFile c) => (Ok c, fs)
          | Some IDir => (Raise IsADirectoryError, fs)
          | None => (Raise FileNotFoundError, fs)
          end
      end
  end.

(** [os.remove(p)]: unlink a file; a directory is refused. *)
Definition os_remove (p : list string) : stm FS unit := λ fs,
  match p with
  | [] => (Raise IsADirectoryError, fs)
  | _ =>
      match check_dirs fs [] (removelast p) with
      | Raise e => (Raise e, fs)
      | Ok _ =>
          match fs !! p with
          | Some (IFile _) => (Ok (), delete p fs)
          | Some IDir => (Raise IsADirectoryError, fs)
          | None => (Raise FileNotFoundError, fs)
          end
      end
  end.

(** [os.path.exists(p)]: [os.stat(p)] succeeds. *)
Definition path_exists (fs : FS) (p : list string) : bool :=
  match p with
  | [] => true
  | _ => res_is_ok (check_dirs fs [] (removelast p)) && bool_decide (is_Some (fs !! p))
  end.

(** The name of [q] in the directory [d], when [q] is an entry of [d]. *)
Definition child_name (d q : list string) : option string :=
  match drop (length d) q with
  | [x] => if decide (take (length d) q = d) then Some x else None
  | _ => None
  end.

(** [os.listdir(d)] / [os.scandir(d)]: the names of the entries of [d],
    in the order of the map (the order of [os.scandir] is unspecified).
    A directory entry's name never holds a slash, so a key of the map
    with one is no entry. *)
Definition listdir (fs : FS) (d : list string) : list string :=
  filter (λ x, str_has "/" x = false) (omap (λ kv, child_name d kv.1) (map_to_list fs)).

(** ** The tree invariant: the parent of every entry is a directory. *)

Definition fs_wf (fs : FS) : Prop :=
  ∀ q x v, fs !! (q ++ [x]) = Some v → q = [] ∨ fs !! q = Some IDir.

(** The tree invariant as a test on the entries of the map. *)
Definition fs_wfb (fs : FS) : bool :=
  forallb (λ kv : list string * inode,
             match kv.1 with
             | [] => true
             | _ => bool_decide (removelast kv.1 = [] ∨ fs !! removelast kv.1 = Some IDir)
             end) (map_to_list fs).

(** ** Lemmas on the walk *)

Lemma check_dirs_ok fs pre rest :
  check_dirs fs pre rest = Ok () ↔
  ∀ k, 0 < k ≤ length rest → fs !! (pre ++ take k rest) = Some IDir.
Proof.
  revert pre. induction rest as [|x xs IH]; intros pre; simpl.
  - split; [lia|done].
  - destruct (fs !! (pre ++ [x])) as [[|c]|] eqn:E.
    + rewrite IH. split.
      * intros H [|k] Hk; [lia|]. simpl.
        destruct k as [|k]; [done|].
        rewrite cons_middle, app_assoc. apply H. lia.
      * intros H k Hk. rewrite <-app_assoc. apply (H (S k)). lia.
    + split; [done|]. intros H.
      assert (fs !! (pre ++ [x]) = Some IDir) by (apply (H 1); simpl; lia). congruence.
    + split; [done|]. intros H.
      assert (fs !! (pre ++ [x]) = Some IDir) by (apply (H 1); simpl; lia). congruence.
Qed.

Lemma check_dirs_app fs pre r1 r2 :
  check_dirs fs pre (r1 ++ r2) =
  match check_dirs fs pre r1 with
  | Ok _ => check_dirs fs (pre ++ r1) r2
  | Raise e => Raise e
  end.
Proof.
  revert pre. induction r1 as [|x r1 IH]; intros pre; simpl; [by rewrite app_nil_r|].
  destruct (fs !! (pre ++ [x])) as [[|c]|]; [|done|done]. by rewrite IH, <-app_assoc.
Qed.

Lemma check_dirs_insert_other fs pre rest q v :
  (∀ k, 0 < k ≤ length rest → pre ++ take k rest ≠ q) →
  check_dirs (<[q := v]> fs) pre rest = check_dirs fs pre rest.
Proof.
  revert pre. induction rest as [|x xs IH]; intros pre Hq; simpl; [done|].
  rewrite lookup_insert_ne by (apply not_eq_sym, (Hq 1); simpl; lia).
  destruct (fs !! (pre ++ [x])) as [[|c]|]; [|done|done].
  apply IH. intros k Hk. rewrite <-app_assoc. apply (Hq (S k)). simpl. lia.
Qed.

(** Inserting a file where there was no directory keeps every walk that
    succeeded successful, and makes no new walk succeed. *)
Lemma check_dirs_insert_nondir fs pre rest q v :
  fs !! q ≠ Some IDir → v ≠ IDir →
  check_dirs (<[q := v]> fs) pre rest = Ok () ↔ check_dirs fs pre rest = Ok ().
Proof.
  intros Hq Hv. rewrite !check_dirs_ok.
  split; intros H k Hk; specialize (H k Hk).
  - rewrite lookup_insert in H. case_decide; naive_solver.
  - rewrite lookup_insert. case_decide; naive_solver.
Qed.

(** The walk reads only the entries of the prefixes it visits. *)
Lemma check_dirs_frame fs fs' pre rest :
  (∀ k, 0 < k ≤ length rest → fs' !! (pre ++ take k rest) = fs !! (pre ++ take k rest)) →
  check_dirs fs' pre rest = check_dirs fs pre rest.
Proof.
  revert pre. induction rest as [|x xs IH]; intros pre H; simpl; [done|].
  pose proof (H 1 ltac:(simpl; lia)) as H1. change (take 1 (x :: xs)) with [x] in H1. rewrite H1.
  destruct (fs !! (pre ++ [x])) as [[|c]|]; [|done|done].
  apply IH. intros k Hk. rewrite <-app_assoc. apply (H (S k)). simpl. lia.
Qed.

(** Reading [p] depends only on the entries of the prefixes of [p]. *)
Lemma read_file_frame p fs fs' :
  (∀ k, 0 < k ≤ length p → fs' !! take k p = fs !! take k p) →
  (read_file p fs').1 = (read_file p fs).1.
Proof.
  intros H. destruct p as [|x q _] using rev_ind; [done|]. unfold read_file.
  destruct (q ++ [x]) eqn:E; [by destruct q|]. cbn iota. rewrite <-E in H |- *. rewrite removelast_last.
  rewrite (check_dirs_frame fs fs').
  2: { intros k Hk. simpl. rewrite <-(take_app_le q [x]) by lia. apply H.
       rewrite length_app. simpl. lia. }
  destruct (check_dirs fs [] q) as [[]|e]; [|done].
  assert (fs' !! (q ++ [x]) = fs !! (q ++ [x])) as ->.
  2: by destruct (fs !! (q ++ [x])) as [[|c]|].
  rewrite <-(take_ge (q ++ [x]) (length (q ++ [x]))) by done.
  apply H. rewrite length_app. simpl. lia.
Qed.

Lemma write_at_spec p pos data fs :
  write_at p pos data fs =
  (Ok (pos + length data),
   match fs !! p with
   | Some (IFile c) => <[p := IFile (overlay c pos data)]> fs
   | _ => fs
   end).
Proof. unfold write_at. by destruct (fs !! p) as [[|c]|]. Qed.

(** The walk fails only on a missing component or on a file. *)
Lemma check_dirs_error fs pre rest e :
  check_dirs fs pre rest = Raise e →
  (e = FileNotFoundError ∧ ∃ k, 0 < k ≤ length rest ∧ fs !! (pre ++ take k rest) = None) ∨
  (e = NotADirectoryError ∧ ∃ k c, 0 < k ≤ length rest ∧ fs !! (pre ++ take k rest) = Some (IFile c)).
Proof.
  revert pre. induction rest as [|x xs IH]; intros pre; simpl; [done|].
  destruct (fs !! (pre ++ [x])) as [[|c]|] eqn:E.
  - intros H. destruct (IH _ H) as [(-> & k & Hk & Hl)|(-> & k & c & Hk & Hl)];
      rewrite <-app_assoc in Hl.
    + left. split; [done|]. exists (S k). split; [simpl; lia|done].
    + right. split; [done|]. exists (S k), c. split; [simpl; lia|done].
  - intros [= <-]. right. split; [done|]. exists 1, c. split; [simpl; lia|done].
  - intros [= <-]. left. split; [done|]. exists 1. split; [simpl; lia|done].
Qed.

(** In a well-formed file system every proper ancestor of an entry is a
    directory. *)
Lemma fs_wf_ancestors fs q v :
  fs_wf fs → fs !! q = Some v → ∀ k, 0 < k < length q → fs !! take k q = Some IDir.
Proof.
  intros Hwf. revert v. induction q as [|x q IH] using rev_ind; intros v Hq k Hk; [simpl in Hk; lia|].
  rewrite length_app in Hk. simpl in Hk.
  destruct (Hwf _ _ _ Hq) as [->|Hp]; [simpl in Hk; lia|].
  destruct (decide (k = length q)) as [->|Hne].
  - by rewrite take_app_length.
  - rewrite take_app_le by lia. apply (IH IDir); [done|lia].
Qed.

Lemma fs_wf_parent_ok fs q x v :
  fs_wf fs → fs !! (q ++ [x]) = Some v → check_dirs fs [] q = Ok ().
Proof.
  intros Hwf Hq. apply check_dirs_ok. intros k Hk. simpl.
  rewrite <-(take_app_le q [x]) by lia. eapply fs_wf_ancestors; [done|done|].
  rewrite length_app. simpl. lia.
Qed.

(** Inserting an entry whose parent is a directory keeps the tree
    invariant; so do [os.mkdir], [open(..., "wb")] and [write]. *)
Lemma fs_wf_insert fs q x v :
  fs_wf fs → (q = [] ∨ fs !! q = Some IDir) → fs !! (q ++ [x]) ≠ Some IDir →
  fs_wf (<[q ++ [x] := v]> fs).
Proof.
  intros Hwf Hp Hnd q' x' v'. rewrite lookup_insert. case_decide as Heq.
  - intros _. apply app_inj_tail in Heq as [-> ->]. destruct Hp as [->|Hp]; [by left|right].
    rewrite lookup_insert_ne; [done|]. intros Hqq. apply (f_equal length) in Hqq.
    rewrite length_app in Hqq. simpl in Hqq. lia.
  - intros Hl. destruct (Hwf _ _ _ Hl) as [->|Hl']; [by left|right].
    rewrite lookup_insert. case_decide; [|done]. subst. congruence.
Qed.

Lemma check_dirs_parent fs q : check_dirs fs [] q = Ok () → q = [] ∨ fs !! q = Some IDir.
Proof.
  intros H. destruct q as [|y q] using rev_ind; [by left|right]. clear IHq.
  rewrite check_dirs_ok in H. rewrite <-(take_app_length (q ++ [y]) []), app_nil_r.
  apply H. rewrite length_app. simpl. lia.
Qed.

Lemma fs_wf_replace_file fs p c v :
  fs_wf fs → fs !! p = Some (IFile c) → fs_wf (<[p := v]> fs).
Proof.
  intros Hwf Hp q x v'. rewrite lookup_insert. case_decide as Heq.
  - intros _. subst p. destruct (Hwf _ _ _ Hp) as [->|Hq]; [by left|right].
    rewrite lookup_insert_ne; [done|]. intros Hqq. apply (f_equal length) in Hqq.
    rewrite length_app in Hqq. simpl in Hqq. lia.
  - intros Hl. destruct (Hwf _ _ _ Hl) as [->|Hq]; [by left|right].
    rewrite lookup_insert_ne; [done|]. congruence.
Qed.

Lemma os_mkdir_wf p fs : fs_wf fs → fs_wf (os_mkdir p fs).2.
Proof.
  intros Hwf. destruct p as [|x q _] using rev_ind; [done|]. unfold os_mkdir.
  destruct (q ++ [x]) eqn:E; [by destruct q|]. rewrite <-E, removelast_last.
  destruct (check_dirs fs [] q) as [[]|e] eqn:Hq; simpl; [|done].
  destruct (fs !! (q ++ [x])) eqn:Hx; simpl; [done|].
  apply fs_wf_insert; [done| |by rewrite Hx]. by apply check_dirs_parent.
Qed.

Lemma open_wb_wf p fs : fs_wf fs → fs_wf (open_wb p fs).2.
Proof.
  intros Hwf. destruct p as [|x q _] using rev_ind; [done|]. unfold open_wb.
  destruct (q ++ [x]) eqn:E; [by destruct q|]. rewrite <-E, removelast_last.
  destruct (check_dirs fs [] q) as [[]|e] eqn:Hq; simpl; [|done].
  destruct (fs !! (q ++ [x])) as [[|c]|] eqn:Hx; simpl; [done| |];
    (apply fs_wf_insert; [done| |by rewrite Hx]); by apply check_dirs_parent.
Qed.

Lemma write_at_wf p pos data fs : fs_wf fs → fs_wf (write_at p pos data fs).2.
Proof.
  intros Hwf. rewrite write_at_spec. simpl.
  destruct (fs !! p) as [[|c]|] eqn:Hp; [done| |done]. by eapply fs_wf_replace_file.
Qed.

Lemma fs_wf_delete_file fs p c :
  fs_wf fs → fs !! p = Some (IFile c) → fs_wf (delete p fs).
Proof.
  intros Hwf Hp q x v. rewrite lookup_delete. case_decide; [done|]. intros Hl.
  destruct (Hwf _ _ _ Hl) as [->|Hq]; [by left|right].
  rewrite lookup_delete_ne; [done|]. intros <-. congruence.
Qed.

Lemma os_remove_wf p fs : fs_wf fs → fs_wf (os_remove p fs).2.
Proof.
  intros Hwf. unfold os_remove. destruct p as [|y l]; [done|].
  destruct (check_dirs _ _ _); [|done].
  destruct (fs !! (y :: l)) as [[|c]|] eqn:Hp; [done| |done]. by eapply fs_wf_delete_file.
Qed.

Lemma mkdir_once_wf p exist_ok fs : fs_wf fs → fs_wf (mkdir_once p exist_ok fs).2.
Proof.
  intros Hwf. pose proof (os_mkdir_wf p fs Hwf) as H. unfold mkdir_once.
  destruct (os_mkdir p fs) as [[u|[]] fs']; simpl in *; try done; by case_match.
Qed.

Lemma mkdir_rev_wf rp parents exist_ok fs : fs_wf fs → fs_wf (mkdir_rev rp parents exist_ok fs).2.
Proof.
  revert parents exist_ok fs. induction rp as [|x rp IH]; intros parents exist_ok fs Hwf; simpl;
    [by case_match|].
  pose proof (os_mkdir_wf (reverse (x :: rp)) fs Hwf) as H.
  destruct (os_mkdir (reverse (x :: rp)) fs) as [[u|[]] fs'] eqn:E;
    simpl in *; try done; try by case_match.
  destruct parents; [|done]. unfold st_bind. specialize (IH true true fs' H).
  destruct (mkdir_rev rp true true fs') as [[u|e] fs'']; [|done]. by apply mkdir_once_wf.
Qed.

(** ** [Path.mkdir(parents=True, exist_ok=True)] *)

(** What a successful [mkdir -p] of [p] leaves: every non-empty prefix of
    [p] is a directory, every other path is as before. *)
Definition mkdir_post (fs fs' : FS) (p : list string) : Prop :=
  (∀ k, 0 < k ≤ length p → fs' !! take k p = Some IDir) ∧
  (∀ q, (∀ k, 0 < k ≤ length p → q ≠ take k p) → fs' !! q = fs !! q).

Lemma os_mkdir_snoc q x fs :
  os_mkdir (q ++ [x]) fs =
  match check_dirs fs [] q with
  | Raise e => (Raise e, fs)
  | Ok _ =>
      match fs !! (q ++ [x]) with
      | Some _ => (Raise FileExistsError, fs)
      | None => (Ok (), <[q ++ [x] := IDir]> fs)
      end
  end.
Proof.
  unfold os_mkdir. destruct (q ++ [x]) eqn:E; [by destruct q|]. by rewrite <-E, removelast_last.
Qed.

Lemma path_mkdir_snoc q x parents exist_ok fs :
  path_mkdir (q ++ [x]) parents exist_ok fs =
  match os_mkdir (q ++ [x]) fs with
  | (Ok _, fs') => (Ok (), fs')
  | (Raise FileNotFoundError, fs') =>
      if parents then (path_mkdir q true true ;;; mkdir_once (q ++ [x]) exist_ok) fs'
      else (Raise FileNotFoundError, fs')
  | (Raise e, fs') =>
      if exist_ok && path_is_dir fs' (q ++ [x]) then (Ok (), fs') else (Raise e, fs')
  end.
Proof.
  unfold path_mkdir. rewrite reverse_snoc. cbn [mkdir_rev].
  by rewrite reverse_cons, reverse_involutive.
Qed.

Lemma prefix_snoc_cases (q : list string) x k :
  0 < k ≤ length (q ++ [x]) →
  (0 < k ≤ length q ∧ take k (q ++ [x]) = take k q) ∨ take k (q ++ [x]) = q ++ [x].
Proof.
  rewrite length_app. simpl. intros Hk. destruct (decide (k ≤ length q)).
  - left. split; [lia|]. by apply take_app_le.
  - right. apply take_ge. rewrite length_app. simpl. lia.
Qed.

Lemma take_ne_snoc (q : list string) x k : k ≤ length q → take k q ≠ q ++ [x].
Proof.
  intros Hk Heq. apply (f_equal length) in Heq.
  rewrite length_take, length_app in Heq. simpl in Heq. lia.
Qed.

(** Adding the last component to a directory whose prefixes are all
    directories. *)
Lemma mkdir_post_snoc fs fs1 q x :
  mkdir_post fs fs1 q → fs !! (q ++ [x]) = None →
  mkdir_post fs (<[q ++ [x] := IDir]> fs1) (q ++ [x]).
Proof.
  intros [Hpre Hsame] Hx. split.
  - intros k Hk. destruct (prefix_snoc_cases q x k Hk) as [[Hk' ->]| ->].
    + rewrite lookup_insert_ne by (apply not_eq_sym, take_ne_snoc; lia). by apply Hpre.
    + by rewrite lookup_insert_eq.
  - intros q' Hq'. rewrite lookup_insert_ne.
    + apply Hsame. intros k Hk Heq. apply (Hq' k); [rewrite length_app; lia|].
      rewrite take_app_le by lia. done.
    + intros <-. apply (Hq' (length (q ++ [x]))); [rewrite length_app; simpl; lia|].
      by rewrite take_ge.
Qed.

Lemma mkdir_post_refl fs p :
  (∀ k, 0 < k ≤ length p → fs !! take k p = Some IDir) → mkdir_post fs fs p.
Proof. intros H. by split. Qed.

Lemma path_is_dir_snoc fs q x :
  check_dirs fs [] q = Ok () → fs !! (q ++ [x]) = Some IDir → path_is_dir fs (q ++ [x]) = true.
Proof.
  intros Hq Hx. unfold path_is_dir. rewrite check_dirs_app. simpl.
  rewrite Hq. simpl. by rewrite Hx.
Qed.

(** [Path(p).mkdir(parents=True, exist_ok=True)] on a well-formed
    file system where no prefix of [p] is a regular file succeeds, makes
    every prefix of [p] a directory, and changes no other path. *)
Theorem path_mkdir_ok p fs :
  fs_wf fs → (∀ k c, 0 < k ≤ length p → fs !! take k p ≠ Some (IFile c)) →
  ∃ fs', path_mkdir p true true fs = (Ok (), fs') ∧ mkdir_post fs fs' p.
Proof.
  intros Hwf. induction p as [|x q IH] using rev_ind; intros Hnf.
  - exists fs. split; [done|]. apply mkdir_post_refl. simpl. lia.
  - assert (∀ k c, 0 < k ≤ length q → fs !! take k q ≠ Some (IFile c)) as Hnfq.
    { intros k c Hk. rewrite <-(take_app_le q [x]) by lia. apply Hnf. rewrite length_app. lia. }
    rewrite path_mkdir_snoc, os_mkdir_snoc.
    destruct (check_dirs fs [] q) as [[]|e] eqn:Hc.
    + pose proof (proj1 (check_dirs_ok _ _ _) Hc) as Hdirs. simpl in Hdirs.
      destruct (fs !! (q ++ [x])) as [[|c]|] eqn:Hx.
      * simpl. rewrite path_is_dir_snoc by done. exists fs. split; [done|].
        apply mkdir_post_refl. intros k Hk.
        destruct (prefix_snoc_cases q x k Hk) as [[Hk' ->]| ->]; [by apply Hdirs|done].
      * exfalso. apply (Hnf (length (q ++ [x])) c); [rewrite length_app; simpl; lia|].
        by rewrite take_ge.
      * exists (<[q ++ [x] := IDir]> fs). split; [done|].
        apply mkdir_post_snoc; [|done]. by apply mkdir_post_refl.
    + destruct (check_dirs_error _ _ _ _ Hc) as [(-> & _)|(-> & k & c & Hk & Hf)];
        [|by destruct (Hnfq k c Hk)].
      destruct (IH Hnfq) as (fs1 & Hrun & Hpost). unfold st_bind. rewrite Hrun.
      assert (fs !! (q ++ [x]) = None) as Hx.
      { destruct (fs !! (q ++ [x])) eqn:Hx; [|done].
        by rewrite (fs_wf_parent_ok fs q x i Hwf Hx) in Hc. }
      assert (fs1 !! (q ++ [x]) = None) as Hx1.
      { rewrite (proj2 Hpost); [done|]. intros k Hk. apply not_eq_sym, take_ne_snoc. lia. }
      unfold mkdir_once. rewrite os_mkdir_snoc.
      assert (check_dirs fs1 [] q = Ok ()) as ->.
      { apply check_dirs_ok. apply Hpost. }
      rewrite Hx1. eexists. split; [done|]. by apply mkdir_post_snoc.
Qed.

Lemma path_is_dir_prefixes fs p :
  path_is_dir fs p = true → ∀ k, 0 < k ≤ length p → fs !! take k p = Some IDir.
Proof.
  unfold path_is_dir. destruct (check_dirs fs [] p) as [[]|] eqn:E; [|done]. intros _ k Hk.
  rewrite check_dirs_ok in E. exact (E k Hk).
Qed.

Lemma os_mkdir_error_state p fs e : (os_mkdir p fs).1 = Raise e → (os_mkdir p fs).2 = fs.
Proof. unfold os_mkdir. by repeat case_match. Qed.

(** A directory that is there already extends the post-state of its
    parent. *)
Lemma mkdir_post_dir fs fs1 q x :
  mkdir_post fs fs1 q → path_is_dir fs1 (q ++ [x]) = true → mkdir_post fs fs1 (q ++ [x]).
Proof.
  intros [_ Hsame] Hdir. split; [by apply path_is_dir_prefixes|].
  intros q' Hq'. apply Hsame. intros k Hk Heq. apply (Hq' k); [rewrite length_app; lia|].
  by rewrite take_app_le by lia.
Qed.

Lemma mkdir_once_post fs fs1 fs' q x exist_ok :
  mkdir_post fs fs1 q → mkdir_once (q ++ [x]) exist_ok fs1 = (Ok (), fs') →
  mkdir_post fs fs' (q ++ [x]).
Proof.
  intros Hpost. unfold mkdir_once. rewrite os_mkdir_snoc.
  assert (check_dirs fs1 [] q = Ok ()) as -> by (apply check_dirs_ok; apply Hpost).
  destruct (fs1 !! (q ++ [x])) eqn:Hx.
  - case_match; [|done]. intros [= <-]. apply mkdir_post_dir; [done|].
    by apply andb_prop in H as [_ ?].
  - intros [= <-]. apply mkdir_post_snoc; [done|]. rewrite <-(proj2 Hpost); [done|].
    intros k Hk. apply not_eq_sym, take_ne_snoc. lia.
Qed.

(** Whenever [Path(p).mkdir(parents=True, exist_ok=...)] returns, every
    prefix of [p] is a directory and only those prefixes changed. *)
Lemma path_mkdir_post p exist_ok fs fs' :
  path_mkdir p true exist_ok fs = (Ok (), fs') → mkdir_post fs fs' p.
Proof.
  revert exist_ok fs fs'. induction p as [|x q IH] using rev_ind; intros exist_ok fs fs'.
  - unfold path_mkdir. simpl. case_match; [|done]. intros [= <-]. apply mkdir_post_refl. simpl. lia.
  - rewrite path_mkdir_snoc. destruct (os_mkdir (q ++ [x]) fs) as [r fs1] eqn:Hm.
    destruct r as [[]|e].
    + intros [= <-]. rewrite os_mkdir_snoc in Hm.
      destruct (check_dirs fs [] q) as [[]|] eqn:Hc; [|done].
      destruct (fs !! (q ++ [x])) eqn:Hx; [done|]. simplify_eq.
      apply mkdir_post_snoc; [|done]. apply mkdir_post_refl. intros k Hk.
      rewrite check_dirs_ok in Hc. exact (Hc k Hk).
    + pose proof (os_mkdir_error_state (q ++ [x]) fs e) as Hst. rewrite Hm in Hst.
      simpl in Hst. specialize (Hst eq_refl). subst fs1.
      assert (path_is_dir fs (q ++ [x]) = true → mkdir_post fs fs (q ++ [x])) as Hdir.
      { intros Hd. apply mkdir_post_refl. by apply path_is_dir_prefixes. }
      destruct e; try (case_match; [|done]; intros [= <-]; apply Hdir;
                       by match goal with H : _ && _ = true |- _ => apply andb_prop in H as [_ ?] end).
      unfold st_bind. destruct (path_mkdir q true true fs) as [[[]|e'] fs2] eqn:Hq; [|done].
      apply mkdir_once_post. by apply (IH true).
Qed.

(** [mkdir -p p] changes no path longer than [p], and no sibling of
    [p]. *)
Lemma mkdir_post_longer fs fs' p q :
  mkdir_post fs fs' p → length p < length q → fs' !! q = fs !! q.
Proof.
  intros [_ Hsame] Hlen. apply Hsame. intros k Hk ->. rewrite length_take in Hlen. lia.
Qed.

Lemma mkdir_post_sibling fs fs' p x y :
  mkdir_post fs fs' (p ++ [y]) → x ≠ y → fs' !! (p ++ [x]) = fs !! (p ++ [x]).
Proof.
  intros [_ Hsame] Hxy. apply Hsame. intros k Hk Heq.
  destruct (prefix_snoc_cases p y k Hk) as [[Hk' Ht]|Ht]; rewrite Ht in Heq.
  - apply (f_equal length) in Heq. rewrite length_app, length_take in Heq. simpl in Heq. lia.
  - by apply app_inj_tail in Heq as [_ ?].
Qed.

Lemma mkdir_post_check_dirs fs fs' p : mkdir_post fs fs' p → check_dirs fs' [] p = Ok ().
Proof. intros [Hpre _]. apply check_dirs_ok. apply Hpre. Qed.

(** Two results of [mkdir -p] from the same post-state are the same map. *)
Lemma mkdir_post_same fs fs' fs'' p :
  mkdir_post fs fs' p → mkdir_post fs' fs'' p → fs'' = fs'.
Proof.
  intros [Hpre' _] [Hpre'' Hsame]. apply map_eq. intros i.
  destruct (decide (i = take (length i) p ∧ 0 < length i ≤ length p)) as [[Hi Hk]|Hni].
  - rewrite Hi, Hpre', Hpre''; done.
  - apply Hsame. intros k Hk ->. apply Hni. rewrite length_take, Nat.min_l by lia.
    split; [done|lia].
Qed.

(** [mkdir -p] of a path whose prefixes are all directories changes
    nothing. *)
Lemma mkdir_post_noop fs fs' p :
  (∀ k, 0 < k ≤ length p → fs !! take k p = Some IDir) → mkdir_post fs fs' p → fs' = fs.
Proof. intros Hd Hpost. by apply (mkdir_post_same fs fs fs' p). Qed.

(** C19: [create_folder] may run again: a second [mkdir -p] of the same
    path succeeds and changes nothing. *)
Theorem path_mkdir_idempotent p fs fs' :
  fs_wf fs → (∀ k c, 0 < k ≤ length p → fs !! take k p ≠ Some (IFile c)) →
  path_mkdir p true true fs = (Ok (), fs') →
  path_mkdir p true true fs' = (Ok (), fs').
Proof.
  intros Hwf Hnf Hrun.
  destruct (path_mkdir_ok p fs Hwf Hnf) as (fs1 & Hrun1 & Hpost1).
  rewrite Hrun in Hrun1. simplify_eq.
  assert (fs_wf fs1) as Hwf1.
  { pose proof (mkdir_rev_wf (reverse p) true true fs Hwf) as H.
    unfold path_mkdir in Hrun. by rewrite Hrun in H. }
  destruct (path_mkdir_ok p fs1 Hwf1) as (fs2 & Hrun2 & Hpost2).
  { intros k c Hk. by rewrite (proj1 Hpost1 k Hk). }
  rewrite Hrun2. by rewrite (mkdir_post_same fs fs1 fs2 p).
Qed.

(** The walk stops with [NotADirectoryError] at the first file. *)
Lemma check_dirs_file_at fs pre rest k c :
  0 < k ≤ length rest →
  (∀ j, 0 < j < k → fs !! (pre ++ take j rest) = Some IDir) →
  fs !! (pre ++ take k rest) = Some (IFile c) →
  check_dirs fs pre rest = Raise NotADirectoryError.
Proof.
  revert pre k. induction rest as [|y ys IH]; intros pre k Hk Hdirs Hf; simpl in *; [lia|].
  destruct k as [|[|k]]; [lia| |].
  - simpl in Hf. rewrite take_0 in Hf. by rewrite Hf.
  - assert (fs !! (pre ++ [y]) = Some IDir) as -> by (apply (Hdirs 1); lia).
    apply (IH _ (S k)); [lia| |].
    + intros j Hj. rewrite <-app_assoc. apply (Hdirs (S j)). lia.
    + by rewrite <-app_assoc.
Qed.

(** C20: [Path(p).mkdir(parents=True, exist_ok=True)] raises when a prefix
    of [p] is a regular file ([FileExistsError] when [p] itself is one,
    [NotADirectoryError] when an ancestor is) and then changes nothing. *)
Theorem path_mkdir_file_error p fs k c :
  fs_wf fs → 0 < k ≤ length p → fs !! take k p = Some (IFile c) →
  path_mkdir p true true fs = (Raise FileExistsError, fs) ∨
  path_mkdir p true true fs = (Raise NotADirectoryError, fs).
Proof.
  intros Hwf Hk Hf. destruct p as [|x q _] using rev_ind; [simpl in Hk; lia|].
  assert (∀ j, 0 < j < k → fs !! take j (q ++ [x]) = Some IDir) as Hanc.
  { intros j Hj.
    assert (take j (q ++ [x]) = take j (take k (q ++ [x]))) as ->
      by (rewrite take_take, Nat.min_l by lia; done).
    eapply fs_wf_ancestors; [done|done|]. rewrite length_take. lia. }
  rewrite path_mkdir_snoc, os_mkdir_snoc.
  destruct (prefix_snoc_cases q x k Hk) as [[Hk' Htk]|Htk].
  - assert (check_dirs fs [] q = Raise NotADirectoryError) as Hq.
    { apply (check_dirs_file_at _ _ _ k c); [lia| |by rewrite <-Htk].
      intros j Hj. simpl. rewrite <-(take_app_le q [x] j) by lia. apply Hanc; lia. }
    rewrite Hq. right. unfold path_is_dir. by rewrite check_dirs_app, Hq.
  - rewrite Htk in Hf. rewrite (fs_wf_parent_ok fs q x (IFile c) Hwf Hf), Hf. left.
    unfold path_is_dir. rewrite check_dirs_app, (fs_wf_parent_ok fs q x (IFile c) Hwf Hf).
    simpl. by rewrite Hf.
Qed.

Lemma fs_wfb_sound fs : fs_wfb fs = true → fs_wf fs.
Proof.
  unfold fs_wfb. rewrite forallb_forall. intros H q x v Hq.
  apply elem_of_map_to_list in Hq. apply list_elem_of_In in Hq.
  specialize (H _ Hq). simpl in H.
  destruct (q ++ [x]) eqn:E; [by destruct q|]. rewrite <-E, removelast_last in H.
  by apply bool_decide_eq_true in H.
Qed.

(** ** Concrete runs *)

Definition home_fs : FS := {[ ["home"] := IDir; ["home"; "u"] := IDir ]}.
Definition processed_path : list string := ["home"; "u"; "images"; "processed"].

(** No prefix of [processed_path] is a regular file of [home_fs]. *)
Lemma home_fs_no_file k c :
  0 < k ≤ length processed_path → home_fs !! take k processed_path ≠ Some (IFile c).
Proof. intros Hk. destruct k as [|[|[|[|[|k]]]]]; simpl in Hk; try lia; vm_compute; congruence. Qed.

Lemma path_mkdir_ok_witness :
  ∃ fs', path_mkdir processed_path true true home_fs = (Ok (), fs') ∧
         mkdir_post home_fs fs' processed_path.
Proof.
  apply path_mkdir_ok.
  - apply fs_wfb_sound. vm_compute. reflexivity.
  - apply home_fs_no_file.
Defined.

Lemma path_mkdir_idempotent_witness :
  let fs' := (path_mkdir processed_path true true home_fs).2 in
  path_mkdir processed_path true true fs' = (Ok (), fs').
Proof.
  intros fs'. apply (path_mkdir_idempotent processed_path home_fs).
  - apply fs_wfb_sound. vm_compute. reflexivity.
  - apply home_fs_no_file.
  - assert ((path_mkdir processed_path true true home_fs).1 = Ok ()) as H1
      by (vm_compute; reflexivity).
    rewrite <-H1. apply surjective_pairing.
Defined.

(** [images] exists as a regular file: [create_folder] raises. *)
Lemma path_mkdir_file_error_witness :
  let fs := <[["home"; "u"; "images"] := IFile []]> home_fs in
  path_mkdir processed_path true true fs = (Raise FileExistsError, fs) ∨
  path_mkdir processed_path true true fs = (Raise NotADirectoryError, fs).
Proof.
  intros fs. apply (path_mkdir_file_error processed_path fs 3 []).
  - apply fs_wfb_sound. vm_compute. reflexivity.
  - simpl. lia.
  - vm_compute. reflexivity.
Defined.

Lemma open_wb_ok fs p x :
  check_dirs fs [] p = Ok () → fs !! (p ++ [x]) ≠ Some IDir →
  open_wb (p ++ [x]) fs = (Ok (), <[p ++ [x] := IFile []]> fs).
Proof.
  intros Hp Hx. unfold open_wb. destruct (p ++ [x]) eqn:E; [by destruct p|].
  rewrite <-E in Hx |- *. rewrite removelast_last, Hp.
  destruct (fs !! (p ++ [x])) as [[|c]|]; congruence.
Qed.

Lemma open_wb_parent_error fs p x e :
  check_dirs fs [] p = Raise e → open_wb (p ++ [x]) fs = (Raise e, fs).
Proof.
  intros Hp. unfold open_wb. destruct (p ++ [x]) eqn:E; [by destruct p|].
  by rewrite <-E, removelast_last, Hp.
Qed.

Lemma os_remove_file fs p x c :
  check_dirs fs [] p = Ok () → fs !! (p ++ [x]) = Some (IFile c) →
  os_remove (p ++ [x]) fs = (Ok (), delete (p ++ [x]) fs).
Proof.
  intros Hp Hx. unfold os_remove. destruct (p ++ [x]) eqn:E; [by destruct p|].
  rewrite <-E in Hx |- *. by rewrite removelast_last, Hp, Hx.
Qed.

Lemma path_exists_parent fs p x :
  check_dirs fs [] p = Ok () → path_exists fs (p ++ [x]) = bool_decide (is_Some (fs !! (p ++ [x]))).
Proof.
  intros Hp. unfold path_exists. destruct (p ++ [x]) eqn:E; [by destruct p|].
  rewrite <-E. by rewrite removelast_last, Hp.
Qed.

Lemma read_file_state p fs : (read_file p fs).2 = fs.
Proof. unfold read_file. by repeat case_match. Qed.

Lemma read_file_ok fs p x c :
  check_dirs fs [] p = Ok () → fs !! (p ++ [x]) = Some (IFile c) →
  read_file (p ++ [x]) fs = (Ok c, fs).
Proof.
  intros Hp Hx. unfold read_file. destruct (p ++ [x]) eqn:E; [by destruct p|].
  rewrite <-E in Hx |- *. by rewrite removelast_last, Hp, Hx.
Qed.

Lemma read_file_file fs p c : (read_file p fs).1 = Ok c → fs !! p = Some (IFile c).
Proof. unfold read_file. repeat case_match; simpl; congruence. Qed.

(** A path longer than every key of the map is absent. *)
Lemma fs_keys_shorter fs n :
  Forall (λ kv : list string * inode, length kv.1 < n) (map_to_list fs) →
  ∀ q, n ≤ length q → fs !! q = None.
Proof.
  rewrite Forall_forall. intros Hk q Hq. destruct (fs !! q) as [v|] eqn:Hv; [|done].
  apply elem_of_map_to_list, Hk in Hv. simpl in Hv. lia.
Qed.

Lemma write_at_insert_empty p data fs :
  write_at p 0 data (<[p := IFile []]> fs) = (Ok (length data), <[p := IFile data]> fs).
Proof. unfold write_at. rewrite lookup_insert_eq, overlay_nil_0. by rewrite insert_insert_eq. Qed.

(** Removing the file just created gives back the file system. *)
Lemma os_remove_insert q x c fs :
  check_dirs fs [] q = Ok () → fs !! (q ++ [x]) = None →
  os_remove (q ++ [x]) (<[q ++ [x] := IFile c]> fs) = (Ok (), fs).
Proof.
  intros Hq Hx. rewrite (os_remove_file _ _ _ c).
  - by rewrite delete_insert_id.
  - rewrite check_dirs_insert_other; [done|]. intros k Hk. simpl.
    apply take_ne_snoc. lia.
  - by rewrite lookup_insert_eq.
Qed.

(** ** Listing *)

Lemma child_name_spec d q x : child_name d q = Some x ↔ q = d ++ [x].
Proof.
  unfold child_name. split.
  - destruct (drop (length d) q) as [|y [|z l]] eqn:E; try done.
    case_decide as Ht; [|done]. intros [= <-].
    by rewrite <-(take_drop (length d) q), Ht, E.
  - intros ->. rewrite drop_app_length, take_app_length. by rewrite decide_True.
Qed.

Lemma listdir_spec fs d x :
  x ∈ listdir fs d ↔ is_Some (fs !! (d ++ [x])) ∧ str_has "/" x = false.
Proof.
  unfold listdir. rewrite list_elem_of_filter, list_elem_of_omap. split.
  - intros (Hs & [q v] & Hin & Hc). apply child_name_spec in Hc. simpl in Hc. subst.
    apply elem_of_map_to_list in Hin. eauto.
  - intros [[v Hv] Hs]. split; [done|]. exists (d ++ [x], v).
    split; [by apply elem_of_map_to_list|]. by apply child_name_spec.
Qed.

Lemma listdir_NoDup fs d : NoDup (listdir fs d).
Proof.
  apply NoDup_filter, NoDup_omap_inj; [|apply NoDup_map_to_list].
  intros [q1 v1] [q2 v2] z H1 H2 Hz1 Hz2. simpl in *.
  apply child_name_spec in Hz1, Hz2. subst.
  apply elem_of_map_to_list in H1, H2. congruence.
Qed.

End FileSys.
