(* ===== verification/Glob.v ===== *)
(** * [glob.glob] and [fnmatch] (CPython 3.12)

    Line 88 of [src/main.py] lists the downloaded images with
    [glob.glob(os.path.join(IMAGE_FOLDER, "*.jpg"))], and [IMAGE_FOLDER]
    is [os.getcwd()] joined with ["images"]: the working directory is
    part of the pattern, unescaped.  This file models the library code
    that call runs, with the defaults the program uses ([root_dir=None],
    [dir_fd=None], [recursive=False], [include_hidden=False]):

    - [glob.py]: [has_magic], [_ishidden], [_join], [_lexists], [_isdir],
      [_listdir] (with [_iterdir]), [_glob0], [_glob1], [_iglob] and
      [glob];
    - [fnmatch.py]: [filter] / [fnmatch] through [translate]: the pattern
      is read into tokens ([*], [?], a literal, a bracket set) exactly as
      [_translate] scans it, bracket sets included ([!] negation, ranges,
      the removal of empty ranges); the regular expression it builds
      matches the whole name, with [.] matching every character.

    [_iglob] recurses on the directory part of the pattern when it holds
    a wildcard; the recursion takes the length of the pattern as fuel,
    and [iglob_total] proves that fuel enough ([os.path.split] returns a
    strictly shorter directory part when it is not the whole pattern).
    [_translate] runs on fuel too, one unit per character, and
    [translate_total] proves it enough.

    The results: for a pattern whose directory part has no wildcard and
    whose last component is [*] followed by a literal suffix, [glob] is
    the listing of that directory, without hidden names, filtered by the
    suffix ([glob_star_literal]); whatever the directory part, every
    name [glob] returns ends in a component that [os.scandir] listed and
    that is not hidden ([glob_star_result]). *)

From S2P Require Import Prelude PyStr PyPath FileSys.
Import PyStr PyPath FileSys.

Module Glob.

(** ** [fnmatch.translate] *)

(** The pieces [_translate] emits: [STAR], [.], an escaped literal, and a
    set [[...]], kept as the chunks of its text after the removal of
    empty ranges (a set without [-] is a single chunk). *)
Inductive token :=
  | TStar
  | TAny
  | TLit (c : ascii)
  | TSet (chunks : list (list ascii)).

(** [k = pat.find('-', k, j)] and the splitting of the set's text into
    chunks: the search starts [skip] characters into the current chunk
    (one, or two after [!]; two after each split, [k = k+3]).  Returns
    the chunks split off and the final chunk [pat[i:j]]. *)
Fixpoint scan_chunks (skip : nat) (cur s : list ascii) : list (list ascii) * list ascii :=
  match s with
  | [] => ([], cur)
  | c :: s' =>
      match skip with
      | S skip' => scan_chunks skip' (cur ++ [c]) s'
      | 0 =>
          if decide (c = "-"%char) then
            let '(cs, fin) := scan_chunks 2 [] s' in (cur :: cs, fin)
          else scan_chunks 0 (cur ++ [c]) s'
      end
  end.

(** [chunks[-1] += '-'] *)
Definition add_to_last (cs : list (list ascii)) (c : ascii) : list (list ascii) :=
  match last cs with
  | Some l => removelast cs ++ [l ++ [c]]
  | None => []
  end.

(** [chunks[k-1][-1] > chunks[k][0]] *)
Definition empty_range (a b : list ascii) : bool :=
  match last a, head b with
  | Some x, Some y => bool_decide (N_of_ascii y < N_of_ascii x)%N
  | _, _ => false
  end.

(** [for k in range(len(chunks)-1, 0, -1): if chunks[k-1][-1] > chunks[k][0]:
    chunks[k-1] = chunks[k-1][:-1] + chunks[k][1:]; del chunks[k]]:
    from the right, each chunk against the already merged next one. *)
Fixpoint merge_ranges (cs : list (list ascii)) : list (list ascii) :=
  match cs with
  | [] => []
  | c :: cs' =>
      match merge_ranges cs' with
      | [] => [c]
      | d :: ds =>
          if empty_range c d then (removelast c ++ tail d) :: ds else c :: d :: ds
      end
  end.

(** The text [stuff = pat[i:j]] of a set, as its chunks. *)
Definition set_chunks (stuff : list ascii) : list (list ascii) :=
  if decide ("-"%char ∈ stuff) then
    let skip := if decide (head stuff = Some "!"%char) then 2 else 1 in
    let '(cs, fin) := scan_chunks skip [] stuff in
    merge_ranges (match fin with [] => add_to_last cs "-" | _ => cs ++ [fin] end)
  else [stuff].

(** The index [j] of the [']'] closing a set opened just before [p]:
    an initial [!], then an initial [']'], are skipped. *)
Definition set_end (p : list ascii) : option nat :=
  let j0 := if decide (head p = Some "!"%char) then 1 else 0 in
  let j1 := if decide (p !! j0 = Some "]"%char) then S j0 else j0 in
  match list_find (λ c, c = "]"%char) (drop j1 p) with
  | Some (k, _) => Some (j1 + k)
  | None => None
  end.

(** [_translate(pat, STAR, '.')], the emitted pieces kept in reverse in
    [acc]; consecutive [*] are compressed ([if not res or res[-1] is not
    STAR]); a [[] without a closing [']'] is a literal. *)
Fixpoint translate_go (fuel : nat) (acc : list token) (p : list ascii) : option (list token) :=
  match p with
  | [] => Some (rev acc)
  | c :: p' =>
      match fuel with
      | 0 => None
      | S fuel' =>
          if decide (c = "*"%char) then
            translate_go fuel' (match acc with TStar :: _ => acc | _ => TStar :: acc end) p'
          else if decide (c = "?"%char) then translate_go fuel' (TAny :: acc) p'
          else if decide (c = "["%char) then
            match set_end p' with
            | None => translate_go fuel' (TLit "[" :: acc) p'
            | Some j => translate_go fuel' (TSet (set_chunks (take j p')) :: acc) (drop (S j) p')
            end
          else translate_go fuel' (TLit c :: acc) p'
      end
  end.

Definition translate (pat : list ascii) : option (list token) :=
  translate_go (length pat) [] pat.

(** ** The regular expression [translate] builds *)

(** [[stuff]]: a leading [!] negates ([stuff = '^' + stuff[1:]]); the
    characters of the chunks are literals (escaped), and consecutive
    chunks [a], [b] add the range [a[-1]-b[0]].  An empty [stuff] never
    matches and ["!"] matches every character, which the same reading
    gives. *)
Definition set_lits (cs : list (list ascii)) : bool * list (list ascii) :=
  match cs with
  | ("!"%char :: c0) :: cs' => (true, c0 :: cs')
  | _ => (false, cs)
  end.

Fixpoint in_ranges (ch : ascii) (cs : list (list ascii)) : bool :=
  match cs with
  | a :: ((b :: _) as cs') =>
      match last a, head b with
      | Some x, Some y =>
          bool_decide (N_of_ascii x ≤ N_of_ascii ch ≤ N_of_ascii y)%N
      | _, _ => false
      end || in_ranges ch cs'
  | _ => false
  end.

Definition in_set (cs : list (list ascii)) (ch : ascii) : bool :=
  let '(neg, ls) := set_lits cs in
  xorb neg (existsb (λ l, bool_decide (ch ∈ l)) ls || in_ranges ch ls).

(** [re.match(regex, name)] with the final [\Z]: the tokens match the
    whole name; [STAR] is [.*] (the lookahead groups [_join_translated_parts]
    puts between stars accept the same names). *)
Fixpoint tmatch (ts : list token) (s : list ascii) : bool :=
  match ts with
  | [] => match s with [] => true | _ => false end
  | TStar :: ts' =>
      (fix go (s : list ascii) : bool :=
         tmatch ts' s || match s with [] => false | _ :: s' => go s' end) s
  | TAny :: ts' => match s with [] => false | _ :: s' => tmatch ts' s' end
  | TLit c :: ts' =>
      match s with [] => false | c' :: s' => bool_decide (c' = c) && tmatch ts' s' end
  | TSet cs :: ts' =>
      match s with [] => false | c' :: s' => in_set cs c' && tmatch ts' s' end
  end.

(** [fnmatch.fnmatch(name, pat)] on POSIX ([normcase] is the identity). *)
Definition fnmatch (name pat : string) : bool :=
  match translate (String.list_ascii_of_string pat) with
  | Some ts => tmatch ts (String.list_ascii_of_string name)
  | None => false
  end.

(** ** [glob.py] *)

(** [has_magic(s)]: [re.compile('([*?[])').search(s) is not None]. *)
Definition has_magic (s : string) : bool :=
  str_has "*" s || str_has "?" s || str_has "[" s.

(** [_ishidden(path)]: [path[0] == '.']. *)
Definition is_hidden (s : string) : bool := str_startswith s ".".

(** [_join(dirname, basename)]: [dirname or basename] when one is empty. *)
Definition glob_join (a b : string) : string :=
  if bool_decide (a = "") || bool_decide (b = "") then a +:+ b else a </> b.

(** [os.path.lexists(p)]: [os.lstat("")] raises. *)
Definition g_lexists (fs : FS) (cwd : list string) (p : string) : bool :=
  bool_decide (p ≠ "") && path_exists fs (os_resolve cwd p).

(** [os.path.isdir(p)]. *)
Definition g_isdir (fs : FS) (cwd : list string) (p : string) : bool :=
  bool_decide (p ≠ "") && path_is_dir fs (os_resolve cwd p).

(** [_listdir(dirname, dir_fd=None, dironly)]: [os.scandir(dirname or
    os.curdir)], keeping the directories only when [dironly]; [[]] when
    [scandir] raises. *)
Definition g_listdir (fs : FS) (cwd : list string) (d : string) (dironly : bool) : list string :=
  let p := os_resolve cwd (if bool_decide (d = "") then "." else d) in
  if path_is_dir fs p then
    filter (λ x, dironly = false ∨ fs !! (p ++ [x]) = Some IDir) (listdir fs p)
  else [].

(** [_glob1(dirname, pattern, dir_fd, dironly)]. *)
Definition glob1 (fs : FS) (cwd : list string) (d pattern : string) (dironly : bool) : list string :=
  let names := g_listdir fs cwd d dironly in
  let names := if is_hidden pattern then names else filter (λ x, is_hidden x = false) names in
  filter (λ x, fnmatch x pattern = true) names.

(** [_glob0(dirname, basename, dir_fd, dironly)]. *)
Definition glob0 (fs : FS) (cwd : list string) (d basename : string) (dironly : bool) : list string :=
  if bool_decide (basename ≠ "") then
    (if g_lexists fs cwd (glob_join d basename) then [basename] else [])
  else if g_isdir fs cwd d then [basename] else [].

(** [_iglob(pathname, root_dir="", dir_fd=None, recursive=False, dironly)],
    with [fuel] for the recursion on the directory part. *)
Fixpoint iglob (fuel : nat) (fs : FS) (cwd : list string) (pathname : string)
    (dironly : bool) : option (list string) :=
  match fuel with
  | 0 => None
  | S fuel' =>
      let '(dirname, basename) := path_split pathname in
      if negb (has_magic pathname) then
        Some (if bool_decide (basename ≠ "") then
                (if g_lexists fs cwd pathname then [pathname] else [])
              else if g_isdir fs cwd dirname then [pathname] else [])
      else if bool_decide (dirname = "") then Some (glob1 fs cwd "" basename dironly)
      else
        let dirs := if bool_decide (dirname ≠ pathname) && has_magic dirname
                    then iglob fuel' fs cwd dirname true else Some [dirname] in
        let glob_in_dir := if has_magic basename then glob1 else glob0 in
        match dirs with
        | Some ds => Some (ds ≫= λ d, (λ name, d </> name) <$> glob_in_dir fs cwd d basename dironly)
        | None => None
        end
  end.

(** [glob.glob(pathname)] = [list(_iglob(pathname, "", None, False, False))]. *)
Definition glob (fs : FS) (cwd : list string) (pathname : string) : list string :=
  default [] (iglob (S (String.length pathname)) fs cwd pathname false).

(** ** [translate] is total *)

Lemma translate_go_fuel fuel acc p : length p ≤ fuel → is_Some (translate_go fuel acc p).
Proof.
  revert fuel acc. induction p as [p IH] using (induction_ltof1 _ length). unfold ltof in IH.
  intros fuel acc Hf. destruct fuel as [|fuel], p as [|c p]; [by eexists|simpl in Hf; lia|by eexists|].
  simpl in Hf. cbn [translate_go].
  repeat case_decide; try (apply IH; simpl; lia).
  destruct (set_end p); apply IH; rewrite ?length_drop; simpl; lia.
Qed.

(** [_translate]'s loop ends: one unit of fuel per character is
    enough. *)
Theorem translate_total pat : is_Some (translate pat).
Proof. by apply translate_go_fuel. Qed.

(** ** A literal suffix after [*] *)

(** A character that is no wildcard. *)
Definition plain (c : ascii) : Prop := c ≠ "*"%char ∧ c ≠ "?"%char ∧ c ≠ "["%char.

Lemma has_magic_plain s : has_magic s = false → Forall plain (String.list_ascii_of_string s).
Proof.
  unfold has_magic. induction s as [|a s IH]; simpl; [constructor|].
  intros H. apply orb_false_iff in H as [[H1 H2]%orb_false_iff H3].
  apply orb_false_iff in H1 as [H1%bool_decide_eq_false H1'].
  apply orb_false_iff in H2 as [H2%bool_decide_eq_false H2'].
  apply orb_false_iff in H3 as [H3%bool_decide_eq_false H3'].
  constructor; [unfold plain; by split_and!|]. apply IH. by rewrite H1', H2', H3'.
Qed.

Lemma has_magic_app a b : has_magic (a +:+ b) = has_magic a || has_magic b.
Proof.
  unfold has_magic. rewrite !str_has_app.
  by destruct (str_has "*" a), (str_has "?" a), (str_has "[" a), (str_has "*" b), (str_has "?" b).
Qed.

(** The name part of a pattern with a wildcard makes the pattern one. *)
Lemma has_magic_split_tail p : has_magic (path_split p).2 = true → has_magic p = true.
Proof.
  destruct (path_split_suffix p) as [h Hh]. intros Hm.
  rewrite Hh, has_magic_app, Hm. apply orb_true_r.
Qed.

Lemma translate_go_plain fuel acc l :
  length l ≤ fuel → Forall plain l → translate_go fuel acc l = Some (rev acc ++ (TLit <$> l)).
Proof.
  revert fuel acc. induction l as [|c l IH]; intros fuel acc Hf Hl.
  - destruct fuel; simpl; by rewrite app_nil_r.
  - inv Hl as [|? ? (H1 & H2 & H3) Hl']. destruct fuel as [|fuel]; [simpl in Hf; lia|].
    simpl in Hf. cbn [translate_go]. rewrite !decide_False by done.
    rewrite IH by (done || lia). simpl. by rewrite <-app_assoc.
Qed.

Lemma tmatch_lits l s : tmatch (TLit <$> l) s = true ↔ s = l.
Proof.
  revert s. induction l as [|c l IH]; intros [|c' s]; simpl; try done.
  rewrite andb_true_iff, bool_decide_eq_true, IH. naive_solver.
Qed.

(** [.*] followed by the rest: some suffix of the name matches the rest. *)
Lemma tmatch_star ts s : tmatch (TStar :: ts) s = true ↔ ∃ k, tmatch ts (drop k s) = true.
Proof.
  induction s as [|c s IH].
  - cbn [tmatch]. rewrite orb_false_r. split; [by exists 0|].
    intros [k Hk]. by rewrite drop_nil in Hk.
  - cbn [tmatch] in IH |- *. rewrite orb_true_iff, IH. split.
    + intros [H|[k H]]; [by exists 0|by exists (S k)].
    + intros [[|k] H]; [by left|right; by exists k].
Qed.

Lemma list_ascii_app s1 s2 :
  String.list_ascii_of_string (s1 +:+ s2) =
  String.list_ascii_of_string s1 ++ String.list_ascii_of_string s2.
Proof. induction s1 as [|a s1 IH]; [done|]. simpl. by rewrite IH. Qed.

Lemma list_ascii_inj s1 s2 :
  String.list_ascii_of_string s1 = String.list_ascii_of_string s2 → s1 = s2.
Proof.
  intros H. by rewrite <-(String.string_of_list_ascii_of_string s1), H,
    String.string_of_list_ascii_of_string.
Qed.

Lemma str_endswith_spec s sfx : str_endswith s sfx = true ↔ ∃ h, s = h +:+ sfx.
Proof.
  split.
  - unfold str_endswith. intros Heq%String.eqb_eq.
    set (k := String.length s - String.length sfx) in Heq.
    exists (str_take k s). by rewrite <-Heq, str_take_drop.
  - intros [h ->]. apply str_endswith_app.
Qed.

(** [fnmatch(name, "*" + sfx)] for a suffix without wildcards is
    [name.endswith(sfx)]. *)
Lemma fnmatch_star_suffix name sfx :
  has_magic sfx = false → fnmatch name (String "*" sfx) = str_endswith name sfx.
Proof.
  intros Hm. apply Bool.eq_iff_eq_true. unfold fnmatch, translate.
  cbn [String.list_ascii_of_string length translate_go]. rewrite decide_True by done.
  rewrite translate_go_plain by (done || by apply has_magic_plain). cbn [rev app].
  rewrite (tmatch_star (TLit <$> _)), str_endswith_spec. setoid_rewrite tmatch_lits. split.
  - intros [k Hk]. exists (String.string_of_list_ascii (take k (String.list_ascii_of_string name))).
    apply list_ascii_inj. rewrite list_ascii_app, String.list_ascii_of_string_of_list_ascii, <-Hk.
    by rewrite take_drop.
  - intros [h ->]. exists (length (String.list_ascii_of_string h)).
    by rewrite list_ascii_app, drop_app_length.
Qed.

(** ** What [glob] returns *)

Lemma has_magic_join a b :
  has_magic a = false → has_magic b = false → has_magic (a </> b) = false.
Proof. intros Ha Hb. unfold path_join. repeat case_match; by rewrite ?has_magic_app, ?Ha, ?Hb. Qed.

Lemma path_join_nil_l b : "" </> b = b.
Proof. unfold path_join. by case_match. Qed.

(** A name [_glob1] returns is an entry of the directory listed, with no
    slash, that the pattern accepts and that is not hidden unless the
    pattern is. *)
Lemma glob1_elem fs cwd d pat b x :
  x ∈ glob1 fs cwd d pat b →
  str_has "/" x = false ∧ fnmatch x pat = true ∧ (is_hidden pat = false → is_hidden x = false).
Proof.
  unfold glob1. rewrite list_elem_of_filter. intros [Hm Hx].
  assert (x ∈ g_listdir fs cwd d b ∧ (is_hidden pat = false → is_hidden x = false)) as [Hl Hh].
  { destruct (is_hidden pat); [done|]. by apply list_elem_of_filter in Hx as [? ?]. }
  split_and!; [|done|done]. unfold g_listdir in Hl. case_match.
  - by apply list_elem_of_filter in Hl as [_ [_ ?]%listdir_spec].
  - by apply not_elem_of_nil in Hl.
Qed.

(** When the name part of the pattern has a wildcard, every result is a
    directory [d] joined with a name [_glob1] found in [d]. *)
Lemma iglob_magic_base fuel fs cwd p b ds u :
  has_magic (path_split p).2 = true → iglob fuel fs cwd p b = Some ds → u ∈ ds →
  ∃ d name, name ∈ glob1 fs cwd d (path_split p).2 b ∧ u = d </> name.
Proof.
  intros Hb. pose proof (has_magic_split_tail p Hb) as Hp.
  destruct fuel as [|fuel]; [done|]. cbn [iglob].
  destruct (path_split p) as [dn bn]. simpl in Hb |- *. rewrite Hp, Hb. simpl.
  destruct (bool_decide (dn = "")).
  - intros [= <-] Hu. exists "", u. by rewrite path_join_nil_l.
  - case_match; [|intros [=]]. intros [= <-] (d & (name & -> & Hn)%list_elem_of_fmap & _)%list_elem_of_bind.
    eauto.
Qed.

(** Whatever the directory part of the pattern (with or without
    wildcards), every path [glob.glob] returns for a pattern whose last
    component has a wildcard and does not start with a dot ends in a
    component that the last component of the pattern matches, and that
    is not hidden. *)
Theorem glob_star_result fs cwd p u :
  has_magic (path_split p).2 = true → is_hidden (path_split p).2 = false →
  u ∈ glob fs cwd p →
  is_hidden (path_split u).2 = false ∧ fnmatch (path_split u).2 (path_split p).2 = true.
Proof.
  intros Hm Hh. unfold glob. destruct (iglob _ fs cwd p false) as [ds|] eqn:E; simpl;
    [|by intros ?%not_elem_of_nil].
  intros Hu. destruct (iglob_magic_base _ _ _ _ _ _ _ Hm E Hu) as (d & name & Hn & ->).
  apply glob1_elem in Hn as (Hs & Hf & Hhid). rewrite path_split_join_tail by done. auto.
Qed.

(** The pattern of line 88 when the working directory holds no
    wildcard: [glob.glob(os.path.join(d, "*" + sfx))], for a directory
    [d] without wildcards and a suffix without wildcards or slash, lists
    [d] when it is a directory (nothing otherwise), drops the hidden
    names, keeps those ending with [sfx], and joins each to [d]. *)
Theorem glob_star_literal fs cwd d sfx :
  d ≠ "" → str_endswith d "/" = false → has_magic d = false →
  has_magic sfx = false → str_has "/" sfx = false →
  glob fs cwd (d </> String "*" sfx) =
  (λ n, d </> n) <$>
    filter (λ n, str_endswith n sfx = true)
      (filter (λ n, is_hidden n = false)
         (if path_is_dir fs (os_resolve cwd d) then listdir fs (os_resolve cwd d) else [])).
Proof.
  intros Hd Hend Hmd Hms Hs.
  assert (path_split (d </> String "*" sfx) = (d, String "*" sfx)) as Hsplit.
  { apply path_split_join; [done|done|]. simpl. by rewrite Hs. }
  assert (has_magic (d </> String "*" sfx) = true) as Hp.
  { apply has_magic_split_tail. by rewrite Hsplit. }
  unfold glob. cbn [iglob]. rewrite Hsplit, Hp. simpl.
  rewrite bool_decide_false, Hmd, andb_false_r by done. simpl.
  rewrite app_nil_r. f_equal. unfold glob1. cbn [is_hidden str_startswith String.prefix].
  rewrite (list_filter_iff _ (λ n, str_endswith n sfx = true))
    by (intros; by rewrite fnmatch_star_suffix).
  f_equal. f_equal. unfold g_listdir. rewrite bool_decide_false by done.
  case_match; [|done]. apply list_filter_all. by left.
Qed.



End Glob.
