(* ===== verification/Executor.v ===== *)
(** * [concurrent.futures] executors running [executor.map(fn, items)]

    [main] (lines 83-84 and 87-88 of [src/main.py]) runs
    [executor.map(fn, items)] inside a [with] block.  [map] submits one
    task per item at once; the workers run the tasks concurrently; the
    exit of the [with] block calls [shutdown(wait=True)], which returns
    when every task has finished.  The iterator [map] returns is never
    consumed, so the exception a task raises is stored in its future and
    never re-raised.

    A task is anything with a local state, one atomic step on the shared
    state (the file system), a test that it has finished, and a measure
    that each step decreases: the class [Task].  A pool is the shared
    state and the list of task states; [pool_step] lets any unfinished
    task take a step, so the paths of [pool_step] are all the
    interleavings of the workers, whatever the number of workers. *)

From S2P Require Import Prelude.

Module Executor.

Class Task (St T : Type) := {
  task_step : St → T → St * T;
  task_done : T → bool;
  task_measure : T → nat;
  task_measure_dec : ∀ s t, task_done t = false →
    task_measure (task_step s t).2 < task_measure t;
}.

Section Pool.
Context {St T : Type} `{!Task St T}.

(** One worker advances one unfinished task by one step. *)
Inductive pool_step : St * list T → St * list T → Prop :=
  | pool_step_run s ts i t :
      ts !! i = Some t → task_done t = false →
      pool_step (s, ts) ((task_step s t).1, <[i := (task_step s t).2]> ts).

Definition all_done (ts : list T) : bool := forallb task_done ts.

(** The stage ends (the [with] block is left) in a state where every
    task has finished. *)
Definition stage_run (p p' : St * list T) : Prop :=
  rtc pool_step p p' ∧ all_done p'.2 = true.

Definition pool_measure (ts : list T) : nat := sum_list (map task_measure ts).

(** A scheduler: advance the first unfinished task, [n] times. *)
Fixpoint run_first (n : nat) (p : St * list T) : St * list T :=
  match n with
  | O => p
  | S n' =>
      match list_find (λ t, task_done t = false) p.2 with
      | Some (i, t) =>
          run_first n' ((task_step p.1 t).1, <[i := (task_step p.1 t).2]> p.2)
      | None => p
      end
  end.

(** A scheduler that follows a given order of task indices (a finished
    or missing task is skipped). *)
Fixpoint run_schedule (sched : list nat) (p : St * list T) : St * list T :=
  match sched with
  | [] => p
  | i :: sched' =>
      match p.2 !! i with
      | Some t =>
          if task_done t then run_schedule sched' p
          else run_schedule sched' ((task_step p.1 t).1, <[i := (task_step p.1 t).2]> p.2)
      | None => run_schedule sched' p
      end
  end.

(** ** Lemmas *)

Lemma sum_list_insert_lt (l : list nat) i x y :
  l !! i = Some y → x < y → sum_list (<[i := x]> l) < sum_list l.
Proof.
  revert i. induction l as [|z l IH]; intros [|i] Hi Hxy; simplify_eq/=; [lia|].
  specialize (IH i Hi Hxy). lia.
Qed.

Lemma pool_step_measure p p' :
  pool_step p p' → pool_measure p'.2 < pool_measure p.2.
Proof.
  intros [s ts i t Hi Hd]. unfold pool_measure. simpl.
  rewrite list_fmap_insert. apply sum_list_insert_lt with (task_measure t).
  - by rewrite list_lookup_fmap, Hi.
  - by apply task_measure_dec.
Qed.

Lemma pool_step_length p p' : pool_step p p' → length p'.2 = length p.2.
Proof. intros [s ts i t]. simpl. apply length_insert. Qed.

Lemma all_done_false ts : all_done ts = false → ∃ i t, list_find (λ t, task_done t = false) ts = Some (i, t).
Proof.
  unfold all_done. intros H. destruct (list_find _ ts) as [[i t]|] eqn:E; [eauto|].
  apply list_find_None in E. exfalso.
  assert (forallb task_done ts = true); [|congruence].
  apply forallb_forall. intros t Ht. apply list_elem_of_In in Ht.
  rewrite Forall_forall in E. specialize (E t Ht). by destruct (task_done t).
Qed.

Lemma all_done_lookup ts i t : all_done ts = true → ts !! i = Some t → task_done t = true.
Proof.
  unfold all_done. rewrite forallb_forall. intros Hall Hi.
  apply Hall, list_elem_of_In. by eapply list_elem_of_lookup_2.
Qed.

Lemma run_first_rtc n p : rtc pool_step p (run_first n p).
Proof.
  revert p. induction n as [|n IH]; intros [s ts]; simpl; [done|].
  destruct (list_find _ ts) as [[i t]|] eqn:E; [|done].
  apply list_find_Some in E as (Hi & Hd & _).
  eapply rtc_l; [by constructor|]. apply IH.
Qed.

Lemma run_schedule_rtc sched p : rtc pool_step p (run_schedule sched p).
Proof.
  revert p. induction sched as [|i sched IH]; intros [s ts]; simpl; [done|].
  destruct (ts !! i) as [t|] eqn:Hi; [|apply IH].
  destruct (task_done t) eqn:Hd; [apply IH|].
  eapply rtc_l; [by constructor|]. apply IH.
Qed.

Lemma run_first_done n p : pool_measure p.2 ≤ n → all_done (run_first n p).2 = true.
Proof.
  revert p. induction n as [|n IH]; intros [s ts] Hn; simpl.
  - destruct (all_done ts) eqn:E; [done|].
    destruct (all_done_false ts E) as (i & t & Hf).
    apply list_find_Some in Hf as (Hi & Hd & _).
    pose proof (pool_step_measure _ _ (pool_step_run s ts i t Hi Hd)). simpl in *. lia.
  - destruct (list_find _ ts) as [[i t]|] eqn:E.
    + apply list_find_Some in E as (Hi & Hd & _). apply IH.
      pose proof (pool_step_measure _ _ (pool_step_run s ts i t Hi Hd)). simpl in *. lia.
    + destruct (all_done ts) eqn:Ed; [done|].
      destruct (all_done_false ts Ed) as (i & t & Hf). congruence.
Qed.

(** ** Termination, progress and completion of a stage *)

(** The [with] block is always left: from every pool a run reaches a
    state where every task has finished. *)
Theorem stage_completes p : ∃ p', stage_run p p'.
Proof.
  exists (run_first (pool_measure p.2) p). split.
  - apply run_first_rtc.
  - by apply run_first_done.
Qed.

(** Invariants of one step hold on every run. *)
Lemma pool_invariant (I : St * list T → Prop) p p' :
  (∀ q q', I q → pool_step q q' → I q') → I p → rtc pool_step p p' → I p'.
Proof. intros Hstep Hp Hrun. induction Hrun; eauto. Qed.

(** An invariant of the shared state alone that every step of a task
    keeps holds on every run. *)
Lemma pool_state_invariant (P : St → Prop) p p' :
  (∀ s t, P s → task_done t = false → P (task_step s t).1) → P p.1 → rtc pool_step p p' → P p'.1.
Proof.
  intros Hstep Hp. apply (pool_invariant (λ q, P q.1)); [|done].
  intros q q' Hq Hs. inv Hs. simpl. by apply Hstep.
Qed.

Lemma stage_run_length p p' : stage_run p p' → length p'.2 = length p.2.
Proof.
  intros [Hrun _]. induction Hrun as [|p1 p2 p3 Hs _ IH]; [done|].
  rewrite IH. by apply pool_step_length.
Qed.

(** ** A task run by itself *)

(** [n] steps of one task with no other task interleaved. *)
Fixpoint run_alone (n : nat) (s : St) (t : T) : St * T :=
  match n with
  | O => (s, t)
  | S n' =>
      if task_done t then (s, t)
      else run_alone n' (task_step s t).1 (task_step s t).2
  end.

Lemma run_alone_enough n m s t :
  task_measure t ≤ n → task_measure t ≤ m → run_alone n s t = run_alone m s t.
Proof.
  revert m s t. induction n as [|n IH]; intros m s t Hn Hm.
  - destruct m as [|m]; simpl; [done|].
    destruct (task_done t) eqn:Hd; [done|].
    pose proof (task_measure_dec s t Hd). lia.
  - destruct m as [|m]; simpl.
    + destruct (task_done t) eqn:Hd; [done|].
      pose proof (task_measure_dec s t Hd). lia.
    + destruct (task_done t) eqn:Hd; [done|].
      pose proof (task_measure_dec s t Hd). apply IH; lia.
Qed.

(** A pool of one task has exactly one complete run: the task's steps in
    sequence until it is done. *)
Theorem stage_run_single s t s' t' :
  stage_run (s, [t]) (s', [t']) → (s', t') = run_alone (task_measure t) s t.
Proof.
  intros [Hrun Hdone]. simpl in Hdone. rewrite andb_true_r in Hdone.
  remember (s, [t]) as p eqn:Hp. remember (s', [t']) as p' eqn:Hp'.
  revert s t Hp. induction Hrun as [p|p1 p2 p3 Hs _ IH]; intros s t Hp; subst.
  - simplify_eq. destruct (task_measure t); simpl; [done|]. by rewrite Hdone.
  - inv Hs. rename select (task_done _ = false) into Hd.
    destruct i as [|i]; simplify_eq/=.
    rewrite (IH eq_refl _ _ eq_refl).
    pose proof (task_measure_dec s _ Hd).
    symmetry. match goal with |- run_alone (task_measure ?u) _ _ = _ => destruct (task_measure u) as [|m] eqn:Hm end; [lia|].
    simpl. rewrite Hd. apply run_alone_enough; lia.
Qed.

End Pool.

Arguments pool_step {_ _ _} _ _.

End Executor.
