(* ===== verification/Workers.v ===== *)
(** * The worker limit of the executors

    [Executor.pool_step] lets every submitted call take a step at any
    time.  The executors the program creates (lines 83 and 87 of
    [src/main.py]) run at most [max_workers] calls at once:
    [executor.map] puts one work item per input on a FIFO queue, and
    each worker thread ([ThreadPoolExecutor]) or process
    ([ProcessPoolExecutor]) takes the next item when it is free and runs
    it to its end.  The default [max_workers] is
    [min(32, os.cpu_count() + 4)] for threads and [os.cpu_count()] for
    processes.

    [wpool_step w] is that pool: its state is the shared state, the calls
    and the number [n] of items taken off the queue; a worker takes the
    next item when fewer than [w] taken calls are unfinished, and a taken
    unfinished call takes a step.  [wstage_run] is the stage run to its
    end.  Every run of this pool is a run of [Executor.pool_step]
    ([wstage_refines]), so what the development proves for every
    interleaving holds for the executors the program creates; and the
    pool always completes ([wstage_completes]). *)

From S2P Require Import Prelude Executor.
Import Executor.

Module Workers.

(** [ThreadPoolExecutor()]'s default [max_workers] on a machine with
    [cpu] processors: [min(32, (os.cpu_count() or 1) + 4)]. *)
Definition thread_workers (cpu : nat) : nat := Nat.min 32 (Nat.max cpu 1 + 4).

(** [ProcessPoolExecutor()]'s default [max_workers]:
    [os.cpu_count() or 1]. *)
Definition process_workers (cpu : nat) : nat := Nat.max cpu 1.

Section Bounded.
Context {St T : Type} `{!Task St T}.
(** The number of workers. *)
Context (w : nat).

(** The calls taken off the queue that have not finished. *)
Definition running (ts : list T) (n : nat) : nat :=
  length (filter (λ t, task_done t = false) (take n ts)).

(** A free worker takes the next item off the queue, or a taken call
    takes a step. *)
Inductive wpool_step : (St * list T) * nat → (St * list T) * nat → Prop :=
  | wpool_take s ts n :
      n < length ts → running ts n < w →
      wpool_step ((s, ts), n) ((s, ts), S n)
  | wpool_run s ts n i t :
      i < n → ts !! i = Some t → task_done t = false →
      wpool_step ((s, ts), n) (((task_step s t).1, <[i := (task_step s t).2]> ts), n).

(** The [with] block of an executor of [w] workers: from the submitted
    calls, none taken, until every call has finished. *)
Definition wstage_run (p p' : St * list T) : Prop :=
  ∃ n, rtc wpool_step (p, 0) (p', n) ∧ all_done p'.2 = true.

(** A schedule of the pool, for running examples: the first taken
    unfinished call steps, and a worker takes the next item when every
    taken call has finished. *)
Fixpoint wrun_first (fuel : nat) (q : (St * list T) * nat) : (St * list T) * nat :=
  match fuel with
  | 0 => q
  | S fuel' =>
      match list_find (λ t, task_done t = false) (take q.2 q.1.2) with
      | Some (i, t) =>
          wrun_first fuel' (((task_step q.1.1 t).1, <[i := (task_step q.1.1 t).2]> q.1.2), q.2)
      | None =>
          if decide (q.2 < length q.1.2 ∧ running q.1.2 q.2 < w)
          then wrun_first fuel' (q.1, S q.2) else q
      end
  end.

(** What is left to do: the steps of the calls and the items on the
    queue. *)
Definition wpool_measure (q : (St * list T) * nat) : nat :=
  pool_measure q.1.2 + (length q.1.2 - q.2).

(** ** Counting the running calls *)

(** A call that is taken and unfinished counts as running. *)
Lemma running_pos ts n :
  running ts n ≠ 0 → ∃ i t, i < n ∧ ts !! i = Some t ∧ task_done t = false.
Proof.
  unfold running. intros Hn.
  destruct (filter _ (take n ts)) as [|t l] eqn:E; [done|].
  assert (t ∈ filter (λ t, task_done t = false) (take n ts)) as Ht by (rewrite E; left).
  apply list_elem_of_filter in Ht as [Hd Ht]. apply list_elem_of_lookup in Ht as [i Hi].
  apply lookup_take_Some in Hi as [Hi Hin]. eauto.
Qed.

Lemma running_all ts : all_done ts = false → running ts (length ts) ≠ 0.
Proof.
  intros H. destruct (all_done_false ts H) as (i & t & Hf).
  apply list_find_Some in Hf as (Hi & Hd & _). unfold running. rewrite take_ge by done.
  assert (t ∈ filter (λ t, task_done t = false) ts) as Ht.
  { apply list_elem_of_filter. split; [done|]. by eapply list_elem_of_lookup_2. }
  destruct (filter _ ts); [by apply not_elem_of_nil in Ht|done].
Qed.

(** ** The bounded pool is an instance of the pool *)

Lemma wpool_step_pool q q' : wpool_step q q' → q'.1 = q.1 ∨ pool_step q.1 q'.1.
Proof. intros [|s ts n i t ? Hi Hd]; [by left|right]. by constructor. Qed.

Lemma wpool_rtc_pool q q' : rtc wpool_step q q' → rtc pool_step q.1 q'.1.
Proof.
  induction 1 as [|q q1 q' Hs _ IH]; [done|].
  destruct (wpool_step_pool q q1 Hs) as [<-|]; [done|]. by eapply rtc_l.
Qed.

Lemma wpool_step_measure q q' : wpool_step q q' → wpool_measure q' < wpool_measure q.
Proof.
  intros [s ts n Hn|s ts n i t ? Hi Hd]; unfold wpool_measure; simpl; [lia|].
  pose proof (pool_step_measure _ _ (pool_step_run s ts i t Hi Hd)) as Hm.
  simpl in Hm. rewrite length_insert. lia.
Qed.

Lemma wpool_step_taken q q' : wpool_step q q' → q.2 ≤ length q.1.2 → q'.2 ≤ length q'.1.2.
Proof. intros [|]; simpl; rewrite ?length_insert; lia. Qed.

(** With a worker, a pool with an unfinished call can take a step. *)
Lemma wpool_progress s ts n :
  0 < w → n ≤ length ts → all_done ts = false → ∃ q', wpool_step ((s, ts), n) q'.
Proof.
  intros Hw Hn Hd. destruct (decide (running ts n = 0)) as [H0|H0].
  - destruct (decide (n = length ts)) as [->|]; [by apply running_all in Hd|].
    eexists. apply wpool_take; lia.
  - destruct (running_pos ts n H0) as (i & t & Hin & Hi & Ht).
    eexists. by eapply wpool_run.
Qed.

Lemma wpool_completes_from q :
  0 < w → q.2 ≤ length q.1.2 → ∃ q', rtc wpool_step q q' ∧ all_done q'.1.2 = true.
Proof.
  intros Hw. induction q as [q IH] using (induction_ltof1 _ wpool_measure).
  unfold ltof in IH. intros Hn. destruct (all_done q.1.2) eqn:Hd; [by exists q|].
  destruct q as [[s ts] n]. destruct (wpool_progress s ts n Hw Hn Hd) as [q1 Hs].
  destruct (IH q1) as (q' & Hrun & Hdone).
  - by apply wpool_step_measure.
  - by apply (wpool_step_taken _ _ Hs).
  - exists q'. split; [by eapply rtc_l|done].
Qed.

Lemma wrun_first_rtc fuel q : rtc wpool_step q (wrun_first fuel q).
Proof.
  revert q. induction fuel as [|fuel IH]; intros [[s ts] n]; simpl; [done|].
  destruct (list_find _ (take n ts)) as [[i t]|] eqn:E.
  - apply list_find_Some in E as (Hi & Hd & _). apply lookup_take_Some in Hi as [Hi Hin].
    eapply rtc_l; [by eapply wpool_run|]. apply IH.
  - case_decide as Hc; [|done]. destruct Hc.
    eapply rtc_l; [by apply wpool_take|]. apply IH.
Qed.

(** ** Refinement, completion and the worker limit *)

(** Every run of the [with] block of an executor of [w] workers is a
    run of [Executor.stage_run]. *)
Lemma wstage_refines p p' : wstage_run p p' → stage_run p p'.
Proof.
  intros (n & Hrun & Hdone). split; [|done].
  by apply (wpool_rtc_pool _ _ Hrun).
Qed.

(** An executor with at least one worker always leaves its [with]
    block. *)
Lemma wstage_completes p : 0 < w → ∃ p', wstage_run p p'.
Proof.
  intros Hw. destruct (wpool_completes_from (p, 0) Hw) as ([p' n] & Hrun & Hdone); [simpl; lia|].
  exists p'. by exists n.
Qed.

End Bounded.

Lemma thread_workers_pos cpu : 0 < thread_workers cpu.
Proof. unfold thread_workers. lia. Qed.

Lemma process_workers_pos cpu : 0 < process_workers cpu.
Proof. unfold process_workers. lia. Qed.

End Workers.
