(* ===== verification/CreateFolder.v ===== *)
(** * [create_folder] called by concurrent workers

    [create_folder(folder_path)] (lines 37-43 of [src/main.py]) is
    [Path(p).mkdir(parents=True, exist_ok=True)].  [FileSys.path_mkdir]
    runs it as one atomic step; here it runs as a worker of an
    [Executor] pool whose atomic steps are the system calls CPython's
    [Path.mkdir] makes, [os.mkdir(self)] and the [self.is_dir()] test of
    its [except OSError] clause:
<<
    def mkdir(self, mode=0o777, parents=False, exist_ok=False):
        try:
            os.mkdir(self, mode)
        except FileNotFoundError:
            if not parents or self.parent == self:
                raise
            self.parent.mkdir(parents=True, exist_ok=True)
            self.mkdir(mode, parents=False, exist_ok=exist_ok)
        except OSError:
            if not exist_ok or not self.is_dir():
                raise
>>
    A worker's state is the stack of the [mkdir] calls it is in: a frame
    [MkCall q parents exist_ok] is about to call [os.mkdir(q)], a frame
    [MkIsDir q e] is in the [except OSError] clause with the exception
    [e], about to call [self.is_dir()].  The recursive call on
    [self.parent] pushes its frame above the frame of the retry
    [self.mkdir(parents=False)].  An exception raised inside the
    [except FileNotFoundError] clause is not caught by the [except
    OSError] clause of the same [try], so every exception ends the
    worker.

    The program calls [create_folder] twice, one call after the other;
    the specification asks that the call be safe to race (section 5:
    concurrent calls on the same path never fail and leave exactly one
    directory).  [create_folder_race] shows it for any number of
    concurrent calls on any paths: every interleaving completes, every
    call returns normally, and the file system ends with every prefix of
    every path a directory and every other entry unchanged. *)

From S2P Require Import Prelude PyStr FileSys Executor.

Module CreateFolder.
Import PyStr FileSys Executor.

Inductive mk_frame :=
  | MkCall (q : list string) (parents exist_ok : bool)
  | MkIsDir (q : list string) (e : exc).

Inductive mk_task :=
  | MkRun (k : list mk_frame)
  | MkDone (r : res unit).

(** A frame returns to the frame below it; the last one ends the call. *)
Definition mk_return (k : list mk_frame) : mk_task :=
  match k with [] => MkDone (Ok ()) | _ => MkRun k end.

(** One system call of a worker. *)
Definition mk_step (fs : FS) (t : mk_task) : FS * mk_task :=
  match t with
  | MkRun (MkCall q parents exist_ok :: k) =>
      match os_mkdir q fs with
      | (Ok _, fs') => (fs', mk_return k)
      | (Raise FileNotFoundError, fs') =>
          match q with
          | [] => (fs', MkDone (Raise FileNotFoundError))
          | _ =>
              if parents
              then (fs', MkRun (MkCall (removelast q) true true :: MkCall q false exist_ok :: k))
              else (fs', MkDone (Raise FileNotFoundError))
          end
      | (Raise e, fs') =>
          if exist_ok then (fs', MkRun (MkIsDir q e :: k)) else (fs', MkDone (Raise e))
      end
  | MkRun (MkIsDir q e :: k) =>
      if path_is_dir fs q then (fs, mk_return k) else (fs, MkDone (Raise e))
  | MkRun [] => (fs, MkDone (Ok ()))
  | MkDone _ => (fs, t)
  end.

(** [create_folder(folder_path)] for the resolved path [q]. *)
Definition create_folder_task (q : list string) : mk_task := MkRun [MkCall q true true].

Definition mk_done (t : mk_task) : bool :=
  match t with MkDone _ => true | MkRun _ => false end.

(** A call with [parents=True] may push two frames: it weighs more than
    both. *)
Definition frame_measure (f : mk_frame) : nat :=
  match f with
  | MkCall q true _ => 3 * length q + 3
  | MkCall _ false _ => 2
  | MkIsDir _ _ => 1
  end.

Definition mk_measure (t : mk_task) : nat :=
  match t with
  | MkRun k => S (sum_list (map frame_measure k))
  | MkDone _ => 0
  end.

Lemma mk_return_measure k : mk_measure (mk_return k) ≤ S (sum_list (map frame_measure k)).
Proof. destruct k; simpl; lia. Qed.

Lemma length_removelast_cons {A} (x : A) l : length (removelast (x :: l)) = length l.
Proof.
  destruct l as [|y l] using rev_ind; [done|].
  rewrite app_comm_cons, removelast_last. simpl. rewrite length_app. simpl. lia.
Qed.

Lemma mk_measure_dec fs t : mk_done t = false → mk_measure (mk_step fs t).2 < mk_measure t.
Proof.
  destruct t as [[|[q parents eo|q e] k]|r]; simpl; try done; intros _; [lia| |].
  - pose proof (mk_return_measure k).
    destruct (os_mkdir q fs) as [[[]|[]] fs'], parents, eo, q; cbn -[removelast];
      rewrite ?length_removelast_cons; lia.
  - pose proof (mk_return_measure k). destruct (path_is_dir fs q); simpl; lia.
Qed.

#[export] Instance mk_task_Task : Task FS mk_task := {|
  task_step := mk_step;
  task_done := mk_done;
  task_measure := mk_measure;
  task_measure_dec := mk_measure_dec;
|}.

(** ** The state of a worker *)

(** Directories are never removed: every directory of [fs] is one of
    [fs']. *)
Definition dirs_grow (fs fs' : FS) : Prop := ∀ q, fs !! q = Some IDir → fs' !! q = Some IDir.

(** The retries [self.mkdir(parents=False, exist_ok=True)] pending below
    the call on the prefix of length [j] of [p]. *)
Definition retries (p : list string) (j : nat) : list mk_frame :=
  map (λ i, MkCall (take i p) false true) (seq (S j) (length p - j)).

(** The frame on top of the stack, at the prefix of length [j]: a call
    with [parents=False] runs only once the parent exists; the [is_dir]
    test runs only on a directory. *)
Definition top_ok (fs : FS) (p : list string) (j : nat) (f : mk_frame) : Prop :=
  match f with
  | MkCall q parents eo =>
      q = take j p ∧ eo = true ∧ (parents = true ∨ check_dirs fs [] (removelast q) = Ok ())
  | MkIsDir q _ => q = take j p ∧ path_is_dir fs q = true
  end.

(** A worker of [create_folder(p)] has returned normally with [p] a
    directory, or its stack is a frame on a prefix of [p] above the
    retries of the longer prefixes. *)
Definition task_ok (fs : FS) (p : list string) (t : mk_task) : Prop :=
  match t with
  | MkDone r => r = Ok () ∧ path_is_dir fs p = true
  | MkRun k => ∃ j f, k = f :: retries p j ∧ j ≤ length p ∧ top_ok fs p j f
  end.

Lemma check_dirs_grow fs fs' r :
  dirs_grow fs fs' → check_dirs fs [] r = Ok () → check_dirs fs' [] r = Ok ().
Proof. rewrite !check_dirs_ok. intros Hg H k Hk. by apply Hg, H. Qed.

Lemma path_is_dir_grow fs fs' q :
  dirs_grow fs fs' → path_is_dir fs q = true → path_is_dir fs' q = true.
Proof.
  unfold path_is_dir. intros Hg. destruct (check_dirs fs [] q) as [[]|] eqn:Hc; [|done].
  by rewrite (check_dirs_grow fs fs' q Hg Hc).
Qed.

Lemma task_ok_grow fs fs' p t : dirs_grow fs fs' → task_ok fs p t → task_ok fs' p t.
Proof.
  intros Hg. destruct t as [k|r]; simpl.
  - intros (j & f & -> & Hj & Htop). exists j, f. split_and!; [done..|].
    destruct f; simpl in *; naive_solver eauto using check_dirs_grow, path_is_dir_grow.
  - intros [-> Hd]. eauto using path_is_dir_grow.
Qed.

Lemma removelast_take_S (p : list string) j : j < length p → removelast (take (S j) p) = take j p.
Proof.
  intros Hj. destruct (lookup_lt_is_Some_2 p j Hj) as [x Hx].
  by rewrite (take_S_r p j x Hx), removelast_last.
Qed.

Lemma path_is_dir_parent fs q :
  q ≠ [] → check_dirs fs [] (removelast q) = Ok () → fs !! q = Some IDir → path_is_dir fs q = true.
Proof.
  destruct q as [|x q _] using rev_ind; [done|]. rewrite removelast_last.
  intros _. apply path_is_dir_snoc.
Qed.

(** When the frame on the prefix of length [j] returns with that prefix
    a directory, the next retry may run, or the call returns. *)
Lemma retries_pop fs p j :
  j ≤ length p → path_is_dir fs (take j p) = true → task_ok fs p (mk_return (retries p j)).
Proof.
  intros Hj Hd. unfold retries. destruct (decide (j = length p)) as [->|Hne].
  - rewrite Nat.sub_diag. simpl. rewrite firstn_all in Hd. done.
  - replace (length p - j) with (S (length p - S j)) by lia. simpl.
    exists (S j), (MkCall (take (S j) p) false true). split_and!; [done|lia|].
    simpl. split_and!; [done|done|right].
    rewrite removelast_take_S by lia. unfold path_is_dir in Hd.
    by destruct (check_dirs fs [] (take j p)) as [[]|].
Qed.

#[export] Instance dirs_grow_preorder : PreOrder dirs_grow.
Proof. split; [by intros fs q|intros fs1 fs2 fs3 H12 H23 q Hq; by apply H23, H12]. Qed.

Lemma dirs_grow_insert fs q : fs !! q = None → dirs_grow fs (<[q := IDir]> fs).
Proof. intros Hq q' Hq'. rewrite lookup_insert_ne; [done|]. by intros ->; rewrite Hq in Hq'. Qed.

(** ** Concurrent calls *)

Section Race.
(** The file system before the calls and the resolved paths of the
    calls, one per worker. *)
Context (fs0 : FS) (ps : list (list string)).

(** No prefix of a path is a regular file, and the entries that are no
    prefix of a path are those of [fs0]. *)
Definition race_fs_inv (fs : FS) : Prop :=
  (∀ p k c, p ∈ ps → 0 < k ≤ length p → fs !! take k p ≠ Some (IFile c)) ∧
  (∀ q, (∀ p k, p ∈ ps → 0 < k ≤ length p → q ≠ take k p) → fs !! q = fs0 !! q).

(** [os.mkdir] of a prefix of a path: it creates the prefix, raises
    [FileExistsError] on a directory, or raises [FileNotFoundError] when
    the parent is missing. *)
Lemma os_mkdir_take fs p j :
  race_fs_inv fs → p ∈ ps → j ≤ length p →
  (0 < j ∧ fs !! take j p = None ∧ check_dirs fs [] (removelast (take j p)) = Ok () ∧
     os_mkdir (take j p) fs = (Ok (), <[take j p := IDir]> fs)) ∨
  (os_mkdir (take j p) fs = (Raise FileExistsError, fs) ∧ path_is_dir fs (take j p) = true) ∨
  (0 < j ∧ os_mkdir (take j p) fs = (Raise FileNotFoundError, fs) ∧
     check_dirs fs [] (removelast (take j p)) ≠ Ok ()).
Proof.
  intros [Hnf _] Hp Hj. destruct j as [|j]; [by right; left|].
  destruct (lookup_lt_is_Some_2 p j ltac:(lia)) as [x Hx].
  rewrite (take_S_r p j x Hx), os_mkdir_snoc, removelast_last.
  destruct (check_dirs fs [] (take j p)) as [[]|e] eqn:Hc.
  - destruct (fs !! (take j p ++ [x])) as [[|c]|] eqn:Hq.
    + right; left. split; [done|]. by apply path_is_dir_snoc.
    + exfalso. apply (Hnf p (S j) c Hp ltac:(lia)). by rewrite (take_S_r p j x Hx).
    + left. split_and!; [lia|done..].
  - destruct (check_dirs_error _ _ _ _ Hc) as [(-> & _)|(-> & k & c & Hk & Hf)].
    { right; right. split_and!; [lia|done|by intros ?; congruence]. }
    exfalso. rewrite length_take in Hk. simpl in Hf. rewrite take_take, Nat.min_l in Hf by lia.
    apply (Hnf p k c Hp ltac:(lia) Hf).
Qed.

(** One system call of a worker keeps the invariant of the file system,
    only adds directories, and keeps the worker's invariant. *)
Lemma mk_step_ok fs p t :
  race_fs_inv fs → p ∈ ps → task_ok fs p t → mk_done t = false →
  race_fs_inv (mk_step fs t).1 ∧ dirs_grow fs (mk_step fs t).1 ∧ task_ok (mk_step fs t).1 p (mk_step fs t).2.
Proof.
  intros Hinv Hp Ht Hd. destruct t as [k|r]; [|done].
  destruct Ht as (j & [q parents eo|q e] & -> & Hj & Htop); simpl in Htop.
  - destruct Htop as (-> & -> & Hpar).
    destruct (os_mkdir_take fs p j Hinv Hp Hj)
      as [(Hj0 & Hn & Hc & Hmk)|[(Hmk & Hdir)|(Hj0 & Hmk & Hc)]]; cbn [mk_step]; rewrite Hmk;
      cbn [fst snd].
    + assert (dirs_grow fs (<[take j p := IDir]> fs)) as Hg by by apply dirs_grow_insert.
      split_and!; [|done|].
      * destruct Hinv as [Hnf Hfr]. split.
        -- intros p' k c Hp' Hk. rewrite lookup_insert. case_decide; [done|]. by apply Hnf.
        -- intros q' Hq'. rewrite lookup_insert_ne; [by apply Hfr|].
           intros <-. apply (Hq' p j Hp). lia. done.
      * apply retries_pop; [done|]. apply path_is_dir_parent.
        -- intros Hnil. apply (f_equal length) in Hnil. rewrite length_take in Hnil. simpl in Hnil. lia.
        -- by apply (check_dirs_grow fs).
        -- by rewrite lookup_insert_eq.
    + split_and!; [done|done|]. exists j, (MkIsDir (take j p) FileExistsError). done.
    + destruct (take j p) as [|y ys] eqn:Htj.
      { apply (f_equal length) in Htj. rewrite length_take in Htj. simpl in Htj. lia. }
      destruct Hpar as [->|Hpar]; [|done]. rewrite <-Htj.
      split_and!; [done|done|].
      exists (j - 1), (MkCall (take (j - 1) p) true true).
      split_and!; [|lia|simpl; naive_solver].
      replace j with (S (j - 1)) at 1 2 by lia. rewrite removelast_take_S by lia.
      unfold retries. replace (length p - (j - 1)) with (S (length p - j)) by lia.
      replace (S (j - 1)) with j by lia. done.
  - destruct Htop as [-> Hdir]. cbn [mk_step]. rewrite Hdir.
    split_and!; [done|done|]. by apply retries_pop.
Qed.

(** The pool: the file system satisfies [race_fs_inv], and the worker
    of each path satisfies [task_ok]. *)
Definition race_inv (st : FS * list mk_task) : Prop :=
  race_fs_inv st.1 ∧ length st.2 = length ps ∧
  ∀ i p t, ps !! i = Some p → st.2 !! i = Some t → task_ok st.1 p t.

Lemma race_inv_step st st' :
  race_inv st → @Executor.pool_step FS mk_task mk_task_Task st st' → race_inv st'.
Proof.
  intros (Hfs & Hlen & Hts) Hs. inv Hs. simpl in *.
  rename select (ts !! i = Some t) into Hi. rename select (mk_done t = false) into Hd.
  destruct (lookup_lt_is_Some_2 ps i) as [p Hp].
  { rewrite <-Hlen. by eapply lookup_lt_Some. }
  destruct (mk_step_ok s p t Hfs (list_elem_of_lookup_2 _ _ _ Hp) (Hts _ _ _ Hp Hi) Hd)
    as (Hfs' & Hg & Ht').
  unfold race_inv. cbn [fst snd]. split_and!; [done|by rewrite length_insert|].
  intros j pj tj Hpj Htj. destruct (decide (i = j)) as [<-|Hij].
  - rewrite list_lookup_insert_eq in Htj by (by eapply lookup_lt_Some). simplify_eq. done.
  - rewrite list_lookup_insert_ne in Htj by done. by eapply task_ok_grow, Hts.
Qed.

Lemma race_inv_init :
  (∀ p k c, p ∈ ps → 0 < k ≤ length p → fs0 !! take k p ≠ Some (IFile c)) →
  race_inv (fs0, map create_folder_task ps).
Proof.
  intros Hnf. unfold race_inv, race_fs_inv. cbn [fst snd].
  split_and!; [done|done|by rewrite length_map|].
  intros i p t Hp Ht. rewrite list_lookup_fmap, Hp in Ht. injection Ht as <-.
  cbn [task_ok create_folder_task]. exists (length p), (MkCall p true true).
  unfold retries. rewrite Nat.sub_diag. split_and!; [done|lia|]. cbn [top_ok]. split_and!; [by rewrite firstn_all|done|by left].
Qed.

(** C8: [create_folder] is safe to race: when any number of workers call
    [Path(p).mkdir(parents=True, exist_ok=True)] concurrently, on the
    same path or on different ones, and no prefix of a path is a regular
    file, some interleaving of their system calls completes, and every
    interleaving that completes has every call return normally, every
    prefix of every path a directory (one directory per path, however
    many calls made it), and every other entry as it was. *)
Theorem create_folder_race :
  (∀ p k c, p ∈ ps → 0 < k ≤ length p → fs0 !! take k p ≠ Some (IFile c)) →
  (∃ st, @Executor.stage_run FS mk_task mk_task_Task (fs0, map create_folder_task ps) st) ∧
  ∀ fs' ts', @Executor.stage_run FS mk_task mk_task_Task (fs0, map create_folder_task ps) (fs', ts') →
    Forall (λ t, t = MkDone (Ok ())) ts' ∧
    (∀ p k, p ∈ ps → 0 < k ≤ length p → fs' !! take k p = Some IDir) ∧
    (∀ q, (∀ p k, p ∈ ps → 0 < k ≤ length p → q ≠ take k p) → fs' !! q = fs0 !! q).
Proof.
  intros Hnf. split; [apply Executor.stage_completes|]. intros fs' ts' [Hrun Hall].
  destruct (Executor.pool_invariant race_inv _ _ race_inv_step (race_inv_init Hnf) Hrun)
    as ((_ & Hfr) & Hlen & Hts). simpl in *.
  assert (∀ i p, ps !! i = Some p → ts' !! i = Some (MkDone (Ok ())) ∧ path_is_dir fs' p = true)
    as Hdone.
  { intros i p Hp. destruct (lookup_lt_is_Some_2 ts' i) as [t Ht].
    { rewrite Hlen. by eapply lookup_lt_Some. }
    pose proof (Hts _ _ _ Hp Ht) as Hok. pose proof (Executor.all_done_lookup _ _ _ Hall Ht) as Hd.
    destruct t as [|r]; [done|]. destruct Hok as [-> Hdir]. done. }
  split_and!; [|intros p k Hp Hk|done].
  - apply Forall_lookup. intros i t Ht.
    destruct (lookup_lt_is_Some_2 ps i) as [p Hp]; [rewrite <-Hlen; by eapply lookup_lt_Some|].
    destruct (Hdone i p Hp) as [Ht' _]. congruence.
  - apply list_elem_of_lookup_1 in Hp as [i Hp].
    by apply (path_is_dir_prefixes _ _ (proj2 (Hdone i p Hp))).
Qed.

End Race.

(** ** One worker by itself *)

(** A worker run to its end with no other worker interleaved. *)
Definition finish (fs : FS) (t : mk_task) : FS * mk_task :=
  Executor.run_alone (mk_measure t) fs t.

(** The outcome a finished worker's future holds. *)
Definition mk_result (t : mk_task) : res unit :=
  match t with MkDone r => r | MkRun _ => Ok () end.

Lemma finish_done fs r : finish fs (MkDone r) = (fs, MkDone r).
Proof. done. Qed.

Lemma finish_step fs k :
  finish fs (MkRun k) = finish (mk_step fs (MkRun k)).1 (mk_step fs (MkRun k)).2.
Proof.
  unfold finish. cbn [mk_measure Executor.run_alone task_done mk_task_Task mk_done].
  apply Executor.run_alone_enough; [|done].
  pose proof (mk_measure_dec fs (MkRun k) eq_refl). simpl in *. lia.
Qed.

Lemma mkdir_rev_unfold rp parents eo fs :
  mkdir_rev rp parents eo fs =
  match os_mkdir (reverse rp) fs with
  | (Ok _, fs') => (Ok (), fs')
  | (Raise FileNotFoundError, fs') =>
      match rp with
      | [] => (Raise FileNotFoundError, fs')
      | _ :: rp' =>
          if parents
          then (mkdir_rev rp' true true ;;; mkdir_once (reverse rp) eo) fs'
          else (Raise FileNotFoundError, fs')
      end
  | (Raise e, fs') =>
      if eo && path_is_dir fs' (reverse rp) then (Ok (), fs') else (Raise e, fs')
  end.
Proof. by destruct rp. Qed.

(** A frame with [parents=False] runs [FileSys.mkdir_once]. *)
Lemma finish_once q eo k fs :
  finish fs (MkRun (MkCall q false eo :: k)) =
  match mkdir_once q eo fs with
  | (Ok _, fs') => finish fs' (mk_return k)
  | (Raise e, fs') => (fs', MkDone (Raise e))
  end.
Proof.
  rewrite finish_step. unfold mkdir_once. cbn [mk_step fst snd].
  destruct (os_mkdir q fs) as [[[]|[]] fs1]; cbn [fst snd];
    try (destruct q; reflexivity);
    destruct eo; cbn [fst snd andb]; try reflexivity;
    rewrite finish_step; cbn [mk_step fst snd]; by destruct (path_is_dir fs1 q).
Qed.

(** A frame [Path(q).mkdir(parents, exist_ok)] runs
    [FileSys.mkdir_rev] on the reversed components of [q], then the
    frames below it. *)
Lemma finish_call rp parents eo k fs :
  finish fs (MkRun (MkCall (reverse rp) parents eo :: k)) =
  match mkdir_rev rp parents eo fs with
  | (Ok _, fs') => finish fs' (mk_return k)
  | (Raise e, fs') => (fs', MkDone (Raise e))
  end.
Proof.
  revert parents eo k fs. induction rp as [|x rp IH]; intros parents eo k fs;
    rewrite finish_step, mkdir_rev_unfold; cbn [mk_step fst snd];
    destruct (os_mkdir (reverse _) fs) as [[[]|[]] fs1]; cbn [fst snd]; try reflexivity;
    try (destruct eo; cbn [fst snd andb]; try reflexivity;
         rewrite finish_step; cbn [mk_step fst snd]; by destruct (path_is_dir fs1 _)).
  rewrite reverse_cons. destruct (reverse rp ++ [x]) as [|y ys] eqn:E; [by destruct (reverse rp)|].
  cbn [fst snd]. rewrite <-E. destruct parents; cbn [fst snd]; [|done].
  rewrite removelast_last, IH. unfold st_bind.
  destruct (mkdir_rev rp true true fs1) as [[[]|e] fs2]; [|done].
  cbn [mk_return]. apply finish_once.
Qed.

(** C9: The worker refines the atomic model: [create_folder(p)] run by
    one worker with nothing interleaved ends in the file system and with
    the outcome of [FileSys.path_mkdir p True True], the model [main]
    uses for its two calls. *)
Theorem create_folder_task_refines p fs fs' t' :
  @Executor.stage_run FS mk_task mk_task_Task (fs, [create_folder_task p]) (fs', [t']) →
  path_mkdir p true true fs = (mk_result t', fs').
Proof.
  intros Hrun. apply Executor.stage_run_single in Hrun.
  change (Executor.run_alone _ fs (create_folder_task p)) with (finish fs (create_folder_task p)) in Hrun.
  unfold create_folder_task, path_mkdir in *.
  rewrite <-(reverse_involutive p) in Hrun. rewrite finish_call in Hrun.
  destruct (mkdir_rev (reverse p) true true fs) as [[[]|e] fs1]; cbn [mk_return] in Hrun;
    rewrite ?finish_done in Hrun; by simplify_eq.
Qed.

(** ** Concrete runs *)

(** Three workers call [create_folder(PROCESSED_FOLDER)] at once. *)
Lemma create_folder_race_witness :
  let ps := [processed_path; processed_path; processed_path] in
  (∃ st, @Executor.stage_run FS mk_task mk_task_Task (home_fs, map create_folder_task ps) st) ∧
  ∀ fs' ts', @Executor.stage_run FS mk_task mk_task_Task (home_fs, map create_folder_task ps) (fs', ts') →
    Forall (λ t, t = MkDone (Ok ())) ts' ∧
    (∀ p k, p ∈ ps → 0 < k ≤ length p → fs' !! take k p = Some IDir) ∧
    (∀ q, (∀ p k, p ∈ ps → 0 < k ≤ length p → q ≠ take k p) → fs' !! q = home_fs !! q).
Proof.
  intros ps. apply (create_folder_race home_fs ps). intros p k c Hp.
  assert (p = processed_path) as ->.
  { unfold ps in Hp. repeat (apply elem_of_cons in Hp as [->|Hp]; [done|]).
    by apply not_elem_of_nil in Hp. }
  apply home_fs_no_file.
Defined.

(** One worker alone, scheduled to its end. *)
Definition demo_mk_run : FS * list mk_task :=
  @Executor.run_first _ _ mk_task_Task 20 (home_fs, [create_folder_task processed_path]).

Lemma demo_mk_tasks : demo_mk_run.2 = [MkDone (Ok ())].
Proof. vm_compute. reflexivity. Qed.

Lemma create_folder_task_refines_witness :
  path_mkdir processed_path true true home_fs = (Ok (), demo_mk_run.1).
Proof.
  apply (create_folder_task_refines processed_path home_fs demo_mk_run.1 (MkDone (Ok ()))).
  rewrite <-demo_mk_tasks, <-surjective_pairing.
  split; [apply Executor.run_first_rtc|vm_compute; reflexivity].
Defined.

End CreateFolder.
