(* ===== verification/Fetcher.v ===== *)
(** * The fetcher: [download_image] (lines 47-59 of [src/main.py])

<<
    img_name = image_url.split("/")[-1].split("?")[0] + ".jpg"
    img_content = requests.get(image_url).content
    with open(os.path.join(IMAGE_FOLDER, img_name), "wb") as img_file:
        img_file.write(img_content)
>>
    The network is the interface [Http]: [requests.get] returns a
    response (its status code and body) or raises.  The same URL gets
    the same response during a run (the remote content does not change).

    [download_image] is modelled twice: as a sequential computation on
    the file system ([download_image]), and as the task a thread of the
    [ThreadPoolExecutor] runs ([dl_task], [dl_step]), whose steps are the
    points where other threads can interleave: the request, the
    [open(..., "wb")] that truncates the file, and the [write]. *)

From S2P Require Import Prelude PyStr PyPath FileSys Executor.
Import PyStr PyPath FileSys Executor.

Module Fetcher.

(** The part of a [requests.Response] the program reads. *)
Record response := mk_response {
  status_code : Z;
  content : list byte;
}.

(** [requests.get(url)]: a response or an exception.  The program passes
    no [timeout], so a real request can block forever; the class answers
    every request, so the theorems that a stage completes hold for a
    network that answers (with a response or an error). *)
Class Http := {
  requests_get : string → res response;
}.

(** Line 53: [image_url.split("/")[-1].split("?")[0] + ".jpg"]. *)
Definition img_name (image_url : string) : res string :=
  seg ← py_getitem (str_split "/" image_url) (-1);
  base ← py_getitem (str_split "?" seg) 0;
  mret (base +:+ ".jpg").

Section Download.
Context `{!Http}.
(** [cwd] is [os.getcwd()] as components; [folder] is [IMAGE_FOLDER]. *)
Context (cwd : list string) (folder : string).

Definition target (name : string) : list string := os_resolve cwd (folder </> name).

(** [download_image(image_url)], run by itself. *)
Definition download_image (image_url : string) : stm FS unit :=
  name <- st_lift (img_name image_url) ;;
  r <- st_lift (requests_get image_url) ;;
  open_wb (target name) ;;;
  _ <- write_at (target name) 0 (content r) ;;
  st_ret ().

(** The state of the thread running [download_image(image_url)]. *)
Inductive dl_task :=
  | DlStart (image_url : string)
  | DlFetched (name : string) (body : list byte)
  | DlOpened (path : list string) (body : list byte)
  | DlClosed (path : list string)
  | DlFailed (e : exc).

(** One atomic step of the thread; a raised exception ends it in
    [DlFailed], where the future keeps it. *)
Definition dl_step (fs : FS) (t : dl_task) : FS * dl_task :=
  match t with
  | DlStart url =>
      match img_name url with
      | Raise e => (fs, DlFailed e)
      | Ok name =>
          match requests_get url with
          | Raise e => (fs, DlFailed e)
          | Ok r => (fs, DlFetched name (content r))
          end
      end
  | DlFetched name body =>
      match open_wb (target name) fs with
      | (Ok _, fs') => (fs', DlOpened (target name) body)
      | (Raise e, fs') => (fs', DlFailed e)
      end
  | DlOpened p body => ((write_at p 0 body fs).2, DlClosed p)
  | DlClosed _ | DlFailed _ => (fs, t)
  end.

Definition dl_done (t : dl_task) : bool :=
  match t with DlClosed _ | DlFailed _ => true | _ => false end.

Definition dl_measure (t : dl_task) : nat :=
  match t with
  | DlStart _ => 3 | DlFetched _ _ => 2 | DlOpened _ _ => 1
  | DlClosed _ | DlFailed _ => 0
  end.

Lemma dl_measure_dec fs t : dl_done t = false → dl_measure (dl_step fs t).2 < dl_measure t.
Proof.
  destruct t; simpl; try done; intros _.
  - destruct (img_name _); [destruct (requests_get _)|]; simpl; lia.
  - destruct (open_wb _ _) as [[]]; simpl; lia.
  - lia.
Qed.

#[export] Instance dl_task_Task : Task FS dl_task := {|
  task_step := dl_step;
  task_done := dl_done;
  task_measure := dl_measure;
  task_measure_dec := dl_measure_dec;
|}.

(** A step of a thread keeps the tree invariant of the file system. *)
Lemma dl_step_wf fs t : fs_wf fs → fs_wf (dl_step fs t).1.
Proof.
  intros Hwf. destruct t as [u|n body|p body|p|e]; simpl; try done.
  - by repeat case_match.
  - pose proof (open_wb_wf (target n) fs Hwf). by destruct (open_wb _ _) as [[]].
  - by apply write_at_wf.
Qed.

End Download.

(** The download stage (lines 83-84): the pool of the threads of
    [download_image], which depend on [cwd] and [IMAGE_FOLDER]. *)
Definition dl_pool_step (cwd : list string) (folder : string) `{!Http} :=
  @Executor.pool_step FS dl_task (dl_task_Task cwd folder).
Definition dl_stage (cwd : list string) (folder : string) `{!Http} :=
  @Executor.stage_run FS dl_task (dl_task_Task cwd folder).

Lemma dl_stage_wf (cwd : list string) (folder : string) `{!Http} fs ts fs' ts' :
  dl_stage cwd folder (fs, ts) (fs', ts') → fs_wf fs → fs_wf fs'.
Proof.
  intros [Hrun _] Hwf.
  exact (@Executor.pool_state_invariant _ _ (dl_task_Task cwd folder) fs_wf (fs, ts) (fs', ts')
           (λ s t Hs _, dl_step_wf cwd folder s t Hs) Hwf Hrun).
Qed.

(** ** The derived file name *)

Lemma img_name_shape url :
  ∃ base, img_name url = Ok (base +:+ ".jpg") ∧
          str_has "/" base = false ∧ str_has "?" base = false.
Proof.
  unfold img_name.
  destruct (py_getitem_ends_ok (str_split "/" url) (str_split_nonempty _ _))
    as [_ [seg Hseg]].
  rewrite Hseg. simpl.
  destruct (py_getitem_ends_ok (str_split "?" seg) (str_split_nonempty _ _))
    as [[base Hbase] _].
  rewrite Hbase. simpl. exists base. split; [done|].
  apply py_getitem_elem in Hseg, Hbase.
  pose proof (str_split_pieces "/" url) as Hs. rewrite Forall_forall in Hs.
  specialize (Hs seg Hseg).
  pose proof (str_split_pieces "?" seg) as Hq. rewrite Forall_forall in Hq.
  pose proof (str_split_pieces_other "?" "/" seg Hs) as Hq'. rewrite Forall_forall in Hq'.
  eauto.
Qed.

(** C23: The file name is the last [/]-separated segment of the URL, cut at
    its first [?], with [.jpg] appended. *)
Theorem img_name_query q base rest :
  str_has "/" base = false → str_has "?" base = false → str_has "/" rest = false →
  img_name (q +:+ String "/" (base +:+ String "?" rest)) = Ok (base +:+ ".jpg").
Proof.
  intros Hb Hq Hr. unfold img_name.
  rewrite str_split_last by (rewrite str_has_app; simpl; by rewrite Hb, Hr).
  simpl. by rewrite str_split_first.
Qed.

Lemma img_name_no_query q base :
  str_has "/" base = false → str_has "?" base = false →
  img_name (q +:+ String "/" base) = Ok (base +:+ ".jpg").
Proof.
  intros Hb Hq. unfold img_name. rewrite str_split_last by done. simpl.
  by rewrite (proj1 (str_split_single "?" base Hq)).
Qed.

Lemma img_name_is_name url n : img_name url = Ok n → is_name n.
Proof.
  destruct (img_name_shape url) as (base & -> & Hs & _). intros [= <-].
  split_and!.
  - rewrite str_has_app, Hs. done.
  - by destruct base.
  - intros Hdot. apply (f_equal String.length) in Hdot.
    rewrite str_length_app in Hdot. simpl in Hdot. lia.
Qed.

Example img_name_unsplash :
  img_name "https://images.unsplash.com/photo-1635088173181-673ff547a555"
  = Ok "photo-1635088173181-673ff547a555.jpg".
Proof. vm_compute. reflexivity. Qed.

Example img_name_query_example :
  img_name "https://example.com/foo/bar-123?w=800&h=600" = Ok "bar-123.jpg".
Proof. vm_compute. reflexivity. Qed.

(** The scenario of the specification names the file of
    [https://example.com/photo-abc?x=1] [abc.jpg]; the code keeps the
    whole last segment. *)
Example img_name_spec_scenario :
  img_name "https://example.com/photo-abc?x=1" = Ok "photo-abc.jpg".
Proof. vm_compute. reflexivity. Qed.

(** ** [download_image] on its own *)

Section Sequential.
Context `{!Http} (cwd : list string) (folder : string).

Lemma target_parent n :
  is_name n → target cwd folder n = os_resolve cwd folder ++ [n].
Proof. intros Hn. unfold target. by apply os_resolve_join. Qed.

(** C14: When the request succeeds and [IMAGE_FOLDER] is a directory, the file
    [IMAGE_FOLDER/<name>] holds exactly the response body afterwards,
    whatever the status code of the response: the code never looks at
    it. *)
Theorem download_image_ok url r n fs :
  requests_get url = Ok r → img_name url = Ok n →
  check_dirs fs [] (os_resolve cwd folder) = Ok () →
  fs !! target cwd folder n ≠ Some IDir →
  download_image cwd folder url fs
  = (Ok (), <[target cwd folder n := IFile (content r)]> fs).
Proof.
  intros Hr Hn Hd Ht. unfold download_image, st_bind, st_lift.
  rewrite Hn, Hr. rewrite target_parent in Ht |- * by (by eapply img_name_is_name).
  rewrite open_wb_ok by done. unfold write_at. rewrite lookup_insert_eq.
  by rewrite overlay_nil_0, insert_insert_eq.
Qed.

(** C21: A request that raises propagates out of [download_image] and leaves
    the file system untouched. *)
Lemma download_image_get_error url e fs :
  requests_get url = Raise e → download_image cwd folder url fs = (Raise e, fs).
Proof.
  intros Hr. unfold download_image, st_bind, st_lift.
  destruct (img_name_shape url) as (base & -> & _). by rewrite Hr.
Qed.

(** C22: When [IMAGE_FOLDER] cannot be reached, [open] raises the walk's error
    and nothing is written. *)
Lemma download_image_folder_error url r e fs :
  requests_get url = Ok r → check_dirs fs [] (os_resolve cwd folder) = Raise e →
  download_image cwd folder url fs = (Raise e, fs).
Proof.
  intros Hr Hd. unfold download_image, st_bind, st_lift.
  destruct (img_name_shape url) as (base & Hn & _). rewrite Hn, Hr.
  rewrite target_parent by (by eapply img_name_is_name).
  by rewrite (open_wb_parent_error _ _ _ e).
Qed.

End Sequential.

(** ** A thread run alone computes [download_image] *)

Section Refinement.
Context `{!Http} (cwd : list string) (folder : string).

(** What the future of a finished thread holds. *)
Definition dl_result (t : dl_task) : res unit :=
  match t with DlFailed e => Raise e | _ => Ok () end.

(** C16: The task semantics refines the sequential one: a pool with the one
    thread of [download_image(url)] ends in the file system and with the
    outcome of the sequential [download_image]. *)
Theorem dl_task_refines url fs fs' t' :
  dl_stage cwd folder (fs, [DlStart url]) (fs', [t']) →
  download_image cwd folder url fs = (dl_result t', fs').
Proof.
  intros Hrun. apply Executor.stage_run_single in Hrun. simpl in Hrun.
  unfold download_image, st_bind, st_lift, st_ret, dl_step in *.
  destruct (img_name url) as [n|e]; simpl in Hrun; [|by simplify_eq].
  destruct (requests_get url) as [r|e]; simpl in Hrun; [|by simplify_eq].
  destruct (open_wb _ fs) as [[[]|e] fs1]; simpl in Hrun; [|by simplify_eq].
  rewrite write_at_spec in Hrun |- *. by simplify_eq.
Qed.

End Refinement.

(** ** Every interleaving of the download threads *)

Section Concurrent.
Context `{!Http} (cwd : list string) (folder : string).

(** The name [img_name] gives (it never raises, [img_name_shape]). *)
Definition url_name (url : string) : string :=
  match img_name url with Ok n => n | Raise _ => "" end.

Definition dl_target (url : string) : list string := target cwd folder (url_name url).

Lemma img_name_url_name url : img_name url = Ok (url_name url).
Proof. unfold url_name. by destruct (img_name_shape url) as (b & -> & _). Qed.

Lemma dl_target_parent url : dl_target url = os_resolve cwd folder ++ [url_name url].
Proof. apply target_parent, (img_name_is_name url), img_name_url_name. Qed.

(** The state of the thread of [url], read against the file system. *)
Definition task_inv (fs : FS) (url : string) (t : dl_task) : Prop :=
  match t with
  | DlStart u => u = url ∧ fs !! dl_target url ≠ Some IDir
  | DlFetched n body =>
      n = url_name url ∧ (∃ r, requests_get url = Ok r ∧ body = content r) ∧
      fs !! dl_target url ≠ Some IDir
  | DlOpened p body =>
      p = dl_target url ∧ (∃ r, requests_get url = Ok r ∧ body = content r) ∧
      fs !! p = Some (IFile [])
  | DlClosed p =>
      p = dl_target url ∧ ∃ r, requests_get url = Ok r ∧ fs !! p = Some (IFile (content r))
  | DlFailed e => requests_get url = Raise e
  end.

Lemma task_inv_frame fs fs' url t :
  fs' !! dl_target url = fs !! dl_target url → task_inv fs url t → task_inv fs' url t.
Proof. intros Heq. destruct t; simpl; intros; destruct_and?; subst; rewrite ?Heq; naive_solver. Qed.

(** One step of the thread of [url] keeps its invariant and changes the
    file system at most at its own target, where no directory is. *)
Lemma dl_step_inv fs url t :
  check_dirs fs [] (os_resolve cwd folder) = Ok () →
  task_inv fs url t → dl_done t = false →
  task_inv (dl_step cwd folder fs t).1 url (dl_step cwd folder fs t).2 ∧
  ((dl_step cwd folder fs t).1 = fs ∨
   ∃ c, (dl_step cwd folder fs t).1 = <[dl_target url := IFile c]> fs ∧
        fs !! dl_target url ≠ Some IDir).
Proof.
  intros Hd Hinv Hnd. destruct t as [u|n body|p body|p|e]; simpl in Hinv, Hnd |- *; try done.
  - destruct Hinv as [-> Ht]. rewrite img_name_url_name.
    destruct (requests_get url) as [r|e] eqn:Hr; simpl; naive_solver.
  - destruct Hinv as (-> & Hr & Ht). fold (dl_target url).
    rewrite dl_target_parent in Ht |- *. rewrite open_wb_ok by done. simpl.
    rewrite <-dl_target_parent in Ht |- *. split; [|right; eauto].
    split_and!; [done|done|]. by rewrite lookup_insert_eq.
  - destruct Hinv as (-> & (r & Hr & ->) & Ht). unfold write_at. rewrite Ht. simpl.
    rewrite overlay_nil_0. split; [|right; eexists; split; [done|congruence]].
    split; [done|]. exists r. by rewrite lookup_insert_eq.
Qed.

(** ** The sequential loop the download stage is compared with *)

(** What the future of the thread of [url] holds. *)
Definition dl_outcome (url : string) : res unit :=
  match requests_get url with Ok _ => Ok () | Raise e => Raise e end.

(** [for url in urls:] [download_image(url)], each exception caught and
    kept: the final file system and the outcome of each call. *)
Fixpoint download_seq (urls : list string) (fs : FS) : FS * list (res unit) :=
  match urls with
  | [] => (fs, [])
  | u :: us =>
      let '(r, fs1) := download_image cwd folder u fs in
      let '(fs2, rs) := download_seq us fs1 in (fs2, r :: rs)
  end.

(** The entry of [q] after the downloads of [urls] from [fs0]: the body
    of the first URL targeting [q] whose request succeeds. *)
Fixpoint dl_final (urls : list string) (fs0 : FS) (q : list string) : option inode :=
  match urls with
  | [] => fs0 !! q
  | u :: us =>
      if decide (dl_target u = q) then
        match requests_get u with
        | Ok r => Some (IFile (content r))
        | Raise _ => dl_final us fs0 q
        end
      else dl_final us fs0 q
  end.

Lemma dl_final_notin urls fs0 q :
  (∀ u, u ∈ urls → dl_target u ≠ q) → dl_final urls fs0 q = fs0 !! q.
Proof.
  induction urls as [|u us IH]; intros Hq; simpl; [done|].
  rewrite decide_False by (apply Hq; by left). apply IH. intros v Hv. apply Hq. by right.
Qed.

Lemma dl_final_frame urls fs0 fs1 q :
  fs1 !! q = fs0 !! q → dl_final urls fs1 q = dl_final urls fs0 q.
Proof. intros Hq. induction urls as [|u us IH]; simpl; [done|]. by rewrite IH. Qed.

Lemma dl_target_name_eq u v : dl_target u = dl_target v → url_name u = url_name v.
Proof. rewrite !dl_target_parent. by intros [_ ?]%app_inj_tail. Qed.

Lemma dl_final_at urls fs0 u :
  NoDup (map url_name urls) → u ∈ urls →
  dl_final urls fs0 (dl_target u) =
  match requests_get u with Ok r => Some (IFile (content r)) | Raise _ => fs0 !! dl_target u end.
Proof.
  induction urls as [|v us IH]; intros Hnd Hu; [by apply not_elem_of_nil in Hu|].
  simpl in Hnd. apply NoDup_cons in Hnd as [Hv Hnd]. simpl.
  apply elem_of_cons in Hu as [->|Hu].
  - rewrite decide_True by done. destruct (requests_get v); [done|].
    apply dl_final_notin. intros w Hw Heq%dl_target_name_eq. apply Hv.
    rewrite <-Heq. by apply list_elem_of_fmap_2.
  - rewrite <-IH by done. case_decide as Heq; [|done]. exfalso.
    apply Hv. rewrite (dl_target_name_eq v u Heq). by apply list_elem_of_fmap_2.
Qed.

(** When every successful download is already in place, the loop leaves
    every entry as it is. *)
Lemma dl_final_fixed urls fs0 q :
  (∀ u r, u ∈ urls → requests_get u = Ok r → fs0 !! dl_target u = Some (IFile (content r))) →
  dl_final urls fs0 q = fs0 !! q.
Proof.
  induction urls as [|u us IH]; intros Hin; [done|]. simpl.
  case_decide as Hq; [subst q; destruct (requests_get u) as [r|] eqn:Hr|];
    [symmetry; apply (Hin u r); [by left|done]|..];
    apply IH; intros v r Hv; apply Hin; by right.
Qed.

(** [download_image] on every branch, when [IMAGE_FOLDER] is a directory
    and no directory is at the target. *)
Lemma download_image_step url fs :
  check_dirs fs [] (os_resolve cwd folder) = Ok () → fs !! dl_target url ≠ Some IDir →
  download_image cwd folder url fs =
  match requests_get url with
  | Ok r => (Ok (), <[dl_target url := IFile (content r)]> fs)
  | Raise e => (Raise e, fs)
  end.
Proof.
  intros Hd Ht. unfold download_image, st_bind, st_lift, st_ret.
  rewrite img_name_url_name. destruct (requests_get url) as [r|e]; [|done].
  fold (dl_target url). rewrite dl_target_parent in Ht |- *.
  rewrite open_wb_ok by done. simpl. by rewrite write_at_insert_empty.
Qed.

Lemma download_seq_spec urls fs :
  NoDup (map url_name urls) → check_dirs fs [] (os_resolve cwd folder) = Ok () →
  (∀ u, u ∈ urls → fs !! dl_target u ≠ Some IDir) →
  (∀ q, (download_seq urls fs).1 !! q = dl_final urls fs q) ∧
  (download_seq urls fs).2 = map dl_outcome urls.
Proof.
  revert fs. induction urls as [|u us IH]; intros fs Hnd Hd Ht; [done|].
  simpl in Hnd. apply NoDup_cons in Hnd as [Hu Hnd].
  assert (∀ v, v ∈ us → dl_target v ≠ dl_target u) as Hne.
  { intros v Hv Heq%dl_target_name_eq. apply Hu. rewrite <-Heq. by apply list_elem_of_fmap_2. }
  cbn [download_seq]. rewrite download_image_step by (done || by apply Ht; left).
  cbn [dl_final map].
  destruct (requests_get u) as [r|e] eqn:Hr.
  - set (fs1 := <[dl_target u := IFile (content r)]> fs).
    destruct (IH fs1) as [Hlook Hres]; [done| | |].
    + apply check_dirs_insert_nondir; [by apply Ht; left|done|done].
    + intros v Hv. unfold fs1. rewrite lookup_insert_ne by (apply not_eq_sym, Hne, Hv).
      apply Ht. by right.
    + destruct (download_seq us fs1) as [fs2 rs]. simpl in *.
      split; [|rewrite Hres; f_equal; unfold dl_outcome; by rewrite Hr].
      intros q. rewrite Hlook. case_decide as Hq.
      * subst q. rewrite dl_final_notin by done. unfold fs1. by rewrite lookup_insert_eq.
      * apply dl_final_frame. unfold fs1. by rewrite lookup_insert_ne.
  - destruct (IH fs) as [Hlook Hres]; [done|done| |].
    + intros v Hv. apply Ht. by right.
    + destruct (download_seq us fs) as [fs2 rs]. simpl in *.
      split; [|rewrite Hres; f_equal; unfold dl_outcome; by rewrite Hr].
      intros q. rewrite Hlook. by case_decide.
Qed.

End Concurrent.

Section Stage.
Context `{!Http} (cwd : list string) (folder : string).
Context (urls : list string) (fs0 : FS).

(** The invariant of the download pool: [IMAGE_FOLDER] stays a
    directory, the thread of [urls[i]] satisfies [task_inv], and the
    paths no thread targets keep their initial contents. *)
Definition fetch_inv (p : FS * list dl_task) : Prop :=
  check_dirs p.1 [] (os_resolve cwd folder) = Ok () ∧
  length p.2 = length urls ∧
  (∀ i url t, urls !! i = Some url → p.2 !! i = Some t → task_inv cwd folder p.1 url t) ∧
  (∀ q, (∀ url, url ∈ urls → q ≠ dl_target cwd folder url) → p.1 !! q = fs0 !! q).

Lemma dl_target_inj i j ui uj :
  NoDup (map url_name urls) → urls !! i = Some ui → urls !! j = Some uj → i ≠ j →
  dl_target cwd folder ui ≠ dl_target cwd folder uj.
Proof.
  intros Hnd Hi Hj Hij. rewrite !dl_target_parent. intros [_ Heq]%app_inj_tail.
  apply Hij. eapply NoDup_lookup; [exact Hnd| |].
  - by rewrite list_lookup_fmap, Hi.
  - by rewrite list_lookup_fmap, Hj, Heq.
Qed.

Lemma fetch_inv_step p p' :
  NoDup (map url_name urls) → fetch_inv p → dl_pool_step cwd folder p p' → fetch_inv p'.
Proof.
  intros Hnd (Hd & Hlen & Htasks & Hframe) Hs. inv Hs. simpl in *.
  rename select (ts !! i = Some t) into Hi. rename select (dl_done t = false) into Hdone.
  destruct (lookup_lt_is_Some_2 urls i) as [url Hu].
  { rewrite <-Hlen. by eapply lookup_lt_Some. }
  destruct (dl_step_inv cwd folder s url t Hd (Htasks _ _ _ Hu Hi) Hdone) as [Hinv Heff].
  assert (∀ q, q ≠ dl_target cwd folder url → (dl_step cwd folder s t).1 !! q = s !! q) as Hother.
  { intros q Hq. destruct Heff as [->|(c & -> & _)]; [done|]. by rewrite lookup_insert_ne. }
  split_and!.
  - simpl. destruct Heff as [->|(c & -> & Ht)]; [done|]. by apply check_dirs_insert_nondir.
  - simpl. by rewrite length_insert.
  - intros j uj tj Huj Htj. simpl in Htj |- *. destruct (decide (i = j)) as [<-|Hij].
    + rewrite list_lookup_insert_eq in Htj by (by eapply lookup_lt_Some). simplify_eq. done.
    + rewrite list_lookup_insert_ne in Htj by done.
      eapply task_inv_frame; [|by eapply Htasks].
      apply Hother. apply not_eq_sym. by eapply dl_target_inj.
  - intros q Hq. simpl. rewrite Hother; [by apply Hframe|]. apply Hq. by eapply list_elem_of_lookup_2.
Qed.

Lemma fetch_inv_init :
  check_dirs fs0 [] (os_resolve cwd folder) = Ok () →
  (∀ url, url ∈ urls → fs0 !! dl_target cwd folder url ≠ Some IDir) →
  fetch_inv (fs0, map DlStart urls).
Proof.
  intros Hd Ht. split_and!; simpl; [done|by rewrite length_map| |done].
  intros i url t Hu Hti. rewrite list_lookup_fmap, Hu in Hti. simplify_eq/=.
  split; [done|]. apply Ht. by eapply list_elem_of_lookup_2.
Qed.

Lemma fetch_inv_run p' :
  NoDup (map url_name urls) →
  check_dirs fs0 [] (os_resolve cwd folder) = Ok () →
  (∀ url, url ∈ urls → fs0 !! dl_target cwd folder url ≠ Some IDir) →
  rtc (dl_pool_step cwd folder) (fs0, map DlStart urls) p' → fetch_inv p'.
Proof.
  intros Hnd Hd Ht Hrun. eapply Executor.pool_invariant; [| |exact Hrun].
  - intros q q' Hq Hs. by eapply fetch_inv_step.
  - by apply fetch_inv_init.
Qed.

(** With pairwise distinct file names and [IMAGE_FOLDER] a directory,
    every interleaving of the download threads that completes leaves the
    file of each URL whose request succeeded holding exactly the response
    body, whatever the other requests did, and every other path as it
    was.  Failed requests do not stop the other threads. *)
Theorem fetch_stage_correct fs' ts' :
  NoDup (map url_name urls) →
  check_dirs fs0 [] (os_resolve cwd folder) = Ok () →
  (∀ url, url ∈ urls → fs0 !! dl_target cwd folder url ≠ Some IDir) →
  dl_stage cwd folder (fs0, map DlStart urls) (fs', ts') →
  (∀ url r, url ∈ urls → requests_get url = Ok r →
     fs' !! dl_target cwd folder url = Some (IFile (content r))) ∧
  (∀ q, (∀ url, url ∈ urls → q ≠ dl_target cwd folder url) → fs' !! q = fs0 !! q).
Proof.
  intros Hnd Hd Ht [Hrun Hall].
  destruct (fetch_inv_run _ Hnd Hd Ht Hrun) as (_ & Hlen & Htasks & Hframe).
  split; [|done]. intros url r Hu Hr. simpl in *.
  apply list_elem_of_lookup_1 in Hu as [i Hi].
  destruct (lookup_lt_is_Some_2 ts' i) as [t Hti].
  { rewrite Hlen. by eapply lookup_lt_Some. }
  specialize (Htasks _ _ _ Hi Hti).
  pose proof (Executor.all_done_lookup _ _ _ Hall Hti) as Hdone.
  destruct t; simpl in Hdone, Htasks; try done; try congruence.
  destruct Htasks as (-> & r' & Hr' & Hf). rewrite Hr in Hr'. by simplify_eq.
Qed.

(** ** Every interleaving is the sequential loop *)

(** The threads whose target still holds its initial entry. *)
Definition dl_untouched (t : dl_task) : bool :=
  match t with DlStart _ | DlFailed _ => true | _ => false end.

Definition untouched_inv (p : FS * list dl_task) : Prop :=
  ∀ i u t, urls !! i = Some u → p.2 !! i = Some t → dl_untouched t = true →
    p.1 !! dl_target cwd folder u = fs0 !! dl_target cwd folder u.

Lemma dl_step_untouched fs url t :
  check_dirs fs [] (os_resolve cwd folder) = Ok () → task_inv cwd folder fs url t →
  dl_done t = false → dl_untouched (dl_step cwd folder fs t).2 = true →
  (dl_step cwd folder fs t).1 = fs ∧ dl_untouched t = true.
Proof.
  intros Hd Hinv Hnd. destruct t as [u|n body|p body|p|e]; simpl in Hinv, Hnd |- *; try done.
  - by repeat case_match.
  - destruct Hinv as (-> & _ & Ht). fold (dl_target cwd folder url).
    rewrite dl_target_parent in Ht |- *. by rewrite open_wb_ok.
Qed.

Lemma untouched_inv_step p p' :
  NoDup (map url_name urls) → fetch_inv p → untouched_inv p →
  dl_pool_step cwd folder p p' → untouched_inv p'.
Proof.
  intros Hnd (Hd & Hlen & Htasks & _) Hu Hs. inv Hs. simpl in *.
  rename select (ts !! i = Some t) into Hi. rename select (dl_done t = false) into Hdone.
  destruct (lookup_lt_is_Some_2 urls i) as [url Hurl].
  { rewrite <-Hlen. by eapply lookup_lt_Some. }
  pose proof (Htasks _ _ _ Hurl Hi) as Hinv.
  destruct (dl_step_inv cwd folder s url t Hd Hinv Hdone) as [_ Heff].
  intros j uj tj Huj Htj Hut. simpl in Htj |- *. destruct (decide (i = j)) as [<-|Hij].
  - rewrite list_lookup_insert_eq in Htj by (by eapply lookup_lt_Some). simplify_eq.
    destruct (dl_step_untouched s url t Hd Hinv Hdone Hut) as [-> Ht]. by eapply Hu.
  - rewrite list_lookup_insert_ne in Htj by done.
    assert (dl_target cwd folder uj ≠ dl_target cwd folder url) as Hne.
    { by eapply dl_target_inj. }
    destruct Heff as [->|(c & -> & _)]; [by eapply Hu|].
    rewrite lookup_insert_ne by (by apply not_eq_sym). by eapply Hu.
Qed.

Lemma untouched_inv_run p' :
  NoDup (map url_name urls) →
  check_dirs fs0 [] (os_resolve cwd folder) = Ok () →
  (∀ url, url ∈ urls → fs0 !! dl_target cwd folder url ≠ Some IDir) →
  rtc (dl_pool_step cwd folder) (fs0, map DlStart urls) p' → fetch_inv p' ∧ untouched_inv p'.
Proof.
  intros Hnd Hd Ht Hrun.
  eapply (Executor.pool_invariant (λ p, fetch_inv p ∧ untouched_inv p)); [| |exact Hrun].
  - intros q q' [Hq Hq'] Hs. split; [by eapply fetch_inv_step|by eapply untouched_inv_step].
  - split; [by apply fetch_inv_init|]. intros i u t _ _ _. done.
Qed.

(** A finished thread holds the outcome of its request. *)
Lemma done_task_result fs url t :
  task_inv cwd folder fs url t → dl_done t = true → dl_result t = dl_outcome url.
Proof.
  unfold dl_outcome. destruct t; simpl; try done.
  - by intros (_ & r & -> & _).
  - by intros ->.
Qed.

(** After the stage, the i-th future holds a finished thread of the i-th
    URL. *)
Lemma fetch_stage_tasks fs' ts' i u :
  NoDup (map url_name urls) →
  check_dirs fs0 [] (os_resolve cwd folder) = Ok () →
  (∀ url, url ∈ urls → fs0 !! dl_target cwd folder url ≠ Some IDir) →
  dl_stage cwd folder (fs0, map DlStart urls) (fs', ts') →
  urls !! i = Some u →
  ∃ t, ts' !! i = Some t ∧ task_inv cwd folder fs' u t ∧ dl_done t = true ∧
       (dl_result t ≠ Ok () → fs' !! dl_target cwd folder u = fs0 !! dl_target cwd folder u).
Proof.
  intros Hnd Hd Ht [Hrun Hall] Hi.
  destruct (untouched_inv_run _ Hnd Hd Ht Hrun) as ((_ & Hlen & Htasks & _) & Hu). simpl in *.
  destruct (lookup_lt_is_Some_2 ts' i) as [t Hti].
  { rewrite Hlen. by eapply lookup_lt_Some. }
  pose proof (Htasks _ _ _ Hi Hti) as Hinv.
  pose proof (Executor.all_done_lookup _ _ _ Hall Hti) as Hdone.
  exists t. split_and!; [done..|]. intros Hres.
  destruct t; simpl in Hinv, Hdone, Hres; try done. by eapply Hu.
Qed.

(** Every entry of the file system after the download stage is the one
    the sequential loop leaves. *)
Lemma fetch_stage_lookup fs' ts' q :
  NoDup (map url_name urls) →
  check_dirs fs0 [] (os_resolve cwd folder) = Ok () →
  (∀ url, url ∈ urls → fs0 !! dl_target cwd folder url ≠ Some IDir) →
  dl_stage cwd folder (fs0, map DlStart urls) (fs', ts') →
  fs' !! q = dl_final cwd folder urls fs0 q.
Proof.
  intros Hnd Hd Ht Hst.
  destruct (fetch_stage_correct fs' ts' Hnd Hd Ht Hst) as [Hfiles Hframe].
  destruct (decide (Exists (λ u, dl_target cwd folder u = q) urls)) as [Hex|Hno].
  - apply Exists_exists in Hex as (u & Hu' & <-). rewrite dl_final_at by done.
    destruct (requests_get u) as [r|e] eqn:Hr; [by apply Hfiles|].
    apply list_elem_of_lookup_1 in Hu' as [i Hi].
    destruct (fetch_stage_tasks fs' ts' i u Hnd Hd Ht Hst Hi) as (t & _ & Hinv & Hdone & Hu).
    apply Hu. rewrite (done_task_result _ _ _ Hinv Hdone). unfold dl_outcome. by rewrite Hr.
  - rewrite dl_final_notin; [apply Hframe|]; intros u Hu' Heq; apply Hno, Exists_exists; eauto.
Qed.

(** The stage run again over a file system that holds every successful
    download changes nothing. *)
Lemma fetch_stage_fixed fs' ts' :
  NoDup (map url_name urls) →
  check_dirs fs0 [] (os_resolve cwd folder) = Ok () →
  (∀ url, url ∈ urls → fs0 !! dl_target cwd folder url ≠ Some IDir) →
  (∀ u r, u ∈ urls → requests_get u = Ok r →
     fs0 !! dl_target cwd folder u = Some (IFile (content r))) →
  dl_stage cwd folder (fs0, map DlStart urls) (fs', ts') → fs' = fs0.
Proof.
  intros Hnd Hd Ht Hin Hst. apply map_eq. intros q.
  rewrite (fetch_stage_lookup fs' ts' q Hnd Hd Ht Hst). by apply dl_final_fixed.
Qed.

(** C3: Every interleaving of the download threads that completes ends in
    the file system the sequential loop [for url in urls:
    download_image(url)] (each exception caught) ends in, and the
    futures hold the outcomes of the sequential calls: the stage is
    serializable. *)
Theorem fetch_stage_serializable fs' ts' :
  NoDup (map url_name urls) →
  check_dirs fs0 [] (os_resolve cwd folder) = Ok () →
  (∀ url, url ∈ urls → fs0 !! dl_target cwd folder url ≠ Some IDir) →
  dl_stage cwd folder (fs0, map DlStart urls) (fs', ts') →
  (fs', map dl_result ts') = download_seq cwd folder urls fs0.
Proof.
  intros Hnd Hd Ht Hst. destruct (download_seq_spec cwd folder urls fs0 Hnd Hd Ht) as [Hlook Hres].
  pose proof (fetch_inv_run _ Hnd Hd Ht (proj1 Hst)) as (_ & Hlen & _). simpl in Hlen.
  destruct (download_seq cwd folder urls fs0) as [fsS rs]. simpl in *. f_equal.
  - apply map_eq. intros q. rewrite Hlook. by eapply fetch_stage_lookup.
  - rewrite Hres. apply list_eq. intros i. rewrite !list_lookup_fmap.
    destruct (urls !! i) as [u|] eqn:Hi.
    + destruct (fetch_stage_tasks fs' ts' i u Hnd Hd Ht Hst Hi) as (t & -> & Hinv & Hdone & _).
      simpl. f_equal. by eapply done_task_result.
    + rewrite lookup_ge_None_2; [done|]. rewrite Hlen. by apply lookup_ge_None_1.
Qed.

End Stage.

(** ** Concrete runs *)

Section Demo.

Definition demo_cwd : list string := ["home"; "u"].
Definition demo_folder : string := "/home/u/images".
Definition demo_fs : FS :=
  {[ ["home"] := IDir; ["home"; "u"] := IDir; ["home"; "u"; "images"] := IDir ]}.

(** Two URLs whose last segments differ; the second answers with an
    error page, which is written like an image. *)
Definition demo_urls : list string :=
  ["https://images.unsplash.com/photo-1"; "https://example.com/a/photo-2?w=300"].

Definition demo_http : Http := {|
  requests_get := λ u,
    if bool_decide (u = "https://images.unsplash.com/photo-1")
    then Ok (mk_response 200 [x01; x02])
    else Ok (mk_response 404 [x34; x30; x34])
|}.

Lemma fetch_stage_correct_witness :
  let p' := @Executor.run_first _ _ (@dl_task_Task demo_http demo_cwd demo_folder)
              8 (demo_fs, map DlStart demo_urls) in
  p'.1 !! ["home"; "u"; "images"; "photo-2.jpg"] = Some (IFile [x34; x30; x34]).
Proof.
  intros p'.
  refine (proj1 (@fetch_stage_correct demo_http demo_cwd demo_folder demo_urls demo_fs
    p'.1 p'.2 _ _ _ _) "https://example.com/a/photo-2?w=300" (mk_response 404 [x34; x30; x34]) _ _).
  - apply (bool_decide_unpack _). vm_compute. exact I.
  - vm_compute. reflexivity.
  - apply Forall_forall. apply (bool_decide_unpack _). vm_compute. exact I.
  - split; [rewrite <-surjective_pairing; apply Executor.run_first_rtc|]. vm_compute. reflexivity.
  - apply (bool_decide_unpack _). vm_compute. exact I.
  - vm_compute. reflexivity.
Defined.

(** Any complete run of the two threads is the sequential loop. *)
Lemma fetch_stage_serializable_witness :
  let p' := @Executor.run_first _ _ (@dl_task_Task demo_http demo_cwd demo_folder)
              8 (demo_fs, map DlStart demo_urls) in
  (p'.1, map dl_result p'.2) = @download_seq demo_http demo_cwd demo_folder demo_urls demo_fs.
Proof.
  intros p'.
  apply (@fetch_stage_serializable demo_http demo_cwd demo_folder demo_urls demo_fs p'.1 p'.2).
  - apply (bool_decide_unpack _). vm_compute. exact I.
  - vm_compute. reflexivity.
  - apply Forall_forall. apply (bool_decide_unpack _). vm_compute. exact I.
  - split; [rewrite <-surjective_pairing; apply Executor.run_first_rtc|]. vm_compute. reflexivity.
Defined.

(** Two URLs with the same last segment [x]: both threads write
    [IMAGE_FOLDER/x.jpg].  In the interleaving where both [open(..., "wb")]
    calls come before both [write]s, the second write overwrites only the
    first byte of the first one: the file ends as neither response body. *)
Definition dup_urls : list string := ["https://a.example/x"; "https://b.example/img/x"].

Definition dup_http : Http := {|
  requests_get := λ u,
    if bool_decide (u = "https://a.example/x")
    then Ok (mk_response 200 [x01; x02])
    else Ok (mk_response 200 [x03])
|}.

(** With two URLs of the same name, some complete interleaving of the
    download threads leaves [x.jpg] holding [03 02]: neither response
    body ([01 02] or [03]). *)
Theorem fetch_duplicate_names_mix :
  ∃ p', @dl_stage demo_cwd demo_folder dup_http (demo_fs, map DlStart dup_urls) p' ∧
        p'.1 !! ["home"; "u"; "images"; "x.jpg"] = Some (IFile [x03; x02]).
Proof.
  exists (@Executor.run_schedule _ _ (@dl_task_Task dup_http demo_cwd demo_folder)
            [0; 1; 0; 1; 0; 1] (demo_fs, map DlStart dup_urls)).
  split; [split|].
  - apply Executor.run_schedule_rtc.
  - vm_compute. reflexivity.
  - vm_compute. reflexivity.
Qed.

(** Run alone, the thread of a URL computes the sequential
    [download_image]. *)
Lemma dl_task_refines_witness :
  let p' := @Executor.run_first _ _ (@dl_task_Task demo_http demo_cwd demo_folder)
              3 (demo_fs, [DlStart "https://images.unsplash.com/photo-1"]) in
  @download_image demo_http demo_cwd demo_folder "https://images.unsplash.com/photo-1" demo_fs
  = (dl_result (nth 0 p'.2 (DlFailed IndexError)), p'.1).
Proof.
  intros p'. apply dl_task_refines. split.
  - change (demo_fs, [DlStart "https://images.unsplash.com/photo-1"]) with
      (demo_fs, map DlStart ["https://images.unsplash.com/photo-1"]).
    assert (p'.2 = [nth 0 p'.2 (DlFailed IndexError)]) as <- by (vm_compute; reflexivity).
    rewrite <-surjective_pairing. apply Executor.run_first_rtc.
  - vm_compute. reflexivity.
Defined.

Lemma img_name_query_witness :
  img_name ("https://example.com/foo" +:+ String "/" ("bar-123" +:+ String "?" "w=800&h=600"))
  = Ok ("bar-123" +:+ ".jpg").
Proof. apply img_name_query; vm_compute; reflexivity. Defined.

(** A 404 page is written to the file like an image. *)
Lemma download_image_ok_witness :
  @download_image demo_http demo_cwd demo_folder "https://example.com/a/photo-2?w=300" demo_fs
  = (Ok (), <[target demo_cwd demo_folder "photo-2.jpg" := IFile [x34; x30; x34]]> demo_fs).
Proof.
  apply (@download_image_ok demo_http demo_cwd demo_folder _ (mk_response 404 [x34; x30; x34])
           "photo-2.jpg").
  - vm_compute. reflexivity.
  - vm_compute. reflexivity.
  - vm_compute. reflexivity.
  - vm_compute. discriminate.
Defined.

(** A network that is down. *)
Definition down_http : Http := {| requests_get := λ _, Raise RequestException |}.

Lemma download_image_get_error_witness :
  @download_image down_http demo_cwd demo_folder "https://images.unsplash.com/photo-1" demo_fs
  = (Raise RequestException, demo_fs).
Proof. apply (@download_image_get_error down_http). vm_compute. reflexivity. Defined.

Lemma download_image_folder_error_witness :
  @download_image demo_http demo_cwd demo_folder "https://images.unsplash.com/photo-1" ∅
  = (Raise FileNotFoundError, ∅).
Proof.
  apply (@download_image_folder_error demo_http _ _ _ (mk_response 200 [x01; x02])).
  - vm_compute. reflexivity.
  - vm_compute. reflexivity.
Defined.

End Demo.

End Fetcher.
