(* ===== verification/ImageLib.v ===== *)
(** * The Pillow calls of [process_image] (lines 71-75 of [src/main.py])

<<
    img = Image.open(image_path)
    img = img.filter(ImageFilter.GaussianBlur(radius=15))
    img.thumbnail(thumb_size)
    img.save(os.path.join(PROCESSED_FOLDER, f"thumb_{img_name}"), "JPEG")
>>
    The codecs and the blur filter are an interface, [ImageLib]: an image
    has a size; decoding bytes may raise [UnidentifiedImageError];
    filtering may raise (Pillow refuses to filter palette images);
    encoding as JPEG may raise [OSError] (a mode JPEG cannot hold) and
    is all-or-nothing: it raises before writing or gives the whole
    encoding (Pillow's [ImageFile._save] can raise after writing part of
    the file; that partial write is not modelled); resizing gives the
    requested size, and [thumbnail] is total.  [Image.thumbnail] is written out:
    its size computation ([preserve_aspect_ratio] and [round_aspect] in
    Pillow's [Image.py], Pillow 7.1 and later) is the part of the
    transform the program's correctness rests on.  Pillow computes it in
    floating point; here it is exact rational arithmetic on [Z]. *)

From S2P Require Import Prelude.

Local Open Scope Z_scope.

Class ImageLib := {
  image : Type;
  img_size : image → Z * Z;
  pil_decode : list byte → res image;
  pil_blur : Z → image → res image;
  pil_resize : image → Z * Z → image;
  pil_encode_jpeg : image → res (list byte);
  decode_size_pos : ∀ b im, pil_decode b = Ok im → 1 ≤ (img_size im).1 ∧ 1 ≤ (img_size im).2;
  blur_size : ∀ r im im', pil_blur r im = Ok im' → img_size im' = img_size im;
  resize_size : ∀ im s, img_size (pil_resize im s) = s;
}.

Module Thumbnail.

(** [math.ceil(a / b)] for [0 < b]. *)
Definition ceil_div (a b : Z) : Z := - ((- a) / b).

(** Pillow's [round_aspect(y * aspect, key=lambda n: abs(aspect - n / y))]
    with [aspect = w / h]: the floor or the ceiling of [y * w / h],
    whichever is nearer (the floor on a tie, as [min] keeps the first),
    at least 1. *)
Definition round_aspect_x (w h y : Z) : Z :=
  let f := (y * w) / h in
  let c := ceil_div (y * w) h in
  let n := if Z.abs (w * y - c * h) <? Z.abs (w * y - f * h) then c else f in
  Z.max n 1.

(** [round_aspect(x / aspect, key=lambda n: 0 if n == 0 else
    abs(aspect - x / n))]: the keys [|w/h - x/n|] compared by cross
    multiplication. *)
Definition round_aspect_y (w h x : Z) : Z :=
  let f := (x * h) / w in
  let c := ceil_div (x * h) w in
  let n :=
    if f =? 0 then f
    else if Z.abs (w * c - x * h) * f <? Z.abs (w * f - x * h) * c then c else f in
  Z.max n 1.

(** [preserve_aspect_ratio()] for an image of size [(w, h)] and the
    requested size [(x, y)]; [None] when the image already fits. *)
Definition preserve_aspect_ratio (w h : Z) (size : Z * Z) : option (Z * Z) :=
  let '(x, y) := size in
  if (w <=? x) && (h <=? y) then None
  else if w * y <=? x * h then Some (round_aspect_x w h y, y)
  else Some (x, round_aspect_y w h x).

Section Thumb.
Context `{!ImageLib}.

(** [img.thumbnail(size)]: resize in place to the preserved size, unless
    the image already fits or already has that size. *)
Definition thumbnail (im : image) (size : Z * Z) : image :=
  match preserve_aspect_ratio (img_size im).1 (img_size im).2 size with
  | None => im
  | Some s => if decide (img_size im = s) then im else pil_resize im s
  end.

End Thumb.

Example preserve_portrait : preserve_aspect_ratio 4000 6000 (300, 300) = Some (200, 300).
Proof. reflexivity. Qed.

Example preserve_landscape : preserve_aspect_ratio 1920 1080 (300, 300) = Some (300, 169).
Proof. reflexivity. Qed.

(** ** Bounds of the computed size *)

Lemma floor_div_spec a b : 0 < b → b * (a / b) ≤ a < b * (a / b) + b.
Proof. intros Hb. pose proof (Z.div_mod a b ltac:(lia)). pose proof (Z.mod_pos_bound a b Hb). lia. Qed.

Lemma ceil_div_spec a b : 0 < b → b * ceil_div a b - b < a ≤ b * ceil_div a b.
Proof. intros Hb. unfold ceil_div. pose proof (floor_div_spec (- a) b Hb). lia. Qed.

(** The width chosen for a height-limited thumbnail is within one pixel
    of [y * w / h], and at least 1. *)
Lemma round_aspect_x_spec w h y :
  1 ≤ w → 1 ≤ h → 1 ≤ y →
  1 ≤ round_aspect_x w h y ∧ Z.abs (round_aspect_x w h y * h - y * w) < h.
Proof.
  intros Hw Hh Hy. unfold round_aspect_x.
  pose proof (floor_div_spec (y * w) h ltac:(lia)) as Hf.
  pose proof (ceil_div_spec (y * w) h ltac:(lia)) as Hc.
  set (f := y * w / h) in *. set (c := ceil_div (y * w) h) in *.
  assert (0 ≤ f) by nia. assert (1 ≤ c) by nia.
  destruct (_ <? _); destruct (decide (f = 0)) as [Hf0|Hf0]; try rewrite Hf0 in *;
    (first [rewrite Z.max_l by lia | rewrite Z.max_r by lia]); lia.
Qed.

(** The height chosen for a width-limited thumbnail is within one pixel
    of [x * h / w], and at least 1. *)
Lemma round_aspect_y_spec w h x :
  1 ≤ w → 1 ≤ h → 1 ≤ x →
  1 ≤ round_aspect_y w h x ∧ Z.abs (round_aspect_y w h x * w - x * h) < w.
Proof.
  intros Hw Hh Hx. unfold round_aspect_y.
  pose proof (floor_div_spec (x * h) w ltac:(lia)) as Hf.
  pose proof (ceil_div_spec (x * h) w ltac:(lia)) as Hc.
  set (f := x * h / w) in *. set (c := ceil_div (x * h) w) in *.
  assert (0 ≤ f) by nia. assert (1 ≤ c) by nia.
  destruct (f =? 0) eqn:Hf0.
  - apply Z.eqb_eq in Hf0. rewrite Hf0 in *. rewrite Z.max_r by lia. lia.
  - apply Z.eqb_neq in Hf0. destruct (_ <? _); rewrite Z.max_l by lia; lia.
Qed.

(** [preserve_aspect_ratio] returns nothing exactly when the image
    already fits in the requested box. *)
Lemma preserve_aspect_ratio_none w h x y :
  preserve_aspect_ratio w h (x, y) = None ↔ w ≤ x ∧ h ≤ y.
Proof.
  unfold preserve_aspect_ratio.
  destruct (w <=? x) eqn:E1, (h <=? y) eqn:E2; simpl; try (split; [done|lia]);
    destruct (w * y <=? x * h); split; try done; lia.
Qed.

(** The size [Image.thumbnail] computes is inside the requested box
    and inside the image (no upscaling), at least 1x1, and keeps the
    aspect ratio within one pixel: the limiting side is the box's, the
    other is within one pixel of the exact scaling. *)
Theorem preserve_aspect_ratio_bounds w h x y x' y' :
  1 ≤ w → 1 ≤ h → 1 ≤ x → 1 ≤ y →
  preserve_aspect_ratio w h (x, y) = Some (x', y') →
  1 ≤ x' ≤ Z.min x w ∧ 1 ≤ y' ≤ Z.min y h ∧
  ((y' = y ∧ Z.abs (x' * h - y * w) < h) ∨ (x' = x ∧ Z.abs (y' * w - x * h) < w)).
Proof.
  intros Hw Hh Hx Hy. unfold preserve_aspect_ratio.
  destruct ((w <=? x) && (h <=? y)) eqn:Hfit; [done|].
  apply andb_false_iff in Hfit as [Hfit|Hfit]; apply Z.leb_gt in Hfit;
    destruct (w * y <=? x * h) eqn:Hcmp; intros [= <- <-];
    [apply Z.leb_le in Hcmp|apply Z.leb_gt in Hcmp|apply Z.leb_le in Hcmp|apply Z.leb_gt in Hcmp].
  all: pose proof (round_aspect_x_spec w h y Hw Hh Hy);
    pose proof (round_aspect_y_spec w h x Hw Hh Hx); split_and!; nia.
Qed.

Section ThumbSize.
Context `{!ImageLib}.

(** C18: After [img.thumbnail((x, y))] the image is at least 1x1, fits in
    [x] by [y], is no larger than before, and keeps the aspect ratio
    within one pixel: [|x' * h - y' * w| < max w h] for a [w] by [h]
    image that becomes [x'] by [y']. *)
Theorem thumbnail_size im x y :
  1 ≤ x → 1 ≤ y → 1 ≤ (img_size im).1 → 1 ≤ (img_size im).2 →
  1 ≤ (img_size (thumbnail im (x, y))).1 ≤ Z.min x (img_size im).1 ∧
  1 ≤ (img_size (thumbnail im (x, y))).2 ≤ Z.min y (img_size im).2 ∧
  Z.abs ((img_size (thumbnail im (x, y))).1 * (img_size im).2 -
         (img_size (thumbnail im (x, y))).2 * (img_size im).1)
  < Z.max (img_size im).1 (img_size im).2.
Proof.
  intros Hx Hy Hw Hh. unfold thumbnail.
  destruct (img_size im) as [w h] eqn:Hs. cbn [fst snd] in Hw, Hh |- *.
  destruct (preserve_aspect_ratio w h (x, y)) as [[x' y']|] eqn:Hp.
  - destruct (preserve_aspect_ratio_bounds w h x y x' y' Hw Hh Hx Hy Hp) as (H1 & H2 & H3).
    destruct (decide ((w, h) = (x', y'))) as [Heq|Hne].
    + simplify_eq. rewrite Hs. simpl. split_and!; nia.
    + rewrite resize_size. simpl. split_and!; [lia..|].
      destruct H3 as [[-> ?]|[-> ?]]; lia.
  - apply preserve_aspect_ratio_none in Hp. rewrite Hs. simpl. split_and!; nia.
Qed.

End ThumbSize.

End Thumbnail.

(** ** A library of images that are only a size

    For running the model on concrete inputs: an image is its size; the
    bytes [[w1; w0; h1; h0]] decode to a [256 * w1 + w0] by
    [256 * h1 + h0] image (other bytes do not decode); the blur keeps
    the image; the encoder writes the size. *)
Module SizeOnly.

Definition byte_z (b : byte) : Z := Z.of_nat (Byte.to_nat b).

Definition decode (b : list byte) : res (Z * Z) :=
  match b with
  | [w1; w0; h1; h0] =>
      let w := 256 * byte_z w1 + byte_z w0 in let h := 256 * byte_z h1 + byte_z h0 in
      if (1 <=? w) && (1 <=? h) then Ok (w, h) else Raise UnidentifiedImageError
  | _ => Raise UnidentifiedImageError
  end.

Lemma decode_pos b im : decode b = Ok im → 1 ≤ im.1 ∧ 1 ≤ im.2.
Proof.
  unfold decode. destruct b as [|w1 [|w0 [|h1 [|h0 [|]]]]]; try done.
  destruct (_ && _) eqn:E; [|done]. intros [= <-]. simpl. apply andb_prop in E. lia.
Qed.

Lemma blur_id (r : Z) (im im' : Z * Z) : Ok (A:=Z * Z) im = Ok im' → im' = im.
Proof. by intros [= ->]. Qed.

#[export] Instance size_only_lib : ImageLib := {|
  image := Z * Z;
  img_size := id;
  pil_decode := decode;
  pil_blur := λ _ im, Ok im;
  pil_resize := λ _ s, s;
  pil_encode_jpeg := λ im, Ok (replicate (Z.to_nat im.1) x00 ++ replicate (Z.to_nat im.2) x01);
  decode_size_pos := decode_pos;
  blur_size := blur_id;
  resize_size := λ _ _, eq_refl;
|}.

(** The same images, with an encoder that refuses them, as Pillow's JPEG
    encoder refuses a mode JPEG cannot hold ([OSError]). *)
Definition no_jpeg_lib : ImageLib := {|
  image := Z * Z;
  img_size := id;
  pil_decode := decode;
  pil_blur := λ _ im, Ok im;
  pil_resize := λ _ s, s;
  pil_encode_jpeg := λ _, Raise ImageOSError;
  decode_size_pos := decode_pos;
  blur_size := blur_id;
  resize_size := λ _ _, eq_refl;
|}.

End SizeOnly.

Import Thumbnail.

(** A 1920x1080 photo asked into a 300x300 box becomes 300x169. *)
Lemma thumbnail_size_witness :
  let im : @image SizeOnly.size_only_lib := (1920, 1080)%Z in
  1 ≤ (img_size (thumbnail im (300, 300))).1 ≤ Z.min 300 (img_size im).1 ∧
  1 ≤ (img_size (thumbnail im (300, 300))).2 ≤ Z.min 300 (img_size im).2 ∧
  Z.abs ((img_size (thumbnail im (300, 300))).1 * (img_size im).2 -
         (img_size (thumbnail im (300, 300))).2 * (img_size im).1)
  < Z.max (img_size im).1 (img_size im).2.
Proof. intros im. apply thumbnail_size; vm_compute; congruence. Defined.
