(* ===== verification/Transformer.v ===== *)
(** * The processing stage: [process_image] (lines 62-76 of [src/main.py])

    [process_image(image_path)] takes the name of the file
    ([os.path.split(image_path)[-1]]), opens and decodes the image,
    blurs it, shrinks it in place to fit 300x300 and saves it as JPEG to
    [PROCESSED_FOLDER/thumb_<name>].  [Image.save] (Pillow) opens the
    target with [open(..., "w+b")], which creates or truncates it, runs
    the encoder, and when the encoder raises removes the file if the call
    created it, then re-raises:
<<
        created = not os.path.exists(filename)
        fp = builtins.open(filename, "w+b")
        try:
            save_handler(self, fp, filename)
        except Exception:
            fp.close()
            if created:
                os.remove(filename)
            raise
>>
    The sequential function is [process_image]; the worker process
    running it in the [ProcessPoolExecutor] is the task [pr_task], whose
    atomic steps are the operations on the shared file system: reading
    the input, opening the target, and writing it (or removing it). *)

From S2P Require Import Prelude PyStr PyPath FileSys Executor ImageLib.
Import PyStr PyPath FileSys Executor Thumbnail.

Module Transformer.

(** Line 70 and the radius of line 72. *)
Definition thumb_size : Z * Z := (300, 300)%Z.
Definition blur_radius : Z := 15%Z.

Section Transformer.
Context `{!ImageLib}.
(** [cwd] is [os.getcwd()] as components; [processed] is
    [PROCESSED_FOLDER]. *)
Context (cwd : list string) (processed : string).

(** [Image.open(p)] followed by the load the filter forces: read the
    file, decode it. *)
Definition image_open (p : list string) : stm FS image :=
  data <- read_file p ;;
  st_lift (pil_decode data).

(** [img.save(p, "JPEG")]: [open(p, "w+b")], then the encoder, which
    writes all of its output or raises before writing; when it raises,
    the file is removed if [save] created it. *)
Definition image_save (img : image) (p : list string) : stm FS unit := λ fs,
  let created := negb (path_exists fs p) in
  (open_wb p ;;;
   match pil_encode_jpeg img with
   | Ok data => _ <- write_at p 0 data ;; st_ret ()
   | Raise e => (if created then os_remove p else st_ret ()) ;;; st_raise e
   end) fs.

(** [os.path.join(PROCESSED_FOLDER, f"thumb_{img_name}")], resolved. *)
Definition thumb_target (img_name : string) : list string :=
  os_resolve cwd (processed </> ("thumb_" +:+ img_name)).

(** [process_image(image_path)], run by itself. *)
Definition process_image (image_path : string) : stm FS unit :=
  let img_name := (path_split image_path).2 in
  img <- image_open (os_resolve cwd image_path) ;;
  img <- st_lift (pil_blur blur_radius img) ;;
  image_save (thumbnail img thumb_size) (thumb_target img_name).

(** The state of the worker running [process_image(image_path)]. *)
Inductive pr_task :=
  | PrStart (image_path : string)
  | PrLoaded (img_name : string) (img : image)
  | PrOpened (path : list string) (created : bool) (img : image)
  | PrSaved (path : list string)
  | PrFailed (e : exc).

(** One atomic step of the worker; a raised exception ends it in
    [PrFailed], where its future keeps it. *)
Definition pr_step (fs : FS) (t : pr_task) : FS * pr_task :=
  match t with
  | PrStart path =>
      match image_open (os_resolve cwd path) fs with
      | (Raise e, fs') => (fs', PrFailed e)
      | (Ok img, fs') =>
          match pil_blur blur_radius img with
          | Raise e => (fs', PrFailed e)
          | Ok img' => (fs', PrLoaded (path_split path).2 (thumbnail img' thumb_size))
          end
      end
  | PrLoaded name img =>
      let p := thumb_target name in
      let created := negb (path_exists fs p) in
      match open_wb p fs with
      | (Ok _, fs') => (fs', PrOpened p created img)
      | (Raise e, fs') => (fs', PrFailed e)
      end
  | PrOpened p created img =>
      match pil_encode_jpeg img with
      | Ok data => ((write_at p 0 data fs).2, PrSaved p)
      | Raise e =>
          if created then
            match os_remove p fs with
            | (Ok _, fs') => (fs', PrFailed e)
            | (Raise e', fs') => (fs', PrFailed e')
            end
          else (fs, PrFailed e)
      end
  | PrSaved _ | PrFailed _ => (fs, t)
  end.

Definition pr_done (t : pr_task) : bool :=
  match t with PrSaved _ | PrFailed _ => true | _ => false end.

Definition pr_measure (t : pr_task) : nat :=
  match t with
  | PrStart _ => 3 | PrLoaded _ _ => 2 | PrOpened _ _ _ => 1
  | PrSaved _ | PrFailed _ => 0
  end.

Lemma pr_measure_dec fs t : pr_done t = false → pr_measure (pr_step fs t).2 < pr_measure t.
Proof.
  destruct t; simpl; try done; intros _; repeat case_match; simpl; lia.
Qed.

#[export] Instance pr_task_Task : Task FS pr_task := {|
  task_step := pr_step;
  task_done := pr_done;
  task_measure := pr_measure;
  task_measure_dec := pr_measure_dec;
|}.

(** What the future of a finished worker holds. *)
Definition pr_result (t : pr_task) : res unit :=
  match t with PrFailed e => Raise e | _ => Ok () end.

End Transformer.

(** The processing stage (lines 87-88). *)
Definition pr_stage `{!ImageLib} (cwd : list string) (processed : string) :=
  @Executor.stage_run FS pr_task (pr_task_Task cwd processed).
Definition pr_pool_step `{!ImageLib} (cwd : list string) (processed : string) :=
  @Executor.pool_step FS pr_task (pr_task_Task cwd processed).

(** A step of a worker keeps the tree invariant of the file system. *)
Lemma pr_step_wf `{!ImageLib} cwd processed fs t :
  fs_wf fs → fs_wf (pr_step cwd processed fs t).1.
Proof.
  intros Hwf. destruct t as [path|name img|p created img|p|e]; simpl; try done.
  - unfold image_open, st_bind, st_lift.
    rewrite (surjective_pairing (read_file _ fs)), read_file_state.
    by repeat case_match; simplify_eq/=.
  - pose proof (open_wb_wf (thumb_target cwd processed name) fs Hwf).
    by destruct (open_wb _ _) as [[]].
  - destruct (pil_encode_jpeg img); [by apply write_at_wf|].
    destruct created; [|done]. pose proof (os_remove_wf p fs Hwf).
    by destruct (os_remove _ _) as [[]].
Qed.

Lemma pr_stage_wf `{!ImageLib} cwd processed fs ts fs' ts' :
  pr_stage cwd processed (fs, ts) (fs', ts') → fs_wf fs → fs_wf fs'.
Proof.
  intros [Hrun _] Hwf.
  exact (@Executor.pool_state_invariant _ _ (pr_task_Task cwd processed) fs_wf (fs, ts) (fs', ts')
           (λ s t Hs _, pr_step_wf cwd processed s t Hs) Hwf Hrun).
Qed.

(** ** A worker run alone computes [process_image] *)

Section Refinement.
Context `{!ImageLib} (cwd : list string) (processed : string).

Lemma image_open_spec p fs :
  image_open p fs = ((read_file p fs).1 ≫= pil_decode, fs).
Proof.
  unfold image_open, st_bind, st_lift.
  rewrite (surjective_pairing (read_file p fs)), read_file_state.
  by destruct (read_file p fs).1.
Qed.

(** C17: The task semantics refines the sequential one: a pool with the one
    worker of [process_image(path)] ends in the file system and with the
    outcome of the sequential [process_image]. *)
Theorem pr_task_refines path fs fs' t' :
  pr_stage cwd processed (fs, [PrStart path]) (fs', [t']) →
  process_image cwd processed path fs = (pr_result t', fs').
Proof.
  intros Hrun. apply Executor.stage_run_single in Hrun. simpl in Hrun.
  unfold process_image, image_save, st_bind, st_lift, st_ret, st_raise, pr_step in *.
  destruct (image_open _ fs) as [[img|e] fs1]; simpl in Hrun; [|by simplify_eq].
  destruct (pil_blur _ img) as [img'|e]; simpl in Hrun; [|by simplify_eq].
  destruct (open_wb _ fs1) as [[[]|e] fs2]; simpl in Hrun; [|by simplify_eq].
  destruct (pil_encode_jpeg _) as [data|e]; simpl in Hrun.
  - rewrite write_at_spec in Hrun |- *. by simplify_eq.
  - destruct (negb _); [|by simplify_eq].
    destruct (os_remove _ fs2) as [[[]|e'] fs3]; by simplify_eq.
Qed.

End Refinement.

(** ** Every interleaving of the worker processes *)

Lemma thumb_is_name n : str_has "/" n = false → is_name ("thumb_" +:+ n).
Proof.
  intros Hn. rewrite !str_app_cons, str_app_nil_l. split_and!; [|done|done].
  cbn [str_has]. rewrite Hn. done.
Qed.

(** ** [process_image] run by itself *)

Section Sequential.
Context `{!ImageLib} (cwd : list string) (processed : string).
Context (path : string) (fs : FS) (img img' : image).
Hypothesis Hread : (read_file (os_resolve cwd path) fs).1 ≫= pil_decode = Ok img.
Hypothesis Hblur : pil_blur blur_radius img = Ok img'.
Hypothesis Hdir : check_dirs fs [] (os_resolve cwd processed) = Ok ().
Hypothesis Hnotdir : fs !! thumb_target cwd processed (path_split path).2 ≠ Some IDir.

Lemma process_image_unfold :
  process_image cwd processed path fs =
  image_save (thumbnail img' thumb_size) (thumb_target cwd processed (path_split path).2) fs.
Proof.
  unfold process_image, st_bind, st_lift. rewrite image_open_spec, Hread. simpl.
  by rewrite Hblur.
Qed.

Lemma thumb_target_parent :
  thumb_target cwd processed (path_split path).2 =
  os_resolve cwd processed ++ ["thumb_" +:+ (path_split path).2].
Proof. apply os_resolve_join, thumb_is_name, path_split_tail. Qed.

(** C15: When the input decodes and blurs and the encoder succeeds,
    [process_image] writes the encoding of the thumbnail to
    [PROCESSED_FOLDER/thumb_<name>], replacing what was there, and
    changes nothing else. *)
Theorem process_image_ok data :
  pil_encode_jpeg (thumbnail img' thumb_size) = Ok data →
  process_image cwd processed path fs
  = (Ok (), <[thumb_target cwd processed (path_split path).2 := IFile data]> fs).
Proof.
  intros Henc. rewrite process_image_unfold. unfold image_save, st_bind, st_ret.
  rewrite Henc. rewrite thumb_target_parent in Hnotdir |- *.
  rewrite open_wb_ok by done. simpl. by rewrite write_at_insert_empty.
Qed.

(** C11: When the JPEG encoder raises, [process_image] raises the same
    exception; the target is removed when the call created it, and left
    as an empty file when a thumbnail was there before: the old
    thumbnail is lost. *)
Theorem process_image_encode_error e :
  pil_encode_jpeg (thumbnail img' thumb_size) = Raise e →
  process_image cwd processed path fs
  = (Raise e,
     match fs !! thumb_target cwd processed (path_split path).2 with
     | None => fs
     | Some _ => <[thumb_target cwd processed (path_split path).2 := IFile []]> fs
     end).
Proof.
  intros Henc. rewrite process_image_unfold. unfold image_save, st_bind, st_ret, st_raise.
  rewrite Henc. rewrite thumb_target_parent in Hnotdir |- *.
  rewrite path_exists_parent, open_wb_ok by done.
  destruct (fs !! _) as [v|] eqn:Hv; simpl; [done|].
  by rewrite os_remove_insert.
Qed.

End Sequential.

Section Concurrent.
Context `{!ImageLib} (cwd : list string) (processed : string) (fs0 : FS).

Definition in_path (u : string) : list string := os_resolve cwd u.
Definition out_path (u : string) : list string := thumb_target cwd processed (path_split u).2.

(** What the worker of [u] computes from the initial file system: the
    thumbnail, the outcome its future holds, and the target's entry at
    the end. *)
Definition thumb_image (u : string) : res image :=
  img ← (read_file (in_path u) fs0).1 ≫= pil_decode;
  img ← pil_blur blur_radius img;
  mret (thumbnail img thumb_size).

Definition thumb_result (u : string) : res unit :=
  img ← thumb_image u; _ ← pil_encode_jpeg img; mret ().

Definition out_expected (u : string) : option inode :=
  match thumb_image u with
  | Raise _ => fs0 !! out_path u
  | Ok img =>
      match pil_encode_jpeg img with
      | Ok data => Some (IFile data)
      | Raise _ => match fs0 !! out_path u with None => None | Some _ => Some (IFile []) end
      end
  end.

Lemma out_path_parent u :
  out_path u = os_resolve cwd processed ++ ["thumb_" +:+ (path_split u).2].
Proof. apply os_resolve_join, thumb_is_name, path_split_tail. Qed.

Lemma out_path_not_prefix u k :
  0 < k ≤ length (os_resolve cwd processed) → take k (os_resolve cwd processed) ≠ out_path u.
Proof.
  intros Hk Heq. apply (f_equal length) in Heq.
  rewrite out_path_parent, length_take, length_app in Heq. simpl in Heq. lia.
Qed.

(** The state of the worker of [u], read against the file system. *)
Definition task_inv (fs : FS) (u : string) (t : pr_task) : Prop :=
  match t with
  | PrStart u' => u' = u ∧ fs !! out_path u = fs0 !! out_path u
  | PrLoaded n img =>
      n = (path_split u).2 ∧ thumb_image u = Ok img ∧ fs !! out_path u = fs0 !! out_path u
  | PrOpened p created img =>
      p = out_path u ∧ thumb_image u = Ok img ∧
      created = bool_decide (fs0 !! out_path u = None) ∧ fs !! p = Some (IFile [])
  | PrSaved p => p = out_path u ∧ fs !! p = out_expected u ∧ thumb_result u = Ok ()
  | PrFailed e => fs !! out_path u = out_expected u ∧ thumb_result u = Raise e
  end.

Lemma pr_task_inv_frame fs fs' u t :
  fs' !! out_path u = fs !! out_path u → task_inv fs u t → task_inv fs' u t.
Proof. intros Heq. destruct t; simpl; intros; destruct_and?; subst; rewrite ?Heq; naive_solver. Qed.

Lemma pr_task_inv_done fs u t :
  pr_done t = true → task_inv fs u t →
  fs !! out_path u = out_expected u ∧ pr_result t = thumb_result u.
Proof. destruct t; simpl; try done; naive_solver. Qed.

(** One step of the worker of [u] keeps its invariant and changes the
    file system at most at its target, provided [PROCESSED_FOLDER] is a
    directory and the input's path reads as it did initially. *)
Lemma pr_step_inv fs u t :
  check_dirs fs [] (os_resolve cwd processed) = Ok () →
  (∀ k, 0 < k ≤ length (in_path u) → fs !! take k (in_path u) = fs0 !! take k (in_path u)) →
  fs0 !! out_path u ≠ Some IDir →
  task_inv fs u t → pr_done t = false →
  task_inv (pr_step cwd processed fs t).1 u (pr_step cwd processed fs t).2 ∧
  ∀ q, q ≠ out_path u → (pr_step cwd processed fs t).1 !! q = fs !! q.
Proof.
  intros Hd Hin Hdir Hinv Hnd.
  destruct t as [u'|n img|p created img|p|e]; simpl in Hinv, Hnd |- *; try done.
  - destruct Hinv as [-> Hout]. rewrite image_open_spec. fold (in_path u).
    rewrite (read_file_frame _ fs0 fs) by done.
    destruct (_ ≫= pil_decode) as [img|e] eqn:Hdec;
      [destruct (pil_blur _ img) as [img'|e] eqn:Hb|]; simpl; (split; [|done]);
      unfold out_expected, thumb_result, thumb_image; rewrite Hdec; simpl; rewrite ?Hb; done.
  - destruct Hinv as (-> & Himg & Hout). fold (out_path u).
    rewrite out_path_parent in Hout, Hdir |- *.
    rewrite open_wb_ok, path_exists_parent by (by rewrite ?Hout). simpl.
    rewrite <-out_path_parent in *.
    split; [|intros q Hq; by rewrite lookup_insert_ne].
    split_and!; [done|done| |by rewrite lookup_insert_eq].
    rewrite Hout. by destruct (fs0 !! out_path u).
  - destruct Hinv as (-> & Himg & -> & Hout).
    destruct (pil_encode_jpeg img) as [data|e] eqn:Henc.
    + simpl. rewrite write_at_spec, Hout. simpl. rewrite overlay_nil_0.
      split; [|intros q Hq; by rewrite lookup_insert_ne].
      unfold out_expected, thumb_result. rewrite Himg. simpl. rewrite Henc.
      split_and!; [done|by rewrite lookup_insert_eq|done].
    + destruct (fs0 !! out_path u) as [v|] eqn:H0.
      * rewrite bool_decide_false by done. simpl.
        unfold out_expected, thumb_result. rewrite Himg. simpl. rewrite Henc, H0. done.
      * rewrite bool_decide_true by done. rewrite out_path_parent in Hout |- *.
        rewrite (os_remove_file _ _ _ _ Hd Hout). simpl. rewrite <-out_path_parent.
        split; [|intros q Hq; by rewrite lookup_delete_ne].
        unfold out_expected, thumb_result. rewrite Himg. simpl. rewrite Henc, H0.
        by rewrite lookup_delete_eq.
Qed.

End Concurrent.

(** What a worker leaves depends on the file system only through its
    input file and its target: a target that already holds what the
    worker left is left as it is. *)
Lemma out_expected_stable `{!ImageLib} cwd processed fs0 fs1 u :
  (read_file (in_path cwd u) fs1).1 = (read_file (in_path cwd u) fs0).1 →
  fs1 !! out_path cwd processed u = out_expected cwd processed fs0 u →
  out_expected cwd processed fs1 u = out_expected cwd processed fs0 u.
Proof.
  intros Hr Ho. unfold out_expected in *.
  assert (thumb_image cwd fs1 u = thumb_image cwd fs0 u) as Ht by (unfold thumb_image; by rewrite Hr).
  rewrite Ht, Ho. destruct (thumb_image cwd fs0 u) as [img|]; [|done].
  destruct (pil_encode_jpeg img); [done|]. by destruct (fs0 !! out_path cwd processed u).
Qed.

Section Stage.
Context `{!ImageLib} (cwd : list string) (processed : string).
Context (paths : list string) (fs0 : FS).

(** The invariant of the processing pool: [PROCESSED_FOLDER] stays a
    directory, the worker of [paths[i]] satisfies [task_inv], and the
    paths no worker targets keep their initial contents. *)
Definition stage_inv (p : FS * list pr_task) : Prop :=
  check_dirs p.1 [] (os_resolve cwd processed) = Ok () ∧
  length p.2 = length paths ∧
  (∀ i u t, paths !! i = Some u → p.2 !! i = Some t → task_inv cwd processed fs0 p.1 u t) ∧
  (∀ q, (∀ u, u ∈ paths → q ≠ out_path cwd processed u) → p.1 !! q = fs0 !! q).

(** The hypotheses of the stage: the names are distinct,
    [PROCESSED_FOLDER] is a directory with no directory at a target, and
    no target is an input or a directory above one. *)
Definition stage_pre : Prop :=
  NoDup (map (λ u, (path_split u).2) paths) ∧
  check_dirs fs0 [] (os_resolve cwd processed) = Ok () ∧
  (∀ u, u ∈ paths → fs0 !! out_path cwd processed u ≠ Some IDir) ∧
  (∀ u v k, u ∈ paths → v ∈ paths → 0 < k ≤ length (in_path cwd u) →
     take k (in_path cwd u) ≠ out_path cwd processed v).

Lemma out_path_inj i j ui uj :
  NoDup (map (λ u, (path_split u).2) paths) →
  paths !! i = Some ui → paths !! j = Some uj → i ≠ j →
  out_path cwd processed ui ≠ out_path cwd processed uj.
Proof.
  intros Hnd Hi Hj Hij. rewrite !out_path_parent. intros [_ Heq]%app_inj_tail.
  apply str_app_inj_l in Heq. apply Hij. eapply NoDup_lookup; [exact Hnd| |].
  - by rewrite list_lookup_fmap, Hi.
  - by rewrite list_lookup_fmap, Hj, Heq.
Qed.

Lemma stage_inv_step p p' :
  stage_pre → stage_inv p → pr_pool_step cwd processed p p' → stage_inv p'.
Proof.
  intros (Hnd & _ & Hdir & Hio) (Hd & Hlen & Htasks & Hframe) Hs. inv Hs. simpl in *.
  rename select (ts !! i = Some t) into Hi. rename select (pr_done t = false) into Hdone.
  destruct (lookup_lt_is_Some_2 paths i) as [u Hu].
  { rewrite <-Hlen. by eapply lookup_lt_Some. }
  assert (u ∈ paths) as Hup by (by eapply list_elem_of_lookup_2).
  destruct (pr_step_inv cwd processed fs0 s u t Hd) as [Hinv Hother].
  { intros k Hk. apply Hframe. intros v Hv. by apply Hio. }
  { by apply Hdir. }
  { by eapply Htasks. }
  { done. }
  split_and!.
  - simpl. rewrite (check_dirs_frame s); [done|]. intros k Hk. apply Hother, out_path_not_prefix, Hk.
  - simpl. by rewrite length_insert.
  - intros j uj tj Huj Htj. simpl in Htj |- *. destruct (decide (i = j)) as [<-|Hij].
    + rewrite list_lookup_insert_eq in Htj by (by eapply lookup_lt_Some). simplify_eq. done.
    + rewrite list_lookup_insert_ne in Htj by done.
      eapply pr_task_inv_frame; [|by eapply Htasks].
      apply Hother. apply not_eq_sym. by eapply out_path_inj.
  - intros q Hq. simpl. rewrite Hother; [by apply Hframe|]. by apply Hq.
Qed.

Lemma stage_inv_run p' :
  stage_pre → rtc (pr_pool_step cwd processed) (fs0, map PrStart paths) p' → stage_inv p'.
Proof.
  intros Hpre Hrun. eapply Executor.pool_invariant; [| |exact Hrun].
  - intros q q' Hq Hs. by eapply stage_inv_step.
  - destruct Hpre as (_ & Hd & _). split_and!; simpl; [done|by rewrite length_map| |done].
    intros i u t Hu Hti. rewrite list_lookup_fmap, Hu in Hti. by simplify_eq/=.
Qed.

(** Every interleaving of the worker processes that completes leaves
    at the target [PROCESSED_FOLDER/thumb_<name>] of each input what
    [process_image] run alone on the initial file system leaves there:
    the JPEG encoding of the blurred thumbnail when every step succeeds;
    nothing (when the target did not exist) or an empty file (when it
    did) when the encoder raises; the initial entry when reading,
    decoding or blurring raises.  Every other path, the inputs included,
    keeps its initial entry. *)
Theorem transform_stage_correct fs' ts' :
  stage_pre →
  pr_stage cwd processed (fs0, map PrStart paths) (fs', ts') →
  (∀ u, u ∈ paths → fs' !! out_path cwd processed u = out_expected cwd processed fs0 u) ∧
  (∀ q, (∀ u, u ∈ paths → q ≠ out_path cwd processed u) → fs' !! q = fs0 !! q).
Proof.
  intros Hpre [Hrun Hall].
  destruct (stage_inv_run _ Hpre Hrun) as (_ & Hlen & Htasks & Hframe).
  split; [|done]. intros u Hu. simpl in *.
  apply list_elem_of_lookup_1 in Hu as [i Hi].
  destruct (lookup_lt_is_Some_2 ts' i) as [t Hti].
  { rewrite Hlen. by eapply lookup_lt_Some. }
  eapply pr_task_inv_done; [|by eapply Htasks].
  exact (Executor.all_done_lookup _ _ _ Hall Hti).
Qed.

(** The stage run again over a file system where every target already
    holds what its worker would leave changes nothing. *)
Lemma transform_stage_fixed fs' ts' :
  stage_pre →
  pr_stage cwd processed (fs0, map PrStart paths) (fs', ts') →
  (∀ u, u ∈ paths → out_expected cwd processed fs0 u = fs0 !! out_path cwd processed u) →
  fs' = fs0.
Proof.
  intros Hpre Hst Hfix. destruct (transform_stage_correct fs' ts' Hpre Hst) as [Hout Hframe].
  apply map_eq. intros q.
  destruct (decide (Exists (λ u, out_path cwd processed u = q) paths)) as [Hex|Hno].
  - apply Exists_exists in Hex as (u & Hu & <-). rewrite Hout by done. by apply Hfix.
  - apply Hframe. intros u Hu ->. apply Hno, Exists_exists. eauto.
Qed.

(** C10: The future of each worker holds the outcome of [process_image]
    on the initial file system: the exception of the first step that
    raises, or success.  A worker that raises stops no other. *)
Theorem transform_stage_results fs' ts' i u :
  stage_pre →
  pr_stage cwd processed (fs0, map PrStart paths) (fs', ts') →
  paths !! i = Some u →
  ∃ t, ts' !! i = Some t ∧ pr_result t = thumb_result cwd fs0 u.
Proof.
  intros Hpre [Hrun Hall] Hi.
  destruct (stage_inv_run _ Hpre Hrun) as (_ & Hlen & Htasks & _). simpl in *.
  destruct (lookup_lt_is_Some_2 ts' i) as [t Hti].
  { rewrite Hlen. by eapply lookup_lt_Some. }
  exists t. split; [done|].
  eapply pr_task_inv_done; [|by eapply Htasks].
  exact (Executor.all_done_lookup _ _ _ Hall Hti).
Qed.


(** The last condition of [stage_pre] holds when every input path is
    shorter than every target, as for [IMAGE_FOLDER/<name>] and
    [IMAGE_FOLDER/processed/thumb_<name>]. *)
Lemma stage_pre_shorter :
  Forall (λ u, Forall (λ v, length (in_path cwd u) < length (out_path cwd processed v)) paths) paths →
  ∀ u v k, u ∈ paths → v ∈ paths → 0 < k ≤ length (in_path cwd u) →
    take k (in_path cwd u) ≠ out_path cwd processed v.
Proof.
  rewrite Forall_forall. intros Hl u v k Hu Hv Hk Heq.
  specialize (Hl u Hu). rewrite Forall_forall in Hl. specialize (Hl v Hv).
  apply (f_equal length) in Heq. rewrite length_take in Heq. lia.
Qed.

End Stage.

(** ** Every interleaving is the sequential loop *)

Section Serial.
Context `{!ImageLib} (cwd : list string) (processed : string).

(** The map with the entry of [q] set to [o] (removed for [None]). *)
Definition set_entry (fs : FS) (q : list string) (o : option inode) : FS :=
  match o with Some v => <[q := v]> fs | None => delete q fs end.

Lemma set_entry_lookup fs q o : set_entry fs q o !! q = o.
Proof. destruct o; simpl; [apply lookup_insert_eq|apply lookup_delete_eq]. Qed.

Lemma set_entry_lookup_ne fs q q' o : q ≠ q' → set_entry fs q o !! q' = fs !! q'.
Proof. intros Hq. destruct o; simpl; [by apply lookup_insert_ne|by apply lookup_delete_ne]. Qed.

Lemma set_entry_same fs q : set_entry fs q (fs !! q) = fs.
Proof. destruct (fs !! q) eqn:Hq; simpl; [by apply insert_id|by apply delete_id]. Qed.

(** [process_image] on every branch: its outcome is [thumb_result] and
    it sets the target to [out_expected], both read on the file system
    it starts from. *)
Lemma process_image_spec u fs :
  check_dirs fs [] (os_resolve cwd processed) = Ok () →
  fs !! out_path cwd processed u ≠ Some IDir →
  process_image cwd processed u fs =
  (thumb_result cwd fs u, set_entry fs (out_path cwd processed u) (out_expected cwd processed fs u)).
Proof.
  intros Hd Hnd. unfold process_image, st_bind, st_lift. rewrite image_open_spec.
  unfold thumb_result, out_expected, thumb_image. fold (in_path cwd u).
  destruct ((read_file (in_path cwd u) fs).1 ≫= pil_decode) as [img|e]; simpl;
    [|by rewrite set_entry_same].
  destruct (pil_blur blur_radius img) as [img'|e]; simpl; [|by rewrite set_entry_same].
  change (thumb_target cwd processed (path_split u).2) with (out_path cwd processed u).
  unfold image_save, st_bind, st_ret, st_raise.
  rewrite out_path_parent in Hnd |- *. rewrite path_exists_parent, open_wb_ok by done. simpl.
  destruct (pil_encode_jpeg _) as [data|e]; simpl; [by rewrite write_at_insert_empty|].
  destruct (fs !! _) as [v|] eqn:Hv; simpl; [done|].
  rewrite os_remove_insert by done. by rewrite delete_id.
Qed.

(** [fs] reads like [fs0] at the input and at the target of [u]. *)
Definition out_frame (fs0 fs : FS) (u : string) : Prop :=
  (∀ k, 0 < k ≤ length (in_path cwd u) → fs !! take k (in_path cwd u) = fs0 !! take k (in_path cwd u)) ∧
  fs !! out_path cwd processed u = fs0 !! out_path cwd processed u.

Lemma out_expected_frame fs0 fs u :
  out_frame fs0 fs u →
  out_expected cwd processed fs u = out_expected cwd processed fs0 u ∧
  thumb_result cwd fs u = thumb_result cwd fs0 u.
Proof.
  intros [Hin Hout]. unfold out_expected, thumb_result, thumb_image.
  rewrite (read_file_frame _ fs0 fs), Hout by done. done.
Qed.

(** [for path in paths: process_image(path)], each exception caught and
    kept. *)
Fixpoint process_seq (paths : list string) (fs : FS) : FS * list (res unit) :=
  match paths with
  | [] => (fs, [])
  | u :: us =>
      let '(r, fs1) := process_image cwd processed u fs in
      let '(fs2, rs) := process_seq us fs1 in (fs2, r :: rs)
  end.

(** The entry of [q] after processing [paths]: what the worker of the
    path targeting [q] computes from [fs0], else the entry in [fs]. *)
Fixpoint pr_final (paths : list string) (fs0 fs : FS) (q : list string) : option inode :=
  match paths with
  | [] => fs !! q
  | u :: us =>
      if decide (out_path cwd processed u = q) then out_expected cwd processed fs0 u
      else pr_final us fs0 fs q
  end.

Lemma pr_final_notin paths fs0 fs q :
  (∀ u, u ∈ paths → out_path cwd processed u ≠ q) → pr_final paths fs0 fs q = fs !! q.
Proof.
  induction paths as [|u us IH]; intros Hq; simpl; [done|].
  rewrite decide_False by (apply Hq; by left). apply IH. intros v Hv. apply Hq. by right.
Qed.

Lemma pr_final_frame paths fs0 fs fs1 q :
  fs1 !! q = fs !! q → pr_final paths fs0 fs1 q = pr_final paths fs0 fs q.
Proof. intros Hq. induction paths as [|u us IH]; simpl; [done|]. by rewrite IH. Qed.

Lemma out_path_name_eq u v :
  out_path cwd processed u = out_path cwd processed v → (path_split u).2 = (path_split v).2.
Proof. rewrite !out_path_parent. intros [_ Heq]%app_inj_tail. by apply str_app_inj_l in Heq. Qed.

Lemma pr_final_at paths fs0 fs u :
  NoDup (map (λ u, (path_split u).2) paths) → u ∈ paths →
  pr_final paths fs0 fs (out_path cwd processed u) = out_expected cwd processed fs0 u.
Proof.
  induction paths as [|v us IH]; intros Hnd Hu; [by apply not_elem_of_nil in Hu|].
  simpl in Hnd. apply NoDup_cons in Hnd as [Hv Hnd]. simpl.
  apply elem_of_cons in Hu as [->|Hu]; [by rewrite decide_True|].
  case_decide as Heq; [|by apply IH]. exfalso. apply Hv.
  rewrite (out_path_name_eq v u Heq). apply list_elem_of_fmap. by exists u.
Qed.

Lemma process_seq_spec us fs0 fs :
  NoDup (map (λ u, (path_split u).2) us) →
  check_dirs fs [] (os_resolve cwd processed) = Ok () →
  (∀ u, u ∈ us → fs0 !! out_path cwd processed u ≠ Some IDir) →
  (∀ u, u ∈ us → out_frame fs0 fs u) →
  (∀ u v k, u ∈ us → v ∈ us → 0 < k ≤ length (in_path cwd u) →
     take k (in_path cwd u) ≠ out_path cwd processed v) →
  (∀ q, (process_seq us fs).1 !! q = pr_final us fs0 fs q) ∧
  (process_seq us fs).2 = map (thumb_result cwd fs0) us.
Proof.
  revert fs. induction us as [|u us IH]; intros fs Hnd Hd Hdir Hfr Hio; [done|].
  simpl in Hnd. apply NoDup_cons in Hnd as [Hu Hnd].
  assert (u ∈ u :: us) as Huu by by left.
  assert (∀ v, v ∈ us → out_path cwd processed v ≠ out_path cwd processed u) as Hne.
  { intros v Hv Heq%out_path_name_eq. apply Hu. rewrite <-Heq. apply list_elem_of_fmap. by exists v. }
  destruct (out_expected_frame fs0 fs u (Hfr u Huu)) as [Hoe Htr].
  cbn [process_seq]. rewrite process_image_spec.
  2: done.
  2: { rewrite (proj2 (Hfr u Huu)). by apply Hdir. }
  rewrite Hoe, Htr.
  set (fs1 := set_entry fs (out_path cwd processed u) (out_expected cwd processed fs0 u)).
  assert (∀ q, q ≠ out_path cwd processed u → fs1 !! q = fs !! q) as Hfs1.
  { intros q Hq. apply set_entry_lookup_ne. by apply not_eq_sym. }
  destruct (IH fs1) as [Hlook Hres]; [done| | | | |].
  - rewrite (check_dirs_frame fs); [done|]. intros k Hk. apply Hfs1, out_path_not_prefix, Hk.
  - intros v Hv. apply Hdir. by right.
  - intros v Hv. destruct (Hfr v ltac:(by right)) as [Hin Hout]. split.
    + intros k Hk. rewrite Hfs1; [by apply Hin|]. apply (Hio v u k); [by right|done|done].
    + rewrite Hfs1; [done|]. by apply Hne.
  - intros v w k Hv Hw. apply Hio; by right.
  - destruct (process_seq us fs1) as [fs2 rs]. simpl in *. split; [|by rewrite Hres].
    intros q. rewrite Hlook. case_decide as Hq.
    + subst q. rewrite pr_final_notin by done. apply set_entry_lookup.
    + apply pr_final_frame. by apply Hfs1, not_eq_sym.
Qed.

End Serial.

Section SerialStage.
Context `{!ImageLib} (cwd : list string) (processed : string).
Context (paths : list string) (fs0 : FS).

(** C4: Every interleaving of the worker processes that completes ends in
    the file system the sequential loop [for path in paths:
    process_image(path)] (each exception caught) ends in, and the
    futures hold the outcomes of the sequential calls: the stage is
    serializable. *)
Theorem transform_stage_serializable fs' ts' :
  stage_pre cwd processed paths fs0 →
  pr_stage cwd processed (fs0, map PrStart paths) (fs', ts') →
  (fs', map pr_result ts') = process_seq cwd processed paths fs0.
Proof.
  intros Hpre Hst. pose proof Hpre as (Hnd & Hd & Hdir & Hio).
  destruct (process_seq_spec cwd processed paths fs0 fs0 Hnd Hd Hdir) as [Hlook Hres];
    [by intros u _; split|done|].
  destruct (transform_stage_correct cwd processed paths fs0 fs' ts' Hpre Hst) as [Hfiles Hframe].
  destruct Hst as [Hrun Hall].
  destruct (stage_inv_run cwd processed paths fs0 _ Hpre Hrun) as (_ & Hlen & Htasks & _).
  simpl in *. destruct (process_seq cwd processed paths fs0) as [fsS rs]. simpl in *. f_equal.
  - apply map_eq. intros q. rewrite Hlook.
    destruct (decide (Exists (λ u, out_path cwd processed u = q) paths)) as [Hex|Hno].
    + apply Exists_exists in Hex as (u & Hu & <-). rewrite pr_final_at by done. by apply Hfiles.
    + rewrite pr_final_notin; [apply Hframe|]; intros u Hu Heq; apply Hno, Exists_exists; eauto.
  - rewrite Hres. apply list_eq. intros i. rewrite !list_lookup_fmap.
    destruct (paths !! i) as [u|] eqn:Hi.
    + destruct (lookup_lt_is_Some_2 ts' i) as [t Hti].
      { rewrite Hlen. by eapply lookup_lt_Some. }
      rewrite Hti. simpl. f_equal. eapply pr_task_inv_done; [|by eapply Htasks].
      exact (Executor.all_done_lookup _ _ _ Hall Hti).
    + rewrite lookup_ge_None_2; [done|]. rewrite Hlen. by apply lookup_ge_None_1.
Qed.

End SerialStage.

(** ** Concrete runs *)

Section Demo.
#[local] Existing Instance SizeOnly.size_only_lib.

Definition demo_cwd : list string := ["home"; "u"].
Definition demo_processed : string := "/home/u/images/processed".

(** [a.jpg] is a 600x400 image; [b.jpg] is an error page that does not
    decode. *)
Definition demo_fs : FS :=
  {[ ["home"] := IDir; ["home"; "u"] := IDir; ["home"; "u"; "images"] := IDir;
     ["home"; "u"; "images"; "processed"] := IDir;
     ["home"; "u"; "images"; "a.jpg"] := IFile [x02; x58; x01; x90];
     ["home"; "u"; "images"; "b.jpg"] := IFile [x34; x30; x34] ]}.

Definition demo_paths : list string := ["/home/u/images/a.jpg"; "/home/u/images/b.jpg"].

Lemma demo_stage_pre :
  stage_pre demo_cwd demo_processed demo_paths demo_fs.
Proof.
  split_and!.
  - apply (bool_decide_unpack _). vm_compute. exact I.
  - vm_compute. reflexivity.
  - apply Forall_forall. apply (bool_decide_unpack _). vm_compute. exact I.
  - apply stage_pre_shorter. apply (bool_decide_unpack _). vm_compute. exact I.
Qed.

Definition demo_run : FS * list pr_task :=
  @Executor.run_first _ _ (@pr_task_Task SizeOnly.size_only_lib demo_cwd demo_processed)
    6 (demo_fs, map PrStart demo_paths).

Lemma demo_run_stage : pr_stage demo_cwd demo_processed (demo_fs, map PrStart demo_paths) demo_run.
Proof.
  split; [apply Executor.run_first_rtc|]. vm_compute. reflexivity.
Qed.

(** The thumbnail of [a.jpg] is 300x200. *)
Lemma transform_stage_correct_witness :
  demo_run.1 !! ["home"; "u"; "images"; "processed"; "thumb_a.jpg"]
  = Some (IFile (replicate 300 x00 ++ replicate 200 x01)).
Proof.
  replace ["home"; "u"; "images"; "processed"; "thumb_a.jpg"]
    with (out_path demo_cwd demo_processed "/home/u/images/a.jpg") by (vm_compute; reflexivity).
  rewrite (proj1 (@transform_stage_correct SizeOnly.size_only_lib demo_cwd demo_processed
    demo_paths demo_fs demo_run.1 demo_run.2 demo_stage_pre
    ltac:(rewrite <-surjective_pairing; apply demo_run_stage)) "/home/u/images/a.jpg").
  - vm_compute. reflexivity.
  - by left.
Defined.

(** The run of both workers is the sequential loop over [a.jpg] and
    [b.jpg]. *)
Lemma transform_stage_serializable_witness :
  (demo_run.1, map pr_result demo_run.2)
  = process_seq demo_cwd demo_processed demo_paths demo_fs.
Proof.
  apply (@transform_stage_serializable SizeOnly.size_only_lib demo_cwd demo_processed
           demo_paths demo_fs demo_run.1 demo_run.2 demo_stage_pre).
  rewrite <-surjective_pairing. apply demo_run_stage.
Defined.

(** The future of [b.jpg] holds the decoder's exception. *)
Lemma transform_stage_results_witness :
  pr_result <$> demo_run.2 !! 1 = Some (Raise UnidentifiedImageError).
Proof.
  destruct (@transform_stage_results SizeOnly.size_only_lib demo_cwd demo_processed
    demo_paths demo_fs demo_run.1 demo_run.2 1 "/home/u/images/b.jpg" demo_stage_pre
    ltac:(rewrite <-surjective_pairing; apply demo_run_stage) eq_refl) as (t & Ht & Hr).
  rewrite Ht. simpl. rewrite Hr. vm_compute. reflexivity.
Defined.

Definition demo_single : FS * list pr_task :=
  @Executor.run_first _ _ (@pr_task_Task SizeOnly.size_only_lib demo_cwd demo_processed)
    3 (demo_fs, [PrStart "/home/u/images/a.jpg"]).

Lemma demo_single_tasks :
  demo_single.2 = [PrSaved ["home"; "u"; "images"; "processed"; "thumb_a.jpg"]].
Proof. reflexivity. Qed.

(** Run alone, the worker of [a.jpg] computes the sequential
    [process_image]. *)
Lemma pr_task_refines_witness :
  process_image demo_cwd demo_processed "/home/u/images/a.jpg" demo_fs = (Ok (), demo_single.1).
Proof.
  apply (pr_task_refines _ _ _ _ _ (PrSaved ["home"; "u"; "images"; "processed"; "thumb_a.jpg"])).
  rewrite <-demo_single_tasks, <-surjective_pairing.
  split; [apply Executor.run_first_rtc|vm_compute; reflexivity].
Defined.

(** The worker of [a.jpg] run alone writes its 300x200 thumbnail. *)
Lemma process_image_ok_witness :
  process_image demo_cwd demo_processed "/home/u/images/a.jpg" demo_fs
  = (Ok (), <[thumb_target demo_cwd demo_processed "a.jpg"
               := IFile (replicate 300 x00 ++ replicate 200 x01)]> demo_fs).
Proof.
  apply (@process_image_ok SizeOnly.size_only_lib demo_cwd demo_processed "/home/u/images/a.jpg" demo_fs
           (600, 400)%Z (600, 400)%Z); vm_compute; congruence.
Defined.

(** [a.jpg] with an old thumbnail, and an encoder that refuses it. *)
Definition demo_fs_old : FS :=
  <[["home"; "u"; "images"; "processed"; "thumb_a.jpg"] := IFile [x07]]> demo_fs.

Lemma process_image_encode_error_witness :
  @process_image SizeOnly.no_jpeg_lib demo_cwd demo_processed "/home/u/images/a.jpg" demo_fs_old
  = (Raise ImageOSError,
     <[thumb_target demo_cwd demo_processed "a.jpg" := IFile []]> demo_fs_old).
Proof.
  rewrite (@process_image_encode_error SizeOnly.no_jpeg_lib demo_cwd demo_processed
             "/home/u/images/a.jpg" demo_fs_old (600, 400)%Z (600, 400)%Z
             ltac:(vm_compute; reflexivity) eq_refl ltac:(vm_compute; reflexivity)
             ltac:(vm_compute; congruence) ImageOSError eq_refl).
  assert (demo_fs_old !! thumb_target demo_cwd demo_processed (path_split "/home/u/images/a.jpg").2
          = Some (IFile [x07])) as -> by (vm_compute; reflexivity).
  reflexivity.
Defined.

End Demo.

End Transformer.
