(* ===== verification/Console.v ===== *)
(** * Console output: the [print] calls of the workers and of [main]

    [download_image] prints [Downloading image from <name>] before its
    request (line 54) and [Downloaded image from <name>] after its [with]
    block (line 59); [process_image] prints [Processing image <name>]
    before [Image.open] (line 69) and [Processed image <name>] after
    [img.save] (line 76); [main] prints [Time taken: <seconds>] at its end
    (line 91).  Every worker writes to the same [sys.stdout].

    CPython's [print(s)] is two writes to the stream, [s] and then the
    line end ["\n"] ([print]'s [end] argument), and the model lets
    another thread write between them.  This over-approximates CPython:
    with the default buffered [sys.stdout] the GIL is held across both
    writes, and a switch between them needs unbuffered output ([-u]) or a
    free-threaded build.  A print made of two adjacent writes is one of
    the modelled interleavings, so [dl_stage_output], [pr_stage_output]
    and [Main.main_out_order] hold in either case.  The standard output
    is modelled as the list of the writes ([chunk]s) in the order they
    happen.

    [Printing] adds the output to any [Task]: the task [otask] of a
    worker carries its item, the silent task, the chunks of its current
    [print]s not yet written, and (as ghost state, to state the order)
    the chunks it has written; each write is a step of its own.  The
    worker's pool is the [Executor] pool of [otask]s over the state
    (file system, standard output).  The output of a step comes from the
    worker's item and the silent step ([task_out]); the program's are
    [dl_out] and [pr_out].  A print that the code makes before the calls
    of the same step ([Downloading], [Processing]) is written after them
    here: those calls only read the network or the file system, so no
    other worker can observe the difference. *)

From S2P Require Import Prelude PyStr PyPath FileSys Executor Fetcher ImageLib Transformer.
Import PyStr PyPath FileSys Executor Fetcher Thumbnail Transformer.

Module Console.

(** One write to [sys.stdout]. *)
Definition chunk := string.

(** The line end ["\n"], the character of code 10. *)
Definition newline : string := String (Ascii.ascii_of_nat 10) EmptyString.

(** [print(s)]: the text, then the line end. *)
Definition py_print (s : string) : list chunk := [s; newline].

(** The text on the terminal. *)
Definition stdout_text (out : list chunk) : string := foldr String.append "" out.

Section Printing.
Context {St T I : Type} `{!Task St T}.
(** The chunks the step of a worker on item [i] from state [t] writes,
    at most [B] of them. *)
Context (task_out : I → St → T → list chunk) (B : nat).
Hypothesis task_out_bound : ∀ i s t, length (task_out i s t) ≤ B.

Record otask := mk_otask {
  o_item : I;
  o_task : T;
  o_pending : list chunk;
  o_printed : list chunk;
}.

(** A worker with chunks to write writes the next one; otherwise it
    takes its silent step, and the chunks of that step are to write. *)
Definition o_step (p : St * list chunk) (ot : otask) : (St * list chunk) * otask :=
  match o_pending ot with
  | c :: rest =>
      ((p.1, p.2 ++ [c]), mk_otask (o_item ot) (o_task ot) rest (o_printed ot ++ [c]))
  | [] =>
      (((task_step p.1 (o_task ot)).1, p.2),
       mk_otask (o_item ot) (task_step p.1 (o_task ot)).2
         (task_out (o_item ot) p.1 (o_task ot)) (o_printed ot))
  end.

Definition o_done (ot : otask) : bool :=
  match o_pending ot with [] => task_done (o_task ot) | _ :: _ => false end.

Definition o_measure (ot : otask) : nat :=
  length (o_pending ot) + S B * task_measure (o_task ot).

Lemma o_measure_dec p ot : o_done ot = false → o_measure (o_step p ot).2 < o_measure ot.
Proof.
  destruct ot as [i t [|c rest] pr]; unfold o_done, o_measure, o_step; simpl; [|lia].
  intros Hd. pose proof (task_measure_dec p.1 t Hd). pose proof (task_out_bound i p.1 t). nia.
Qed.

#[export] Instance otask_Task : Task (St * list chunk) otask := {|
  task_step := o_step;
  task_done := o_done;
  task_measure := o_measure;
  task_measure_dec := o_measure_dec;
|}.

(** The worker of item [i] before it starts. *)
Definition o_start (start : I → T) (i : I) : otask := mk_otask i (start i) [] [].

(** The silent pool under the printing one. *)
Definition o_silent (q : (St * list chunk) * list otask) : St * list T :=
  (q.1.1, map o_task q.2).

(** ** The printing pool refines the silent one *)

Lemma o_silent_start s out0 (start : I → T) items :
  o_silent ((s, out0), map (o_start start) items) = (s, map start items).
Proof. unfold o_silent. cbn. f_equal. induction items; cbn; congruence. Qed.

Lemma o_step_silent q q' :
  pool_step q q' → o_silent q' = o_silent q ∨ pool_step (o_silent q) (o_silent q').
Proof.
  intros [[s out] ts i [it t [|c rest] pr] Hi Hd]; unfold o_silent; cbn in *.
  - right. rewrite list_fmap_insert. cbn. by constructor; [rewrite list_lookup_fmap, Hi|].
  - left. rewrite list_fmap_insert. cbn. f_equal. by apply list_insert_id; rewrite list_lookup_fmap, Hi.
Qed.

Lemma o_rtc_silent q q' : rtc pool_step q q' → rtc pool_step (o_silent q) (o_silent q').
Proof.
  induction 1 as [|q q1 q' Hs _ IH]; [done|].
  destruct (o_step_silent q q1 Hs) as [<-|]; [done|]. by eapply rtc_l.
Qed.

Lemma o_all_done ts : all_done ts = true → all_done (map o_task ts) = true.
Proof.
  unfold all_done. rewrite !forallb_forall. intros H t Ht.
  apply in_map_iff in Ht as (ot & <- & Hot). specialize (H ot Hot).
  unfold task_done in H. cbn in H. unfold o_done in H. by destruct (o_pending ot).
Qed.

Lemma o_stage_silent q q' : stage_run q q' → stage_run (o_silent q) (o_silent q').
Proof. intros [Hrun Hdone]. split; [by apply o_rtc_silent|by apply o_all_done]. Qed.

(** ** The order of the output *)

Lemma concat_insert_perm {A C} (f : A → list C) (l : list A) i x y k :
  l !! i = Some x → f y = f x ++ k → concat (map f (<[i := y]> l)) ≡ₚ concat (map f l) ++ k.
Proof.
  revert i. induction l as [|z l IH]; intros [|i] Hi Hy; simplify_eq/=.
  - rewrite Hy, <-!app_assoc. by apply Permutation_app_head, Permutation_app_comm.
  - rewrite (IH i Hi Hy), app_assoc. done.
Qed.

(** What the pool wrote since [out0] is made of the chunks the workers
    wrote, and each worker's chunks appear in it in the order the worker
    wrote them. *)
Definition o_trace_inv (out0 : list chunk) (q : (St * list chunk) * list otask) : Prop :=
  ∃ new, q.1.2 = out0 ++ new ∧ new ≡ₚ concat (map o_printed q.2) ∧
    ∀ j ot, q.2 !! j = Some ot → o_printed ot `sublist_of` new.

Lemma o_trace_inv_step out0 q q' : o_trace_inv out0 q → pool_step q q' → o_trace_inv out0 q'.
Proof.
  intros Hinv Hs. revert Hinv.
  destruct Hs as [[s out] ts i [it t [|c rest] pr] Hi Hd]; intros (new & Hout & Hperm & Hsub);
    unfold o_trace_inv; cbn in *.
  - exists new. split_and!; [done| |].
    + rewrite Hperm, (concat_insert_perm _ _ _ _ _ [] Hi) by (cbn; by rewrite app_nil_r).
      by rewrite app_nil_r.
    + intros j ot Hj. apply list_lookup_insert_Some in Hj as [(<- & <- & _)|[_ Hj]]; [|by eauto].
      apply (Hsub i _ Hi).
  - exists (new ++ [c]). split_and!; [by rewrite Hout, app_assoc| |].
    + rewrite (concat_insert_perm _ _ _ _ _ _ Hi) by done. by rewrite Hperm.
    + intros j ot Hj. apply list_lookup_insert_Some in Hj as [(<- & <- & _)|[_ Hj]].
      * cbn. apply sublist_app; [apply (Hsub i _ Hi)|done].
      * apply sublist_inserts_r. by eapply Hsub.
Qed.

Lemma o_step_item q q' : pool_step q q' → map o_item q'.2 = map o_item q.2.
Proof.
  intros [[s out] ts i [it t [|c rest] pr] Hi Hd]; cbn;
    rewrite list_fmap_insert; by apply list_insert_id; rewrite list_lookup_fmap, Hi.
Qed.

Section Log.
(** [task_log i t]: the chunks a worker on item [i] has to write by
    the time it reaches [t]. *)
Context (start : I → T) (task_log : I → T → list chunk).
Hypothesis task_log_start : ∀ i, task_log i (start i) = [].
Hypothesis task_log_step : ∀ i s t, task_done t = false →
  task_log i (task_step s t).2 = task_log i t ++ task_out i s t.

Definition o_log_inv (q : (St * list chunk) * list otask) : Prop :=
  ∀ j ot, q.2 !! j = Some ot → o_printed ot ++ o_pending ot = task_log (o_item ot) (o_task ot).

Lemma o_log_inv_step q q' : o_log_inv q → pool_step q q' → o_log_inv q'.
Proof.
  intros Hinv Hs. revert Hinv.
  destruct Hs as [[s out] ts i [it t [|c rest] pr] Hi Hd]; intros Hinv j ot Hj;
    unfold o_log_inv in *; cbn in *.
  - apply list_lookup_insert_Some in Hj as [(<- & <- & _)|[_ Hj]]; [|by eapply Hinv].
    cbn. rewrite task_log_step by done. specialize (Hinv i _ Hi). cbn in Hinv.
    by rewrite app_nil_r in Hinv; rewrite Hinv.
  - apply list_lookup_insert_Some in Hj as [(<- & <- & _)|[_ Hj]]; [|by eapply Hinv].
    cbn. rewrite <-app_assoc. apply (Hinv i _ Hi).
Qed.

(** The stage run to its end from the workers of [items]: what it
    wrote is, in some interleaving, every worker's log, each in its own
    order. *)
Lemma o_stage_trace s out0 items p' :
  stage_run ((s, out0), map (o_start start) items) p' →
  ∃ new, p'.1.2 = out0 ++ new ∧ new ≡ₚ concat (map o_printed p'.2) ∧
    ∀ j ot, p'.2 !! j = Some ot → items !! j = Some (o_item ot) ∧ task_done (o_task ot) = true ∧
      o_printed ot = task_log (o_item ot) (o_task ot) ∧ o_printed ot `sublist_of` new.
Proof.
  intros [Hrun Hdone].
  assert (o_trace_inv out0 p') as (new & Hout & Hperm & Hsub).
  { eapply (pool_invariant (o_trace_inv out0)); [apply o_trace_inv_step| |exact Hrun].
    exists []. rewrite app_nil_r. split_and!; [done| |].
    - cbn. clear Hrun Hdone. induction items as [|x items IH]; cbn; [done|exact IH].
    - intros j ot Hj. apply list_lookup_fmap_Some in Hj as (x & -> & _). done. }
  assert (o_log_inv p') as Hlog.
  { eapply (pool_invariant o_log_inv); [apply o_log_inv_step| |exact Hrun].
    intros j ot Hj. apply list_lookup_fmap_Some in Hj as (x & -> & _). cbn. by rewrite task_log_start. }
  assert (map o_item p'.2 = items) as Hitems.
  { assert (map o_item (map (o_start start) items) = items) as Hid.
    { clear Hrun Hdone. induction items as [|x items IH]; cbn; congruence. }
    etransitivity; [|exact Hid].
    apply (pool_invariant (λ q, map o_item q.2 = map o_item (map (o_start start) items))
      ((s, out0), map (o_start start) items) p'); [|done|exact Hrun].
    intros q q' Hq Hs. by rewrite (o_step_item _ _ Hs). }
  exists new. split_and!; [done..|]. intros j ot Hj.
  pose proof (all_done_lookup _ _ _ Hdone Hj) as Hd. cbn in Hd. unfold o_done in Hd.
  assert (o_printed ot ++ o_pending ot = task_log (o_item ot) (o_task ot)) as Hl by exact (Hlog j ot Hj).
  destruct (o_pending ot) eqn:Hp; [|done]. rewrite app_nil_r in Hl.
  split_and!; [|done..|by eapply Hsub]. by rewrite <-Hitems, list_lookup_fmap, Hj.
Qed.

Lemma o_stage_chunk s out0 items p' new c :
  stage_run ((s, out0), map (o_start start) items) p' →
  new ≡ₚ concat (map o_printed p'.2) → c ∈ new →
  ∃ j ot, p'.2 !! j = Some ot ∧ c ∈ o_printed ot.
Proof.
  intros _ Hperm Hc. apply list_elem_of_In in Hc.
  apply (Permutation_in _ Hperm), in_concat in Hc as (l & Hl & Hc).
  apply in_map_iff in Hl as (ot & <- & Hot). apply list_elem_of_In, list_elem_of_lookup in Hot as [j Hj].
  exists j, ot. split; [done|]. by apply list_elem_of_In.
Qed.

Lemma o_stage_worker s out0 items p' j i :
  stage_run ((s, out0), map (o_start start) items) p' → items !! j = Some i → ∃ ot, p'.2 !! j = Some ot.
Proof.
  intros Hrun Hi. apply lookup_lt_is_Some_2. rewrite (stage_run_length _ _ Hrun). cbn.
  rewrite length_map. by eapply lookup_lt_Some.
Qed.

(** What a stage writes, chunk by chunk: every chunk is one a worker's
    finished log can hold, and every worker's log starts with [first]. *)
Lemma o_stage_chunks s out0 items p' (ok : I → chunk → Prop) (first : I → list chunk) :
  (∀ i t c, c ∈ task_log i t → task_done t = true → ok i c) →
  (∀ i t, task_done t = true → first i `sublist_of` task_log i t) →
  stage_run ((s, out0), map (o_start start) items) p' →
  ∃ new, p'.1.2 = out0 ++ new ∧ Forall (λ c, ∃ i, i ∈ items ∧ ok i c) new ∧
    ∀ i, i ∈ items → first i `sublist_of` new.
Proof.
  intros Hok Hfirst Hrun.
  destruct (o_stage_trace s out0 items p' Hrun) as (new & Hout & Hperm & Hj).
  exists new. split_and!; [done| |].
  - apply Forall_forall. intros c Hc.
    destruct (o_stage_chunk s out0 items p' new c Hrun Hperm Hc) as (j & ot & Hot & Hc').
    destruct (Hj j ot Hot) as (Hi & Hd & Hpr & _). rewrite Hpr in Hc'.
    exists (o_item ot). split; [by eapply list_elem_of_lookup_2|by eapply Hok].
  - intros i [j Hi]%list_elem_of_lookup.
    destruct (o_stage_worker s out0 items p' j i Hrun Hi) as [ot Hot].
    destruct (Hj j ot Hot) as (Hi' & Hd & Hpr & Hsub). rewrite Hi' in Hi. simplify_eq.
    etrans; [|exact Hsub]. rewrite Hpr. by apply Hfirst.
Qed.

End Log.

End Printing.

(** ** The program's output *)

Section Download.
Context `{!Http} (cwd : list string) (folder : string).

(** The [print]s of [download_image(image_url)]: line 54 when the
    request is made, line 59 when the [with] block has written and
    closed the file; none when [img_name] raises, which it never does. *)
Definition dl_out (image_url : string) (fs : FS) (t : dl_task) : list chunk :=
  match img_name image_url, t with
  | Ok name, DlStart _ => py_print ("Downloading image from " +:+ name)
  | Ok name, DlOpened _ _ => py_print ("Downloaded image from " +:+ name)
  | _, _ => []
  end.

(** What the thread has to print by the time it reaches [t]. *)
Definition dl_log (image_url : string) (t : dl_task) : list chunk :=
  match img_name image_url with
  | Ok name =>
      match t with
      | DlStart _ => []
      | DlFetched _ _ | DlOpened _ _ | DlFailed _ => py_print ("Downloading image from " +:+ name)
      | DlClosed _ =>
          py_print ("Downloading image from " +:+ name) ++ py_print ("Downloaded image from " +:+ name)
      end
  | Raise _ => []
  end.

Lemma dl_log_start u : dl_log u (DlStart u) = [].
Proof. unfold dl_log. by destruct (img_name u). Qed.

Lemma dl_out_bound u fs t : length (dl_out u fs t) ≤ 2.
Proof. unfold dl_out, py_print. repeat case_match; simpl; lia. Qed.

#[export] Instance dl_otask_Task : Task (FS * list chunk) (otask (I:=string)) :=
  otask_Task (Task0 := dl_task_Task cwd folder) dl_out 2 dl_out_bound.

Lemma dl_log_step u fs t :
  dl_done t = false → dl_log u (dl_step cwd folder fs t).2 = dl_log u t ++ dl_out u fs t.
Proof.
  unfold dl_log, dl_out. destruct (img_name u) as [name|e]; [|by destruct t].
  destruct t as [v|n b|q b|q|e]; cbn; try done; intros _.
  - by repeat case_match.
  - rewrite ?app_nil_r. by destruct (open_wb _ _) as [[]].
Qed.

(** The download thread ended having written and closed its file. *)
Definition dl_closed (t : dl_task) : bool := match t with DlClosed _ => true | _ => false end.

Lemma dl_log_done u t :
  dl_done t = true → dl_log u t = py_print ("Downloading image from " +:+ url_name u) ++
    (if dl_closed t then py_print ("Downloaded image from " +:+ url_name u) else []).
Proof. unfold dl_log. rewrite img_name_url_name. destruct t; cbn; by rewrite ?app_nil_r. Qed.

(** The chunks the download thread of [u] can write. *)
Definition dl_chunk (u : string) (c : chunk) : Prop :=
  c = newline ∨ c = "Downloading image from " +:+ url_name u ∨ c = "Downloaded image from " +:+ url_name u.

Lemma dl_log_chunk u t c :
  c ∈ dl_log u t → dl_done t = true → dl_chunk u c.
Proof.
  unfold dl_chunk. intros Hc Hd. rewrite dl_log_done in Hc by done. unfold py_print in Hc.
  destruct (dl_closed t); cbn in Hc; repeat (apply elem_of_cons in Hc as [->|Hc]; [tauto|]);
    by apply not_elem_of_nil in Hc.
Qed.

(** What the download stage writes: the chunks of its threads, every
    URL's [Downloading] line among them. *)
Lemma dl_stage_chunks fs out0 urls p' :
  @stage_run _ _ dl_otask_Task ((fs, out0), map (o_start DlStart) urls) p' →
  ∃ new, p'.1.2 = out0 ++ new ∧ Forall (λ c, ∃ u, u ∈ urls ∧ dl_chunk u c) new ∧
    ∀ u, u ∈ urls → py_print ("Downloading image from " +:+ url_name u) `sublist_of` new.
Proof.
  apply (o_stage_chunks (Task0 := dl_task_Task cwd folder) dl_out 2 dl_out_bound DlStart dl_log
    dl_log_start dl_log_step); [exact dl_log_chunk|].
  intros u t Hd. rewrite dl_log_done by done. by apply sublist_inserts_r.
Qed.

Lemma dl_stage_silent fs out0 urls p' :
  @stage_run _ _ dl_otask_Task ((fs, out0), map (o_start DlStart) urls) p' →
  dl_stage cwd folder (fs, map DlStart urls) (o_silent p').
Proof.
  intros Hrun. rewrite <-(o_silent_start fs out0).
  by apply (o_stage_silent (Task0 := dl_task_Task cwd folder) dl_out 2 dl_out_bound).
Qed.

(** C24: The output of the download stage: every complete interleaving
    of the threads, printing, ends as an interleaving of the silent
    threads, and appends to the standard output the chunks of every
    thread and nothing else, each thread's in the order it printed them:
    [Downloading image from <name>], and [Downloaded image from <name>]
    exactly when the thread wrote and closed its file. *)
Theorem dl_stage_output fs out0 urls p' :
  @stage_run _ _ dl_otask_Task ((fs, out0), map (o_start DlStart) urls) p' →
  dl_stage cwd folder (fs, map DlStart urls) (o_silent p') ∧
  ∃ new, p'.1.2 = out0 ++ new ∧ new ≡ₚ concat (map o_printed p'.2) ∧
    ∀ j ot, p'.2 !! j = Some ot → urls !! j = Some (o_item ot) ∧
      o_printed ot = py_print ("Downloading image from " +:+ url_name (o_item ot)) ++
        (if dl_closed (o_task ot) then py_print ("Downloaded image from " +:+ url_name (o_item ot))
         else []) ∧
      o_printed ot `sublist_of` new.
Proof.
  intros Hrun. split; [by eapply dl_stage_silent|].
  destruct (o_stage_trace (Task0 := dl_task_Task cwd folder) dl_out 2 dl_out_bound DlStart dl_log
    dl_log_start dl_log_step
    fs out0 urls p' Hrun) as (new & Hout & Hperm & Hj).
  exists new. split_and!; [done..|]. intros j ot Hot.
  destruct (Hj j ot Hot) as (Hi & Hd & Hpr & Hsub). split_and!; [done| |done].
  by rewrite Hpr, dl_log_done.
Qed.

End Download.

Section Process.
Context `{!ImageLib} (cwd : list string) (processed : string).

(** The [print]s of [process_image(image_path)]: line 69 when the image
    is opened, line 76 when [img.save] has written the thumbnail. *)
Definition pr_out (image_path : string) (fs : FS) (t : pr_task) : list chunk :=
  match t with
  | PrStart _ => py_print ("Processing image " +:+ (path_split image_path).2)
  | PrOpened _ _ img =>
      match pil_encode_jpeg img with
      | Ok _ => py_print ("Processed image " +:+ (path_split image_path).2)
      | Raise _ => []
      end
  | _ => []
  end.

Definition pr_log (image_path : string) (t : pr_task) : list chunk :=
  match t with
  | PrStart _ => []
  | PrLoaded _ _ | PrOpened _ _ _ | PrFailed _ =>
      py_print ("Processing image " +:+ (path_split image_path).2)
  | PrSaved _ =>
      py_print ("Processing image " +:+ (path_split image_path).2) ++
      py_print ("Processed image " +:+ (path_split image_path).2)
  end.

Lemma pr_log_start u : pr_log u (PrStart u) = [].
Proof. done. Qed.

Lemma pr_out_bound u fs t : length (pr_out u fs t) ≤ 2.
Proof. unfold pr_out, py_print. repeat case_match; simpl; lia. Qed.

#[export] Instance pr_otask_Task : Task (FS * list chunk) (otask (I:=string)) :=
  otask_Task (Task0 := pr_task_Task cwd processed) pr_out 2 pr_out_bound.

Lemma pr_log_step u fs t :
  pr_done t = false → pr_log u (pr_step cwd processed fs t).2 = pr_log u t ++ pr_out u fs t.
Proof.
  unfold pr_log, pr_out. destruct t as [v|n img|q c img|q|e]; cbn; try done; intros _.
  - by repeat case_match.
  - rewrite ?app_nil_r. by destruct (open_wb _ _) as [[]].
  - destruct (pil_encode_jpeg img); [done|]. rewrite ?app_nil_r. by repeat case_match.
Qed.

(** The worker ended having saved its thumbnail. *)
Definition pr_saved (t : pr_task) : bool := match t with PrSaved _ => true | _ => false end.

Lemma pr_log_done u t :
  pr_done t = true → pr_log u t = py_print ("Processing image " +:+ (path_split u).2) ++
    (if pr_saved t then py_print ("Processed image " +:+ (path_split u).2) else []).
Proof. destruct t; cbn; by rewrite ?app_nil_r. Qed.

(** The chunks the worker on [u] can write. *)
Definition pr_chunk (u : string) (c : chunk) : Prop :=
  c = newline ∨ c = "Processing image " +:+ (path_split u).2 ∨ c = "Processed image " +:+ (path_split u).2.

Lemma pr_log_chunk u t c : c ∈ pr_log u t → pr_done t = true → pr_chunk u c.
Proof.
  unfold pr_chunk. intros Hc Hd. rewrite pr_log_done in Hc by done. unfold py_print in Hc.
  destruct (pr_saved t); cbn in Hc; repeat (apply elem_of_cons in Hc as [->|Hc]; [tauto|]);
    by apply not_elem_of_nil in Hc.
Qed.

Lemma pr_stage_chunks fs out0 paths p' :
  @stage_run _ _ pr_otask_Task ((fs, out0), map (o_start PrStart) paths) p' →
  ∃ new, p'.1.2 = out0 ++ new ∧ Forall (λ c, ∃ u, u ∈ paths ∧ pr_chunk u c) new ∧
    ∀ u, u ∈ paths → py_print ("Processing image " +:+ (path_split u).2) `sublist_of` new.
Proof.
  apply (o_stage_chunks (Task0 := pr_task_Task cwd processed) pr_out 2 pr_out_bound PrStart pr_log
    pr_log_start pr_log_step); [exact pr_log_chunk|].
  intros u t Hd. rewrite pr_log_done by done. by apply sublist_inserts_r.
Qed.

Lemma pr_stage_silent fs out0 paths p' :
  @stage_run _ _ pr_otask_Task ((fs, out0), map (o_start PrStart) paths) p' →
  pr_stage cwd processed (fs, map PrStart paths) (o_silent p').
Proof.
  intros Hrun. rewrite <-(o_silent_start fs out0).
  by apply (o_stage_silent (Task0 := pr_task_Task cwd processed) pr_out 2 pr_out_bound).
Qed.

(** C25: The output of the thumbnail stage: every complete interleaving
    of the workers, printing, ends as an interleaving of the silent
    workers, and appends to the standard output the chunks of every
    worker and nothing else, each worker's in its order:
    [Processing image <name>], and [Processed image <name>] exactly when
    the worker saved its thumbnail. *)
Theorem pr_stage_output fs out0 paths p' :
  @stage_run _ _ pr_otask_Task ((fs, out0), map (o_start PrStart) paths) p' →
  pr_stage cwd processed (fs, map PrStart paths) (o_silent p') ∧
  ∃ new, p'.1.2 = out0 ++ new ∧ new ≡ₚ concat (map o_printed p'.2) ∧
    ∀ j ot, p'.2 !! j = Some ot → paths !! j = Some (o_item ot) ∧
      o_printed ot = py_print ("Processing image " +:+ (path_split (o_item ot)).2) ++
        (if pr_saved (o_task ot) then py_print ("Processed image " +:+ (path_split (o_item ot)).2)
         else []) ∧
      o_printed ot `sublist_of` new.
Proof.
  intros Hrun. split; [by eapply pr_stage_silent|].
  destruct (o_stage_trace (Task0 := pr_task_Task cwd processed) pr_out 2 pr_out_bound PrStart pr_log
    pr_log_start pr_log_step fs out0 paths p' Hrun) as (new & Hout & Hperm & Hj).
  exists new. split_and!; [done..|]. intros j ot Hot.
  destruct (Hj j ot Hot) as (Hi & Hd & Hpr & Hsub). split_and!; [done| |done].
  by rewrite Hpr, pr_log_done.
Qed.

End Process.

(** ** Two threads' lines on one terminal line *)

Section Merge.
#[local] Instance merge_http : Http := {| requests_get := λ _, Ok (mk_response 200 [x01]) |}.

Definition merge_fs : FS := {[ ["images"] := IDir ]}.
Definition merge_start : (FS * list chunk) * list otask :=
  ((merge_fs, []), map (o_start DlStart) ["https://example.com/a"; "https://example.com/b"]).
(** Both threads make their request and write their text before either
    writes its line end; then the pool runs to its end. *)
Definition merge_run : (FS * list chunk) * list otask :=
  @run_first _ _ (dl_otask_Task [] "/images") 20
    (@run_schedule _ _ (dl_otask_Task [] "/images") [0; 1; 0; 1] merge_start).

Lemma merge_stage : @stage_run _ _ (dl_otask_Task [] "/images") merge_start merge_run.
Proof. split; [etrans; [apply run_schedule_rtc|apply run_first_rtc]|vm_compute; reflexivity]. Qed.

(** The lines of two download threads can merge: when a thread switch
    can fall between the two writes of a [print] (unbuffered or
    free-threaded), a complete run of the download stage on two URLs
    puts both [Downloading] texts on one line of the terminal, followed
    later by an empty line, although every [print] call writes one whole
    line. *)
Theorem dl_output_lines_merge :
  ∃ p', @stage_run _ _ (dl_otask_Task [] "/images") merge_start p' ∧
    stdout_text p'.1.2 =
      "Downloading image from a.jpgDownloading image from b.jpg" +:+ newline +:+
      "Downloaded image from a.jpg" +:+ newline +:+ newline +:+
      "Downloaded image from b.jpg" +:+ newline.
Proof.
  exists merge_run. split; [apply merge_stage|vm_compute; reflexivity].
Qed.

Lemma dl_stage_output_witness :
  dl_stage [] "/images" (merge_fs, map DlStart ["https://example.com/a"; "https://example.com/b"])
    (o_silent merge_run) ∧
  ∃ new, merge_run.1.2 = [] ++ new ∧ new ≡ₚ concat (map o_printed merge_run.2) ∧
    ∀ j ot, merge_run.2 !! j = Some ot →
      ["https://example.com/a"; "https://example.com/b"] !! j = Some (o_item ot) ∧
      o_printed ot = py_print ("Downloading image from " +:+ url_name (o_item ot)) ++
        (if dl_closed (o_task ot) then py_print ("Downloaded image from " +:+ url_name (o_item ot))
         else []) ∧
      o_printed ot `sublist_of` new.
Proof. apply (dl_stage_output [] "/images" merge_fs []). exact merge_stage. Defined.

End Merge.

End Console.
