(* ===== verification/Main.v ===== *)
(** * The orchestrator: the constants and [main] of [src/main.py]

    [IMAGE_URLS] (lines 10-32), [IMAGE_FOLDER] and [PROCESSED_FOLDER]
    (lines 33-34) are module constants computed from [os.getcwd()];
    [create_folder] (lines 37-43) makes a directory and its parents.
    [main] (lines 79-91) runs the download stage, then the thumbnail
    stage. *)

From S2P Require Import Prelude PyStr PyPath FileSys Glob Executor Workers Fetcher ImageLib Transformer Console.
Import PyStr PyPath FileSys Glob Executor Workers Fetcher Thumbnail Transformer Console.

Module Main.

Definition IMAGE_URLS : list string := [
    "https://images.unsplash.com/photo-1635088173181-673ff547a555";
    "https://images.unsplash.com/photo-1635481712720-a1b30952ed4b";
    "https://images.unsplash.com/photo-1635420280816-c0dc0ee8a7a7";
    "https://images.unsplash.com/photo-1632269826291-2cb3009bf43d";
    "https://images.unsplash.com/photo-1617137604160-fc923f3173d0";
    "https://images.unsplash.com/photo-1635398517284-2f3c7fef7fee";
    "https://images.unsplash.com/photo-1635417073744-0b09b9ac4dfc";
    "https://images.unsplash.com/photo-1604854657221-42873468254c";
    "https://images.unsplash.com/photo-1615762325085-8babbbce2c43";
    "https://images.unsplash.com/photo-1635317224525-19c1d33f9036";
    "https://images.unsplash.com/photo-1635333702118-b53d15341ed4";
    "https://images.unsplash.com/photo-1635269941799-665d1618d5d8";
    "https://images.unsplash.com/photo-1635297383087-8842f98f908a";
    "https://images.unsplash.com/photo-1610898404424-1439b7006e1c";
    "https://images.unsplash.com/photo-1634692804775-67207ea81cc5";
    "https://images.unsplash.com/photo-1633410229020-938fdaefd884";
    "https://images.unsplash.com/photo-1632085847101-028ec1b2abeb";
    "https://images.unsplash.com/photo-1627142625827-1d7e65635b18";
    "https://images.unsplash.com/photo-1629129207344-6a452eea1ea5";
    "https://images.unsplash.com/photo-1628258867160-f11ee22397c5";
    "https://images.unsplash.com/photo-1635342242063-a64d654fbfbe"
].

(** [os.path.join(os.getcwd(), "images")]. *)
Definition IMAGE_FOLDER (cwd : string) : string := cwd </> "images".

(** [os.path.join(IMAGE_FOLDER, "processed")]. *)
Definition PROCESSED_FOLDER (cwd : string) : string := IMAGE_FOLDER cwd </> "processed".

(** [create_folder(folder_path)]:
    [Path(os.path.join(os.getcwd(), folder_path)).mkdir(parents=True, exist_ok=True)]. *)
Definition create_folder (cwd : string) (folder_path : string) : stm FS unit :=
  path_mkdir (os_resolve (path_parts cwd) (cwd </> folder_path)) true true.

Section Main.
Context `{!Http} `{!ImageLib}.
(** [os.getcwd()], an absolute path. *)
Context (cwd : string).

Definition cwd_parts : list string := path_parts cwd.

(** Line 88: [glob.glob(os.path.join(IMAGE_FOLDER, "*.jpg"))]; the
    working directory is part of the pattern. *)
Definition glob_images (fs : FS) : list string :=
  glob fs cwd_parts (IMAGE_FOLDER cwd </> "*.jpg").

(** [main()] (lines 79-91) for the list of URLs [urls]: the runs from a
    file system to the outcome and the final file system.  A
    [create_folder] that raises ends [main]; the exceptions of the
    workers stay in their futures.  The stages are [dl_stage] and
    [pr_stage], which allow every interleaving of the workers; the list
    of inputs of the second stage is computed before it starts. *)
Inductive main_with (urls : list string) : FS → res unit → FS → Prop :=
  | main_images_error fs e fs1 :
      create_folder cwd (IMAGE_FOLDER cwd) fs = (Raise e, fs1) →
      main_with urls fs (Raise e) fs1
  | main_processed_error fs fs1 fs2 ts e fs3 :
      create_folder cwd (IMAGE_FOLDER cwd) fs = (Ok (), fs1) →
      dl_stage cwd_parts (IMAGE_FOLDER cwd) (fs1, map DlStart urls) (fs2, ts) →
      create_folder cwd (PROCESSED_FOLDER cwd) fs2 = (Raise e, fs3) →
      main_with urls fs (Raise e) fs3
  | main_done fs fs1 fs2 ts fs3 ts' fs4 :
      create_folder cwd (IMAGE_FOLDER cwd) fs = (Ok (), fs1) →
      dl_stage cwd_parts (IMAGE_FOLDER cwd) (fs1, map DlStart urls) (fs2, ts) →
      create_folder cwd (PROCESSED_FOLDER cwd) fs2 = (Ok (), fs3) →
      pr_stage cwd_parts (PROCESSED_FOLDER cwd) (fs3, map PrStart (glob_images fs3)) (fs4, ts') →
      main_with urls fs (Ok ()) fs4.

(** [main()] of the program, on [IMAGE_URLS]. *)
Definition main : FS → res unit → FS → Prop := main_with IMAGE_URLS.

(** [main()] with its standard output: the state is the file system and
    the chunks written so far.  The workers print as [Console] models;
    when [main] returns, its last act is line 91,
    [print(f"Time taken: {time_end - time_start}")], where [elapsed] is
    the text of the measured time (the clock is not modelled). *)
Inductive main_out (urls : list string) : FS * list chunk → res unit → FS * list chunk → Prop :=
  | out_images_error fs out e fs1 :
      create_folder cwd (IMAGE_FOLDER cwd) fs = (Raise e, fs1) →
      main_out urls (fs, out) (Raise e) (fs1, out)
  | out_processed_error fs out fs1 (p2 : (FS * list chunk) * list (@otask dl_task string)) e fs3 :
      create_folder cwd (IMAGE_FOLDER cwd) fs = (Ok (), fs1) →
      @stage_run _ _ (dl_otask_Task cwd_parts (IMAGE_FOLDER cwd))
        ((fs1, out), map (o_start DlStart) urls) p2 →
      create_folder cwd (PROCESSED_FOLDER cwd) p2.1.1 = (Raise e, fs3) →
      main_out urls (fs, out) (Raise e) (fs3, p2.1.2)
  | out_done fs out fs1 (p2 : (FS * list chunk) * list (@otask dl_task string)) fs3
      (p4 : (FS * list chunk) * list (@otask pr_task string)) elapsed :
      create_folder cwd (IMAGE_FOLDER cwd) fs = (Ok (), fs1) →
      @stage_run _ _ (dl_otask_Task cwd_parts (IMAGE_FOLDER cwd))
        ((fs1, out), map (o_start DlStart) urls) p2 →
      create_folder cwd (PROCESSED_FOLDER cwd) p2.1.1 = (Ok (), fs3) →
      @stage_run _ _ (pr_otask_Task cwd_parts (PROCESSED_FOLDER cwd))
        ((fs3, p2.1.2), map (o_start PrStart) (glob_images fs3)) p4 →
      main_out urls (fs, out) (Ok ()) (p4.1.1, p4.1.2 ++ py_print ("Time taken: " +:+ elapsed)).

(** [main()] as it runs on a machine of [cpu] processors: [main_out]
    with each stage run by the executor the program creates, of
    [Workers]'s worker limit: the downloads on [ThreadPoolExecutor()]
    (line 83), [thread_workers cpu] threads taking the URLs in order, the
    thumbnails on [ProcessPoolExecutor()] (line 87), [process_workers cpu]
    processes taking the paths in order; a worker is busy until its call
    has returned, its [print]s written. *)
Inductive main_exec (cpu : nat) (urls : list string) :
    FS * list chunk → res unit → FS * list chunk → Prop :=
  | exec_images_error fs out e fs1 :
      create_folder cwd (IMAGE_FOLDER cwd) fs = (Raise e, fs1) →
      main_exec cpu urls (fs, out) (Raise e) (fs1, out)
  | exec_processed_error fs out fs1 (p2 : (FS * list chunk) * list (@otask dl_task string)) e fs3 :
      create_folder cwd (IMAGE_FOLDER cwd) fs = (Ok (), fs1) →
      @wstage_run _ _ (dl_otask_Task cwd_parts (IMAGE_FOLDER cwd)) (thread_workers cpu)
        ((fs1, out), map (o_start DlStart) urls) p2 →
      create_folder cwd (PROCESSED_FOLDER cwd) p2.1.1 = (Raise e, fs3) →
      main_exec cpu urls (fs, out) (Raise e) (fs3, p2.1.2)
  | exec_done fs out fs1 (p2 : (FS * list chunk) * list (@otask dl_task string)) fs3
      (p4 : (FS * list chunk) * list (@otask pr_task string)) elapsed :
      create_folder cwd (IMAGE_FOLDER cwd) fs = (Ok (), fs1) →
      @wstage_run _ _ (dl_otask_Task cwd_parts (IMAGE_FOLDER cwd)) (thread_workers cpu)
        ((fs1, out), map (o_start DlStart) urls) p2 →
      create_folder cwd (PROCESSED_FOLDER cwd) p2.1.1 = (Ok (), fs3) →
      @wstage_run _ _ (pr_otask_Task cwd_parts (PROCESSED_FOLDER cwd)) (process_workers cpu)
        ((fs3, p2.1.2), map (o_start PrStart) (glob_images fs3)) p4 →
      main_exec cpu urls (fs, out) (Ok ()) (p4.1.1, p4.1.2 ++ py_print ("Time taken: " +:+ elapsed)).

(** Lines 94-95, [if __name__ == "__main__": main()]: run as a script,
    the module runs [main()] on [IMAGE_URLS]; imported under another
    name it runs nothing (its constants only read [os.getcwd()]). *)
Inductive script (cpu : nat) (module_name : string) :
    FS * list chunk → res unit → FS * list chunk → Prop :=
  | script_main s r s' :
      module_name = "__main__" → main_exec cpu IMAGE_URLS s r s' → script cpu module_name s r s'
  | script_imported s :
      module_name ≠ "__main__" → script cpu module_name s (Ok ()) s.

End Main.

(** ** Where the folders are *)

Section Folders.
Context (cwd : string) (Habs : str_startswith cwd "/" = true).

Definition img_parts : list string := path_parts cwd ++ ["images"].
Definition proc_parts : list string := img_parts ++ ["processed"].

Lemma images_is_name : is_name "images".
Proof. by vm_compute. Qed.

Lemma processed_is_name : is_name "processed".
Proof. by vm_compute. Qed.

Lemma cwd_nonempty : cwd ≠ "".
Proof. by intros ->. Qed.

Lemma image_folder_abs : str_startswith (IMAGE_FOLDER cwd) "/" = true.
Proof. unfold IMAGE_FOLDER. rewrite str_startswith_join; [done|apply images_is_name|apply cwd_nonempty]. Qed.

Lemma image_folder_resolve cp : os_resolve cp (IMAGE_FOLDER cwd) = img_parts.
Proof.
  unfold os_resolve. rewrite image_folder_abs. unfold IMAGE_FOLDER.
  apply path_parts_join, images_is_name.
Qed.

Lemma processed_folder_resolve cp : os_resolve cp (PROCESSED_FOLDER cwd) = proc_parts.
Proof.
  unfold PROCESSED_FOLDER. rewrite os_resolve_join by apply processed_is_name.
  by rewrite image_folder_resolve.
Qed.

(** [os.path.join(os.getcwd(), folder)] is [folder] for an absolute
    [folder]. *)
Lemma create_folder_abs f :
  str_startswith f "/" = true → create_folder cwd f = path_mkdir (path_parts f) true true.
Proof. intros Hf. unfold create_folder, os_resolve, path_join. by rewrite !Hf. Qed.

Lemma create_images : create_folder cwd (IMAGE_FOLDER cwd) = path_mkdir img_parts true true.
Proof.
  rewrite create_folder_abs by apply image_folder_abs. f_equal.
  rewrite <-(image_folder_resolve []). unfold os_resolve. by rewrite image_folder_abs.
Qed.

Lemma create_processed :
  create_folder cwd (PROCESSED_FOLDER cwd) = path_mkdir proc_parts true true.
Proof.
  assert (str_startswith (PROCESSED_FOLDER cwd) "/" = true) as Habs'.
  { unfold PROCESSED_FOLDER. rewrite str_startswith_join; [apply image_folder_abs|
      apply processed_is_name|]. apply path_join_name_shape, images_is_name. }
  rewrite create_folder_abs by done. f_equal.
  by rewrite <-(processed_folder_resolve []); unfold os_resolve; rewrite Habs'.
Qed.

Lemma image_folder_shape : IMAGE_FOLDER cwd ≠ "" ∧ str_endswith (IMAGE_FOLDER cwd) "/" = false.
Proof. apply path_join_name_shape, images_is_name. Qed.

End Folders.

(** ** The run of [main] that returns *)

Lemma url_name_shape u : ∃ base, url_name u = base +:+ ".jpg" ∧ str_has "/" base = false.
Proof.
  destruct (img_name_shape u) as (base & Hb & Hs & _). exists base.
  split; [|done]. pose proof (img_name_url_name u) as Hu. congruence.
Qed.

Lemma url_name_is_name u : is_name (url_name u).
Proof. apply (img_name_is_name u), img_name_url_name. Qed.

Lemma url_name_jpg u : str_endswith (url_name u) ".jpg" = true.
Proof. destruct (url_name_shape u) as (base & -> & _). apply str_endswith_app. Qed.

Lemma url_name_ne_processed u : url_name u ≠ "processed".
Proof. intros Hu. pose proof (url_name_jpg u) as Hj. by rewrite Hu in Hj. Qed.

(** A name that ends with [".jpg"] and has no slash is a file name. *)
Lemma jpg_is_name n : str_has "/" n = false → str_endswith n ".jpg" = true → is_name n.
Proof. intros Hs Hj. split_and!; [done|by intros ->|by intros ->]. Qed.

Section Run.
Context `{!Http} `{!ImageLib} (cwd : string) (Habs : str_startswith cwd "/" = true).
Context (urls : list string) (fs : FS).
Hypothesis Hnd : NoDup (map url_name urls).
Hypothesis Htargets : ∀ u, u ∈ urls → fs !! (img_parts cwd ++ [url_name u]) ≠ Some IDir.
Hypothesis Hproc : ∀ x, fs !! (proc_parts cwd ++ [x]) ≠ Some IDir.
(** The working directory holds no [glob] wildcard ([*], [?], [[]), so
    line 88 lists [IMAGE_FOLDER] itself. *)
Hypothesis Hmagic : has_magic cwd = false.

Lemma img_dl_target u : dl_target (cwd_parts cwd) (IMAGE_FOLDER cwd) u = img_parts cwd ++ [url_name u].
Proof. by rewrite dl_target_parent, image_folder_resolve. Qed.

Lemma img_proc_ne x k : img_parts cwd ++ [x] ≠ proc_parts cwd ++ [k].
Proof.
  intros Heq. apply (f_equal length) in Heq. unfold proc_parts in Heq.
  rewrite !length_app in Heq. simpl in Heq. lia.
Qed.

(** The list of inputs of the processing stage, when [IMAGE_FOLDER] is a
    directory. *)
Lemma glob_images_eq fsx :
  path_is_dir fsx (img_parts cwd) = true →
  glob_images cwd fsx =
  (λ n, IMAGE_FOLDER cwd </> n) <$>
    filter (λ n, str_endswith n ".jpg" = true)
      (filter (λ n, is_hidden n = false) (listdir fsx (img_parts cwd))).
Proof.
  intros Hdir. unfold glob_images.
  rewrite glob_star_literal; [|apply image_folder_shape..|by apply has_magic_join|done|done].
  by rewrite image_folder_resolve, Hdir.
Qed.

Lemma glob_images_elem fsx u :
  path_is_dir fsx (img_parts cwd) = true →
  u ∈ glob_images cwd fsx ↔
  ∃ n, u = IMAGE_FOLDER cwd </> n ∧ is_Some (fsx !! (img_parts cwd ++ [n])) ∧
       str_startswith n "." = false ∧ str_endswith n ".jpg" = true ∧ str_has "/" n = false.
Proof.
  intros Hdir. rewrite glob_images_eq, list_elem_of_fmap by done.
  do 2 setoid_rewrite list_elem_of_filter. setoid_rewrite listdir_spec. unfold is_hidden. naive_solver.
Qed.

(** The download stage starts in a state where its hypotheses hold. *)
Lemma stage1_pre fs1 :
  path_mkdir (img_parts cwd) true true fs = (Ok (), fs1) →
  check_dirs fs1 [] (os_resolve (cwd_parts cwd) (IMAGE_FOLDER cwd)) = Ok () ∧
  (∀ u, u ∈ urls → fs1 !! dl_target (cwd_parts cwd) (IMAGE_FOLDER cwd) u ≠ Some IDir).
Proof.
  intros Hmk. pose proof (path_mkdir_post _ _ _ _ Hmk) as Hpost. split.
  - rewrite image_folder_resolve by done. by eapply mkdir_post_check_dirs.
  - intros u Hu. rewrite img_dl_target, (mkdir_post_longer _ _ _ _ Hpost)
      by (rewrite length_app; simpl; lia). by apply Htargets.
Qed.

(** After [create_folder(IMAGE_FOLDER)] and the download stage. *)
Lemma stage1_post fs1 fs2 ts :
  path_mkdir (img_parts cwd) true true fs = (Ok (), fs1) →
  dl_stage (cwd_parts cwd) (IMAGE_FOLDER cwd) (fs1, map DlStart urls) (fs2, ts) →
  mkdir_post fs fs1 (img_parts cwd) ∧
  (∀ url r, url ∈ urls → requests_get url = Ok r →
     fs2 !! (img_parts cwd ++ [url_name url]) = Some (IFile (content r))) ∧
  (∀ q, (∀ u, u ∈ urls → q ≠ img_parts cwd ++ [url_name u]) → fs2 !! q = fs1 !! q).
Proof.
  intros Hmk Hst. destruct (stage1_pre fs1 Hmk) as [Hd Ht].
  destruct (fetch_stage_correct (cwd_parts cwd) (IMAGE_FOLDER cwd) urls fs1 fs2 ts Hnd Hd Ht Hst)
    as [Hfiles Hframe].
  split_and!; [by eapply path_mkdir_post| |].
  - intros url r Hu Hr. rewrite <-img_dl_target. by apply Hfiles.
  - intros q Hq. apply Hframe. intros u Hu. rewrite img_dl_target. by apply Hq.
Qed.

(** The download stage leaves no directory at a target. *)
Lemma stage1_targets fs1 fs2 ts u :
  path_mkdir (img_parts cwd) true true fs = (Ok (), fs1) →
  dl_stage (cwd_parts cwd) (IMAGE_FOLDER cwd) (fs1, map DlStart urls) (fs2, ts) →
  u ∈ urls → fs2 !! (img_parts cwd ++ [url_name u]) ≠ Some IDir.
Proof.
  intros Hmk Hst Hu. destruct (stage1_pre fs1 Hmk) as [Hd Ht].
  rewrite <-img_dl_target, (fetch_stage_lookup _ _ _ _ _ _ _ Hnd Hd Ht Hst), dl_final_at by done.
  destruct (requests_get u); [done|]. by apply Ht.
Qed.

Section Stage2.
Context (fs1 fs2 fs3 : FS) (ts : list dl_task).
Hypothesis Hmk1 : path_mkdir (img_parts cwd) true true fs = (Ok (), fs1).
Hypothesis Hst1 : dl_stage (cwd_parts cwd) (IMAGE_FOLDER cwd) (fs1, map DlStart urls) (fs2, ts).
Hypothesis Hmk2 : path_mkdir (proc_parts cwd) true true fs2 = (Ok (), fs3).
(** Every lemma of the section takes the whole run so far. *)
#[local] Set Default Proof Using "All".

Lemma fs3_post : mkdir_post fs2 fs3 (proc_parts cwd).
Proof. by eapply path_mkdir_post. Qed.

Lemma fs3_img_check : check_dirs fs3 [] (img_parts cwd) = Ok ().
Proof.
  pose proof (mkdir_post_check_dirs _ _ _ fs3_post) as Hd.
  unfold proc_parts in Hd. rewrite check_dirs_app in Hd.
  by destruct (check_dirs fs3 [] (img_parts cwd)) as [[]|].
Qed.

Lemma fs3_img_dir : path_is_dir fs3 (img_parts cwd) = true.
Proof. unfold path_is_dir. by rewrite fs3_img_check. Qed.

Lemma glob_name u :
  u ∈ glob_images cwd fs3 →
  ∃ n, u = IMAGE_FOLDER cwd </> n ∧ is_name n ∧ path_split u = (IMAGE_FOLDER cwd, n) ∧
       in_path (cwd_parts cwd) u = img_parts cwd ++ [n] ∧
       out_path (cwd_parts cwd) (PROCESSED_FOLDER cwd) u = proc_parts cwd ++ ["thumb_" +:+ n].
Proof.
  intros (n & -> & [v Hv] & _ & Hj & Hs)%(glob_images_elem _ _ fs3_img_dir).
  pose proof (jpg_is_name n Hs Hj) as Hn.
  assert (path_split (IMAGE_FOLDER cwd </> n) = (IMAGE_FOLDER cwd, n)) as Hsp.
  { apply path_split_join; [apply image_folder_shape..|done]. }
  exists n. split_and!; [done|done|done| |].
  - unfold in_path. by rewrite os_resolve_join, image_folder_resolve.
  - by rewrite out_path_parent, processed_folder_resolve, Hsp.
Qed.

(** The processing stage starts in a state where its hypotheses hold. *)
Lemma stage2_pre :
  stage_pre (cwd_parts cwd) (PROCESSED_FOLDER cwd) (glob_images cwd fs3) fs3.
Proof.
  destruct (stage1_post fs1 fs2 ts Hmk1 Hst1) as (Hpost1 & _ & Hframe1).
  split_and!.
  - rewrite (glob_images_eq _ fs3_img_dir), <-list_fmap_compose.
    erewrite list_fmap_ext; [rewrite list_fmap_id; apply NoDup_filter, NoDup_filter, listdir_NoDup|].
    intros _ n (_ & (_ & [_ Hs]%listdir_spec)%list_elem_of_filter)%list_elem_of_lookup_2%list_elem_of_filter.
    simpl. by rewrite path_split_join; [|apply image_folder_shape..|].
  - rewrite processed_folder_resolve by done. by eapply mkdir_post_check_dirs, fs3_post.
  - intros u (n & _ & _ & _ & _ & ->)%glob_name.
    rewrite (mkdir_post_longer _ _ _ _ fs3_post) by (rewrite length_app; simpl; lia).
    rewrite Hframe1.
    + rewrite (mkdir_post_longer _ _ _ _ Hpost1); [apply Hproc|].
      unfold proc_parts. rewrite !length_app. simpl. lia.
    + intros v _ Heq. apply (f_equal length) in Heq. unfold proc_parts in Heq.
      rewrite !length_app in Heq. simpl in Heq. lia.
  - apply stage_pre_shorter. apply Forall_forall. intros u Hu. apply Forall_forall. intros v Hv.
    destruct (glob_name u Hu) as (n & _ & _ & _ & -> & _).
    destruct (glob_name v Hv) as (m & _ & _ & _ & _ & ->).
    unfold proc_parts. rewrite !length_app. simpl. lia.
Qed.

(** The stages before the processing stage leave the entries of
    [PROCESSED_FOLDER] as they were. *)
Lemma fs3_proc x : fs3 !! (proc_parts cwd ++ [x]) = fs !! (proc_parts cwd ++ [x]).
Proof.
  destruct (stage1_post fs1 fs2 ts Hmk1 Hst1) as (Hpost1 & _ & Hframe1).
  rewrite (mkdir_post_longer _ _ _ _ fs3_post) by (rewrite length_app; simpl; lia).
  rewrite Hframe1 by (intros u _; apply not_eq_sym, img_proc_ne).
  apply (mkdir_post_longer _ _ _ _ Hpost1). unfold proc_parts. rewrite !length_app. simpl. lia.
Qed.

(** An input of the processing stage is a [.jpg] name that does not
    start with a dot. *)
Lemma glob_name_flags u :
  u ∈ glob_images cwd fs3 →
  str_startswith (path_split u).2 "." = false ∧ str_endswith (path_split u).2 ".jpg" = true.
Proof.
  intros (n & -> & [v Hv] & Hh & Hj & Hs)%(glob_images_elem _ _ fs3_img_dir).
  rewrite path_split_join; [by split|apply image_folder_shape..|].
  by apply jpg_is_name.
Qed.

(** The processing stage changes no path as short as an entry of
    [IMAGE_FOLDER]. *)
Lemma stage2_frame_short fs4 ts' q :
  pr_stage (cwd_parts cwd) (PROCESSED_FOLDER cwd) (fs3, map PrStart (glob_images cwd fs3)) (fs4, ts') →
  length q ≤ S (length (img_parts cwd)) → fs4 !! q = fs3 !! q.
Proof.
  intros Hst Hq. destruct (transform_stage_correct _ _ _ _ _ _ stage2_pre Hst) as [_ Hframe].
  apply Hframe. intros v Hv. destruct (glob_name v Hv) as (k & _ & _ & _ & _ & ->).
  intros ->. unfold proc_parts in Hq. rewrite !length_app in Hq. simpl in Hq. lia.
Qed.

(** Every successful download is in [IMAGE_FOLDER] before the processing
    stage. *)
Lemma fs3_stored url r :
  url ∈ urls → requests_get url = Ok r →
  fs3 !! (img_parts cwd ++ [url_name url]) = Some (IFile (content r)).
Proof.
  intros Hu Hr. destruct (stage1_post fs1 fs2 ts Hmk1 Hst1) as (_ & Hfiles & _).
  rewrite (mkdir_post_sibling _ _ _ _ _ fs3_post) by apply url_name_ne_processed.
  by apply Hfiles.
Qed.

End Stage2.

(** C1: End to end: when [main] returns, for each URL whose request
    succeeded, [IMAGE_FOLDER/<name>] holds the response body, and
    [IMAGE_FOLDER/processed/thumb_<name>] holds the JPEG encoding of the
    blurred thumbnail of that body whenever decoding, blurring and
    encoding succeed, whatever the interleaving of the workers of either
    stage and whatever the other requests did.  The hypotheses: the
    working directory holds no [glob] wildcard ([*], [?], [[]), the
    names of the URLs are distinct, the file name does not start with a
    dot (else [glob] skips it), and there is no directory in the way of
    a download or in [PROCESSED_FOLDER]. *)
Theorem main_end_to_end fs' url r img img' data :
  main_with cwd urls fs (Ok ()) fs' →
  url ∈ urls → requests_get url = Ok r → str_startswith (url_name url) "." = false →
  pil_decode (content r) = Ok img → pil_blur blur_radius img = Ok img' →
  pil_encode_jpeg (thumbnail img' thumb_size) = Ok data →
  fs' !! (img_parts cwd ++ [url_name url]) = Some (IFile (content r)) ∧
  fs' !! (proc_parts cwd ++ ["thumb_" +:+ url_name url]) = Some (IFile data).
Proof.
  intros Hrun Hu Hr Hdot Hdec Hblur Henc.
  inversion Hrun as [ | | ? fs1 fs2 ts fs3 ts' fs4 Hmk1 Hst1 Hmk2 Hst2]; subst.
  rewrite create_images in Hmk1 by done. rewrite create_processed in Hmk2 by done.
  set (n := url_name url). set (u0 := IMAGE_FOLDER cwd </> n).
  pose proof (fs3_stored fs1 fs2 fs3 ts Hmk1 Hst1 Hmk2 url r Hu Hr) as Hf3.
  assert (u0 ∈ glob_images cwd fs3) as Hu0.
  { apply (glob_images_elem _ _ (fs3_img_dir fs1 fs2 fs3 ts Hmk1 Hst1 Hmk2)). exists n.
    split_and!; [done|by eexists|done|apply url_name_jpg|apply url_name_is_name]. }
  destruct (glob_name fs1 fs2 fs3 ts Hmk1 Hst1 Hmk2 u0 Hu0) as (m & _ & _ & Hsp & Hin & Hout).
  assert (m = n) as ->.
  { unfold u0 in Hsp. rewrite path_split_join in Hsp; [by simplify_eq|apply image_folder_shape..|].
    apply (url_name_is_name url). }
  destruct (transform_stage_correct _ _ _ _ _ _ (stage2_pre fs1 fs2 fs3 ts Hmk1 Hst1 Hmk2) Hst2)
    as [Hthumbs _].
  split.
  - rewrite (stage2_frame_short fs1 fs2 fs3 ts Hmk1 Hst1 Hmk2 fs' ts' _ Hst2); [done|].
    rewrite length_app. simpl. lia.
  - rewrite <-Hout, Hthumbs by done. unfold out_expected, thumb_image.
    rewrite Hin. unfold img_parts.
    rewrite (read_file_ok _ _ _ (content r)); [simpl|exact (fs3_img_check fs1 fs2 fs3 ts Hmk1 Hst1 Hmk2)|done].
    by rewrite Hdec; simpl; rewrite Hblur; simpl; rewrite Henc.
Qed.

(** ** Running [main] again *)

(** A run of [main] that returns re-establishes the hypotheses of the
    section. *)
Lemma main_run_pre fs' :
  main_with cwd urls fs (Ok ()) fs' →
  (∀ u, u ∈ urls → fs' !! (img_parts cwd ++ [url_name u]) ≠ Some IDir) ∧
  (∀ x, fs' !! (proc_parts cwd ++ [x]) ≠ Some IDir).
Proof.
  intros Hrun. inversion Hrun as [ | | ? fs1 fs2 ts fs3 ts' fs4 Hmk1 Hst1 Hmk2 Hst2]; subst.
  rewrite create_images in Hmk1 by done. rewrite create_processed in Hmk2 by done.
  pose proof (λ q, stage2_frame_short fs1 fs2 fs3 ts Hmk1 Hst1 Hmk2 fs' ts' q Hst2) as Hshort.
  pose proof (fs3_post fs1 fs2 fs3 ts Hmk1 Hst1 Hmk2) as Hpost3.
  assert (∀ x, fs' !! (img_parts cwd ++ [x]) = fs3 !! (img_parts cwd ++ [x])) as Himg
    by (intros x; apply Hshort; rewrite length_app; simpl; lia).
  split_and!.
  - intros u Hu. rewrite Himg, (mkdir_post_sibling _ _ _ _ _ Hpost3) by apply url_name_ne_processed.
    by apply (stage1_targets fs1 fs2 ts).
  - intros x. pose proof (stage2_pre fs1 fs2 fs3 ts Hmk1 Hst1 Hmk2) as Hpre.
    destruct (transform_stage_correct _ _ _ _ _ _ Hpre Hst2) as [Hout Hframe].
    destruct (decide (Exists (λ u, out_path (cwd_parts cwd) (PROCESSED_FOLDER cwd) u =
                proc_parts cwd ++ [x]) (glob_images cwd fs3))) as [Hex|Hno].
    + apply Exists_exists in Hex as (u & Hu & <-). rewrite Hout by done.
      destruct Hpre as (_ & _ & Hnotdir & _). pose proof (Hnotdir u Hu) as Hn.
      unfold out_expected. destruct (thumb_image _ _ u); [|done].
      destruct (pil_encode_jpeg _); [done|]. by destruct (fs3 !! _).
    + rewrite Hframe by (intros u Hu Heq; apply Hno, Exists_exists; eauto).
      rewrite (fs3_proc fs1 fs2 fs3 ts Hmk1 Hst1 Hmk2). apply Hproc.
Qed.

(** The state a run of [main] leaves: both folders exist, every
    successful download is stored, and every thumbnail target holds what
    its worker would leave. *)
Lemma main_run_fixed fs' :
  main_with cwd urls fs (Ok ()) fs' →
  (∀ k, 0 < k ≤ length (proc_parts cwd) → fs' !! take k (proc_parts cwd) = Some IDir) ∧
  (∀ u r, u ∈ urls → requests_get u = Ok r →
     fs' !! (img_parts cwd ++ [url_name u]) = Some (IFile (content r))) ∧
  (∀ u, u ∈ glob_images cwd fs' →
     out_expected (cwd_parts cwd) (PROCESSED_FOLDER cwd) fs' u =
     fs' !! out_path (cwd_parts cwd) (PROCESSED_FOLDER cwd) u).
Proof.
  intros Hrun. inversion Hrun as [ | | ? fs1 fs2 ts fs3 ts' fs4 Hmk1 Hst1 Hmk2 Hst2]; subst.
  rewrite create_images in Hmk1 by done. rewrite create_processed in Hmk2 by done.
  pose proof (λ q, stage2_frame_short fs1 fs2 fs3 ts Hmk1 Hst1 Hmk2 fs' ts' q Hst2) as Hshort.
  pose proof (fs3_post fs1 fs2 fs3 ts Hmk1 Hst1 Hmk2) as Hpost3.
  split_and!.
  - intros k Hk. rewrite Hshort; [by apply Hpost3|].
    rewrite length_take. unfold proc_parts in *. rewrite length_app in *. simpl in *. lia.
  - intros u r Hu Hr. rewrite Hshort by (rewrite length_app; simpl; lia).
    by apply (fs3_stored fs1 fs2 fs3 ts Hmk1 Hst1 Hmk2).
  - pose proof (fs3_img_dir fs1 fs2 fs3 ts Hmk1 Hst1 Hmk2) as Hdir3.
    assert (path_is_dir fs' (img_parts cwd) = true) as Hdir'.
    { unfold path_is_dir in *. rewrite check_dirs_frame with (fs := fs3); [done|].
      intros k Hk. apply Hshort. simpl. rewrite length_take. lia. }
    intros u Hu. apply (glob_images_elem _ _ Hdir') in Hu as Hu'.
    destruct Hu' as (n & -> & Hin & Hh & Hj & Hs).
    rewrite Hshort in Hin by (rewrite length_app; simpl; lia).
    assert (IMAGE_FOLDER cwd </> n ∈ glob_images cwd fs3) as Hu3
      by (apply (glob_images_elem _ _ Hdir3); exists n; by split_and!).
    destruct (transform_stage_correct _ _ _ _ _ _ (stage2_pre fs1 fs2 fs3 ts Hmk1 Hst1 Hmk2) Hst2)
      as [Hout _].
    rewrite (Hout _ Hu3). apply out_expected_stable; [|by apply Hout].
    destruct (glob_name fs1 fs2 fs3 ts Hmk1 Hst1 Hmk2 _ Hu3) as (m & _ & _ & _ & -> & _).
    apply read_file_frame. intros k Hk. apply Hshort. rewrite length_take, length_app in *. simpl in *. lia.
Qed.

(** From a state such as a run of [main] leaves, [main] changes nothing. *)
Lemma main_noop fs' :
  (∀ k, 0 < k ≤ length (proc_parts cwd) → fs !! take k (proc_parts cwd) = Some IDir) →
  (∀ u r, u ∈ urls → requests_get u = Ok r →
     fs !! (img_parts cwd ++ [url_name u]) = Some (IFile (content r))) →
  (∀ u, u ∈ glob_images cwd fs →
     out_expected (cwd_parts cwd) (PROCESSED_FOLDER cwd) fs u =
     fs !! out_path (cwd_parts cwd) (PROCESSED_FOLDER cwd) u) →
  main_with cwd urls fs (Ok ()) fs' → fs' = fs.
Proof.
  intros Hdirs Hstored Hthumbs Hrun.
  inversion Hrun as [ | | ? fs1 fs2 ts fs3 ts' fs4 Hmk1 Hst1 Hmk2 Hst2]; subst.
  rewrite create_images in Hmk1 by done. rewrite create_processed in Hmk2 by done.
  pose proof (stage2_pre fs1 fs2 fs3 ts Hmk1 Hst1 Hmk2) as Hpre.
  assert (fs1 = fs) as ->.
  { apply (mkdir_post_noop _ _ (img_parts cwd)); [|by eapply path_mkdir_post].
    intros k Hk. rewrite <-(take_app_le (img_parts cwd) ["processed"]) by lia.
    apply Hdirs. unfold proc_parts. rewrite length_app. lia. }
  destruct (stage1_pre fs Hmk1) as [Hd Ht].
  assert (fs2 = fs) as ->.
  { apply (fetch_stage_fixed _ _ _ _ _ ts Hnd Hd Ht); [|done].
    intros u r Hu Hr. rewrite img_dl_target. by apply Hstored. }
  assert (fs3 = fs) as ->.
  { apply (mkdir_post_noop _ _ (proc_parts cwd)); [done|by eapply path_mkdir_post]. }
  exact (transform_stage_fixed _ _ _ _ _ _ Hpre Hst2 Hthumbs).
Qed.

(** C6: Every thumbnail file a run of [main] writes or changes in
    [PROCESSED_FOLDER] is [thumb_<n>] for a stored image [n] of
    [IMAGE_FOLDER]: [n] is a [.jpg] name that does not start with a dot,
    and at the end [IMAGE_FOLDER/<n>] is a regular file whose bytes
    decode.  Each stored image has at most this one thumbnail. *)
Theorem main_thumb_source fs' k d :
  main_with cwd urls fs (Ok ()) fs' →
  fs' !! (proc_parts cwd ++ [k]) = Some (IFile d) →
  fs !! (proc_parts cwd ++ [k]) ≠ Some (IFile d) →
  ∃ n c img, k = "thumb_" +:+ n ∧
    str_startswith n "." = false ∧ str_endswith n ".jpg" = true ∧
    fs' !! (img_parts cwd ++ [n]) = Some (IFile c) ∧ pil_decode c = Ok img.
Proof.
  intros Hrun Hd Hne.
  inversion Hrun as [ | | ? fs1 fs2 ts fs3 ts' fs4 Hmk1 Hst1 Hmk2 Hst2]; subst.
  rewrite create_images in Hmk1 by done. rewrite create_processed in Hmk2 by done.
  rewrite <-(fs3_proc fs1 fs2 fs3 ts Hmk1 Hst1 Hmk2) in Hne.
  destruct (transform_stage_correct _ _ _ _ _ _ (stage2_pre fs1 fs2 fs3 ts Hmk1 Hst1 Hmk2) Hst2)
    as [Hout Hframe].
  destruct (decide (Exists (λ u, out_path (cwd_parts cwd) (PROCESSED_FOLDER cwd) u =
              proc_parts cwd ++ [k]) (glob_images cwd fs3))) as [Hex|Hno].
  2: { exfalso. apply Hne. rewrite <-Hframe; [done|].
       intros u Hu Heq. apply Hno, Exists_exists. eauto. }
  apply Exists_exists in Hex as (u & Hu & Heq).
  destruct (glob_name fs1 fs2 fs3 ts Hmk1 Hst1 Hmk2 u Hu) as (n & -> & _ & Hsp & Hin & Hout').
  destruct (glob_name_flags fs1 fs2 fs3 ts Hmk1 Hst1 Hmk2 _ Hu) as [Hh Hj]. rewrite Hsp in Hh, Hj.
  rewrite Heq in Hout'. apply app_inj_tail in Hout' as [_ ->].
  rewrite <-Heq, Hout in Hd by done. rewrite <-Heq in Hne.
  unfold out_expected, thumb_image in Hd. rewrite Hin in Hd.
  destruct (read_file (img_parts cwd ++ [n]) fs3).1 as [c|] eqn:Hr; simpl in Hd; [|done].
  destruct (pil_decode c) as [img|] eqn:Hdec; simpl in Hd; [|done].
  exists n, c, img. split_and!; [done..| |done].
  rewrite (stage2_frame_short fs1 fs2 fs3 ts Hmk1 Hst1 Hmk2 fs' ts' _ Hst2)
    by (rewrite length_app; simpl; lia).
  by apply read_file_file.
Qed.

(** ** [main] returns normally *)

Hypothesis Hwf : fs_wf fs.
Hypothesis Hnofile :
  ∀ k c, 0 < k ≤ length (proc_parts cwd) → fs !! take k (proc_parts cwd) ≠ Some (IFile c).

Lemma mkdir_images_ok : ∃ fs1, path_mkdir (img_parts cwd) true true fs = (Ok (), fs1).
Proof.
  destruct (path_mkdir_ok (img_parts cwd) fs Hwf) as (fs1 & Hrun & _); [|by eexists].
  intros k c Hk. rewrite <-(take_app_le (img_parts cwd) ["processed"]) by lia.
  apply Hnofile. unfold proc_parts. rewrite length_app. lia.
Qed.

Lemma mkdir_processed_ok fs1 fs2 ts :
  path_mkdir (img_parts cwd) true true fs = (Ok (), fs1) →
  dl_stage (cwd_parts cwd) (IMAGE_FOLDER cwd) (fs1, map DlStart urls) (fs2, ts) →
  ∃ fs3, path_mkdir (proc_parts cwd) true true fs2 = (Ok (), fs3).
Proof.
  intros Hmk1 Hst1. destruct (stage1_post fs1 fs2 ts Hmk1 Hst1) as (Hpost1 & _ & Hframe1).
  assert (fs_wf fs1) as Hwf1.
  { pose proof (mkdir_rev_wf (reverse (img_parts cwd)) true true fs Hwf) as Hw.
    unfold path_mkdir in Hmk1. by rewrite Hmk1 in Hw. }
  destruct (path_mkdir_ok (proc_parts cwd) fs2) as (fs3 & Hrun & _); [by eapply dl_stage_wf| |by eexists].
  intros k c Hk. unfold proc_parts in Hk |- *. rewrite length_app in Hk. simpl in Hk.
  destruct (decide (k ≤ length (img_parts cwd))).
  - rewrite take_app_le by lia. rewrite Hframe1.
    + by rewrite (proj1 Hpost1) by lia.
    + intros u _ Heq. apply (f_equal length) in Heq.
      rewrite length_take, length_app in Heq. simpl in Heq. lia.
  - rewrite take_ge by (rewrite length_app; simpl; lia).
    rewrite Hframe1, (mkdir_post_longer _ _ _ _ Hpost1).
    + fold (proc_parts cwd). rewrite <-(take_ge (proc_parts cwd) k) by (unfold proc_parts;
        rewrite length_app; simpl; lia). apply Hnofile. unfold proc_parts. rewrite length_app. simpl. lia.
    + rewrite length_app. simpl. lia.
    + intros u _ [_ Heq]%app_inj_tail. by apply (url_name_ne_processed u).
Qed.

(** C2: [main] always returns normally: some run of it completes, and
    every run, whatever the interleaving of the workers and whatever
    the requests and the images do, returns without an exception.  The
    hypotheses: the file system is a well-formed tree, no prefix of
    [PROCESSED_FOLDER] is a regular file, the URLs' names are distinct
    and no directory is at a download target. *)
Theorem main_ok :
  (∃ fs', main_with cwd urls fs (Ok ()) fs') ∧
  ∀ r fs', main_with cwd urls fs r fs' → r = Ok ().
Proof.
  destruct mkdir_images_ok as [fs1 Hmk1]. split.
  - destruct (@Executor.stage_completes _ _ (dl_task_Task (cwd_parts cwd) (IMAGE_FOLDER cwd))
      (fs1, map DlStart urls)) as [[fs2 ts] Hst1].
    destruct (mkdir_processed_ok fs1 fs2 ts Hmk1 Hst1) as [fs3 Hmk2].
    destruct (@Executor.stage_completes _ _ (pr_task_Task (cwd_parts cwd) (PROCESSED_FOLDER cwd))
      (fs3, map PrStart (glob_images cwd fs3))) as [[fs4 ts'] Hst2].
    exists fs4. eapply main_done; [rewrite create_images by done; exact Hmk1|exact Hst1| |exact Hst2].
    rewrite create_processed by done. exact Hmk2.
  - intros r fs' Hrun. inversion Hrun as [? e ? Hmk|? fs1' fs2 ts e ? Hmk Hst1 Hmk2|]; subst; [..|done].
    + rewrite create_images in Hmk by done. congruence.
    + rewrite create_images, Hmk1 in Hmk by done. simplify_eq.
      rewrite create_processed in Hmk2 by done.
      destruct (mkdir_processed_ok _ fs2 ts Hmk1 Hst1) as [fs3 Hmk3]. congruence.
Qed.

End Run.

(** Printing changes nothing else: every run of [main] with its
    standard output, raising or not, ends on the file system and with the
    outcome of a run of the silent [main_with]. *)
Lemma main_out_refines `{!Http} `{!ImageLib} cwd urls fs out r fs' out' :
  main_out cwd urls (fs, out) r (fs', out') → main_with cwd urls fs r fs'.
Proof.
  intros Hrun. inversion Hrun as [|? ? ? p2 ? ? ? Hst1|? ? ? p2 ? p4 ? ? Hst1 ? Hst2]; subst.
  - by eapply main_images_error.
  - eapply main_processed_error; [done|by apply (dl_stage_silent _ _ _ _ _ _ Hst1)|done].
  - eapply main_done; [done|by apply (dl_stage_silent _ _ _ _ _ _ Hst1)|done|].
    by apply (pr_stage_silent _ _ _ _ _ _ Hst2).
Qed.

(** C26: The order of the program's output: the standard output grows by
    the chunks of the download threads, then by those of the thumbnail
    workers, and, when [main] returns, ends with its [Time taken] line;
    every URL's [Downloading image from <name>] line is among the first
    chunks.  When [main] raises, no thumbnail worker wrote and no time is
    printed. *)
Theorem main_out_order `{!Http} `{!ImageLib} cwd urls fs out0 r fs' out' :
  main_out cwd urls (fs, out0) r (fs', out') →
  ∃ dl pr, Forall (λ c, ∃ u, u ∈ urls ∧ dl_chunk u c) dl ∧ Forall (λ c, ∃ u, pr_chunk u c) pr ∧
    ((r = Ok () ∧ (∀ u, u ∈ urls → py_print ("Downloading image from " +:+ url_name u) `sublist_of` dl) ∧
      ∃ elapsed, out' = out0 ++ dl ++ pr ++ py_print ("Time taken: " +:+ elapsed)) ∨
     (r ≠ Ok () ∧ pr = [] ∧ out' = out0 ++ dl)).
Proof.
  intros Hrun. inversion Hrun as [|? ? ? p2 ? ? ? Hst1|? ? ? p2 ? p4 elapsed ? Hst1 ? Hst2]; subst.
  - exists [], []. split_and!; [done..|]. right. by rewrite app_nil_r.
  - destruct (dl_stage_chunks _ _ _ _ _ _ Hst1) as (dl & Hout & Hdl & _).
    exists dl, []. split_and!; [done..|]. by right.
  - destruct (dl_stage_chunks _ _ _ _ _ _ Hst1) as (dl & Hout1 & Hdl & Hfirst).
    destruct (pr_stage_chunks _ _ _ _ _ _ Hst2) as (pr & Hout2 & Hpr & _).
    exists dl, pr. split_and!; [done| |left; split_and!; [done..|]].
    + eapply Forall_impl; [exact Hpr|]. intros c (u & _ & Hc). by exists u.
    + exists elapsed. by rewrite Hout2, Hout1, <-!app_assoc.
Qed.

(** The program as it runs refines the model of every
    interleaving: each run of [main] with [ThreadPoolExecutor()] and
    [ProcessPoolExecutor()] of their default sizes, raising or not, is a
    run of [main_out], output included, so the theorems about [main_out]
    and, through it, [main_with] hold of the program as it runs. *)
Lemma main_exec_refines `{!Http} `{!ImageLib} cwd cpu urls s r s' :
  main_exec cwd cpu urls s r s' → main_out cwd urls s r s'.
Proof.
  destruct 1; [eapply out_images_error|eapply out_processed_error|eapply out_done];
    by try eapply wstage_refines.
Qed.

(** C12: [glob] never lists a file whose name starts with a dot: the file
    [IMAGE_FOLDER/.jpg] that a URL ending with a slash (or whose last
    segment starts with [?]) is downloaded to is never processed.  This
    holds for every working directory, wildcards in it included. *)
Theorem glob_skips_hidden cwd fs n :
  str_startswith n "." = true →
  ∀ u, u ∈ glob_images cwd fs → (path_split u).2 ≠ n.
Proof.
  intros Hn u Hu. unfold glob_images in Hu.
  apply glob_star_result in Hu as [Hh _]; [|by rewrite path_split_join_tail..].
  unfold is_hidden in Hh. congruence.
Qed.

(** ** A concrete run of [main] *)

(** C5: [main] is idempotent: run again on the file system a run that
    returned left, it returns to the same file system: every stored
    image, every thumbnail and every other entry is as the first run left
    it.  The hypotheses are those of [main_end_to_end]; the requests are
    answered the same way both times. *)
Theorem main_idempotent `{!Http} `{!ImageLib} cwd urls fs fs1 fs2 :
  str_startswith cwd "/" = true → has_magic cwd = false → NoDup (map url_name urls) →
  (∀ u, u ∈ urls → fs !! (img_parts cwd ++ [url_name u]) ≠ Some IDir) →
  (∀ x, fs !! (proc_parts cwd ++ [x]) ≠ Some IDir) →
  main_with cwd urls fs (Ok ()) fs1 → main_with cwd urls fs1 (Ok ()) fs2 → fs2 = fs1.
Proof.
  intros Habs Hmag Hnd Ht Hp Hrun1 Hrun2.
  destruct (main_run_pre cwd Habs urls fs Hnd Ht Hp Hmag fs1 Hrun1) as (Ht1 & Hp1).
  destruct (main_run_fixed cwd Habs urls fs Hnd Ht Hp Hmag fs1 Hrun1) as (Hd1 & Hs1 & Hth1).
  exact (main_noop cwd Habs urls fs1 Hnd Ht1 Hp1 Hmag fs2 Hd1 Hs1 Hth1 Hrun2).
Qed.

(** C7: Boundary: with no URL and nothing below [IMAGE_FOLDER] at the
    start, a run of [main] that returns leaves [IMAGE_FOLDER] holding
    only the directory [processed], and [PROCESSED_FOLDER] empty: no
    download and no thumbnail. *)
Theorem main_no_urls `{!Http} `{!ImageLib} cwd fs fs' :
  str_startswith cwd "/" = true → has_magic cwd = false →
  (∀ x q, fs !! (img_parts cwd ++ x :: q) = None) →
  main_with cwd [] fs (Ok ()) fs' →
  (∀ x, fs' !! (img_parts cwd ++ [x]) = if bool_decide (x = "processed") then Some IDir else None) ∧
  (∀ x, fs' !! (proc_parts cwd ++ [x]) = None).
Proof.
  intros Habs Hmag Hempty Hrun.
  assert (∀ x, fs !! (proc_parts cwd ++ [x]) = None) as Hp.
  { intros x. unfold proc_parts. rewrite <-app_assoc. apply Hempty. }
  inversion Hrun as [ | | ? fs1 fs2 ts fs3 ts' fs4 Hmk1 Hst1 Hmk2 Hst2]; subst.
  rewrite create_images in Hmk1 by done. rewrite create_processed in Hmk2 by done.
  assert (NoDup (map url_name [])) as Hnd by constructor.
  assert (∀ u, u ∈ [] → fs !! (img_parts cwd ++ [url_name u]) ≠ Some IDir) as Ht
    by (intros u Hu; by apply not_elem_of_nil in Hu).
  assert (∀ x, fs !! (proc_parts cwd ++ [x]) ≠ Some IDir) as Hpd by (intros x; by rewrite Hp).
  destruct (stage1_post cwd Habs [] fs Hnd Ht fs1 fs2 ts Hmk1 Hst1) as (Hpost1 & _ & Hframe1).
  pose proof (fs3_post cwd Habs [] fs Hnd Ht Hpd Hmag fs1 fs2 fs3 ts Hmk1 Hst1 Hmk2) as Hpost3.
  assert (∀ x, fs3 !! (img_parts cwd ++ [x]) =
            if bool_decide (x = "processed") then Some IDir else None) as Himg3.
  { intros x. case_bool_decide as Hx.
    - subst x. change (img_parts cwd ++ ["processed"]) with (proc_parts cwd).
      rewrite <-(firstn_all (proc_parts cwd)). apply Hpost3.
      unfold proc_parts. rewrite length_app. simpl. lia.
    - rewrite (mkdir_post_sibling _ _ _ _ _ Hpost3 Hx), Hframe1
        by (intros u Hu; by apply not_elem_of_nil in Hu).
      rewrite (mkdir_post_longer _ _ _ _ Hpost1) by (rewrite length_app; simpl; lia).
      apply Hempty. }
  split.
  - intros x. rewrite <-Himg3.
    apply (stage2_frame_short cwd Habs [] fs Hnd Ht Hpd Hmag fs1 fs2 fs3 ts Hmk1 Hst1 Hmk2 fs' ts' _ Hst2).
    rewrite length_app. simpl. lia.
  - intros x.
    destruct (transform_stage_correct _ _ _ _ _ _
      (stage2_pre cwd Habs [] fs Hnd Ht Hpd Hmag fs1 fs2 fs3 ts Hmk1 Hst1 Hmk2) Hst2) as [_ Hframe2].
    rewrite Hframe2.
    + rewrite (fs3_proc cwd Habs [] fs Hnd Ht Hpd Hmag fs1 fs2 fs3 ts Hmk1 Hst1 Hmk2). apply Hp.
    + intros u Hu. exfalso.
      apply (glob_images_elem cwd Habs Hmag fs3 u (fs3_img_dir cwd Habs [] fs Hnd Ht Hpd Hmag fs1 fs2 fs3 ts
        Hmk1 Hst1 Hmk2)) in Hu as (n & -> & [v Hv] & _ & Hj & _).
      rewrite Himg3 in Hv. case_bool_decide; [subst n; discriminate Hj|done].
Qed.

Section Demo.
#[local] Existing Instance SizeOnly.size_only_lib.

Definition demo_cwd : string := "/home/u".
Definition demo_fs : FS := {[ ["home"] := IDir; ["home"; "u"] := IDir ]}.

(** The URL of the spec's scenario, answered with a 600x400 image, and a
    URL answered with an error page. *)
Definition demo_urls : list string :=
  ["https://example.com/photo-abc?x=1"; "https://example.com/b/photo-2"].

#[local] Instance demo_http : Http := {|
  requests_get := λ u,
    if bool_decide (u = "https://example.com/photo-abc?x=1")
    then Ok (mk_response 200 [x02; x58; x01; x90])
    else Ok (mk_response 404 [x34; x30; x34])
|}.

Definition demo_fs1 : FS := (path_mkdir (img_parts demo_cwd) true true demo_fs).2.
Definition demo_stage1 : FS * list dl_task :=
  @Executor.run_first _ _ (dl_task_Task (cwd_parts demo_cwd) (IMAGE_FOLDER demo_cwd))
    8 (demo_fs1, map DlStart demo_urls).
Definition demo_fs3 : FS := (path_mkdir (proc_parts demo_cwd) true true demo_stage1.1).2.
Definition demo_stage2 : FS * list pr_task :=
  @Executor.run_first _ _ (pr_task_Task (cwd_parts demo_cwd) (PROCESSED_FOLDER demo_cwd))
    6 (demo_fs3, map PrStart (glob_images demo_cwd demo_fs3)).

Lemma demo_main_run : main_with demo_cwd demo_urls demo_fs (Ok ()) demo_stage2.1.
Proof.
  apply (main_done _ _ _ demo_fs1 demo_stage1.1 demo_stage1.2 demo_fs3 demo_stage2.2).
  - rewrite create_images by reflexivity. unfold demo_fs1. apply pair_eq_fst.
    vm_compute. reflexivity.
  - rewrite <-surjective_pairing. split; [apply Executor.run_first_rtc|vm_compute; reflexivity].
  - rewrite create_processed by reflexivity. unfold demo_fs3. apply pair_eq_fst.
    vm_compute. reflexivity.
  - rewrite <-surjective_pairing. split; [apply Executor.run_first_rtc|vm_compute; reflexivity].
Qed.

(** The same program run again from the state the first run left. *)
Definition demo2_fs1 : FS := (path_mkdir (img_parts demo_cwd) true true demo_stage2.1).2.
Definition demo2_stage1 : FS * list dl_task :=
  @Executor.run_first _ _ (dl_task_Task (cwd_parts demo_cwd) (IMAGE_FOLDER demo_cwd))
    8 (demo2_fs1, map DlStart demo_urls).
Definition demo2_fs3 : FS := (path_mkdir (proc_parts demo_cwd) true true demo2_stage1.1).2.
Definition demo2_stage2 : FS * list pr_task :=
  @Executor.run_first _ _ (pr_task_Task (cwd_parts demo_cwd) (PROCESSED_FOLDER demo_cwd))
    6 (demo2_fs3, map PrStart (glob_images demo_cwd demo2_fs3)).

Lemma demo_main_rerun : main_with demo_cwd demo_urls demo_stage2.1 (Ok ()) demo2_stage2.1.
Proof.
  apply (main_done _ _ _ demo2_fs1 demo2_stage1.1 demo2_stage1.2 demo2_fs3 demo2_stage2.2).
  - rewrite create_images by reflexivity. unfold demo2_fs1. apply pair_eq_fst.
    vm_compute. reflexivity.
  - rewrite <-surjective_pairing. split; [apply Executor.run_first_rtc|vm_compute; reflexivity].
  - rewrite create_processed by reflexivity. unfold demo2_fs3. apply pair_eq_fst.
    vm_compute. reflexivity.
  - rewrite <-surjective_pairing. split; [apply Executor.run_first_rtc|vm_compute; reflexivity].
Qed.

(** The program with no URL. *)
Definition demo0_stage1 : FS * list dl_task :=
  @Executor.run_first _ _ (dl_task_Task (cwd_parts demo_cwd) (IMAGE_FOLDER demo_cwd))
    1 (demo_fs1, map DlStart []).
Definition demo0_fs3 : FS := (path_mkdir (proc_parts demo_cwd) true true demo0_stage1.1).2.
Definition demo0_stage2 : FS * list pr_task :=
  @Executor.run_first _ _ (pr_task_Task (cwd_parts demo_cwd) (PROCESSED_FOLDER demo_cwd))
    1 (demo0_fs3, map PrStart (glob_images demo_cwd demo0_fs3)).

Lemma demo_main_empty : main_with demo_cwd [] demo_fs (Ok ()) demo0_stage2.1.
Proof.
  apply (main_done _ _ _ demo_fs1 demo0_stage1.1 demo0_stage1.2 demo0_fs3 demo0_stage2.2).
  - rewrite create_images by reflexivity. unfold demo_fs1. apply pair_eq_fst.
    vm_compute. reflexivity.
  - rewrite <-surjective_pairing. split; [apply Executor.run_first_rtc|vm_compute; reflexivity].
  - rewrite create_processed by reflexivity. unfold demo0_fs3. apply pair_eq_fst.
    vm_compute. reflexivity.
  - rewrite <-surjective_pairing. split; [apply Executor.run_first_rtc|vm_compute; reflexivity].
Qed.

Lemma demo_fs_short : ∀ q, 3 ≤ length q → demo_fs !! q = None.
Proof. apply fs_keys_shorter. apply (bool_decide_unpack _). vm_compute. exact I. Qed.

(** The stored image and its 300x200 thumbnail. *)
Lemma main_end_to_end_witness :
  demo_stage2.1 !! ["home"; "u"; "images"; "photo-abc.jpg"] = Some (IFile [x02; x58; x01; x90]) ∧
  demo_stage2.1 !! ["home"; "u"; "images"; "processed"; "thumb_photo-abc.jpg"]
  = Some (IFile (replicate 300 x00 ++ replicate 200 x01)).
Proof.
  apply (main_end_to_end demo_cwd eq_refl demo_urls demo_fs
           ltac:(apply (bool_decide_unpack _); vm_compute; exact I)
           ltac:(intros u _; rewrite demo_fs_short; [done|rewrite length_app; simpl; lia])
           ltac:(intros x; rewrite demo_fs_short; [done|rewrite length_app; simpl; lia])
           eq_refl demo_stage2.1 "https://example.com/photo-abc?x=1" (mk_response 200 [x02; x58; x01; x90])
           (600, 400)%Z (600, 400)%Z).
  - exact demo_main_run.
  - by left.
  - reflexivity.
  - reflexivity.
  - reflexivity.
  - reflexivity.
  - reflexivity.
Defined.

(** The second run ends where the first one did. *)
Lemma main_idempotent_witness : demo2_stage2.1 = demo_stage2.1.
Proof.
  apply (main_idempotent demo_cwd demo_urls demo_fs demo_stage2.1 demo2_stage2.1 eq_refl eq_refl
           ltac:(apply (bool_decide_unpack _); vm_compute; exact I)
           ltac:(intros u _; rewrite demo_fs_short; [done|rewrite length_app; simpl; lia])
           ltac:(intros x; rewrite demo_fs_short; [done|rewrite length_app; simpl; lia])).
  - exact demo_main_run.
  - exact demo_main_rerun.
Defined.

(** The thumbnail of the demo run comes from the stored
    [photo-abc.jpg]. *)
Lemma main_thumb_source_witness :
  ∃ n c img, "thumb_photo-abc.jpg" = "thumb_" +:+ n ∧
    str_startswith n "." = false ∧ str_endswith n ".jpg" = true ∧
    demo_stage2.1 !! (img_parts demo_cwd ++ [n]) = Some (IFile c) ∧ pil_decode c = Ok img.
Proof.
  apply (main_thumb_source demo_cwd eq_refl demo_urls demo_fs
           ltac:(apply (bool_decide_unpack _); vm_compute; exact I)
           ltac:(intros u _; rewrite demo_fs_short; [done|rewrite length_app; simpl; lia])
           ltac:(intros x; rewrite demo_fs_short; [done|rewrite length_app; simpl; lia])
           eq_refl demo_stage2.1 "thumb_photo-abc.jpg" (replicate 300 x00 ++ replicate 200 x01)).
  - exact demo_main_run.
  - vm_compute. reflexivity.
  - rewrite demo_fs_short; [done|rewrite length_app; simpl; lia].
Defined.

(** With no URL, [images] holds only [processed], which is empty. *)
Lemma main_no_urls_witness :
  (∀ x, demo0_stage2.1 !! (img_parts demo_cwd ++ [x]) =
        if bool_decide (x = "processed") then Some IDir else None) ∧
  (∀ x, demo0_stage2.1 !! (proc_parts demo_cwd ++ [x]) = None).
Proof.
  apply (main_no_urls demo_cwd demo_fs demo0_stage2.1 eq_refl eq_refl).
  - intros x q. rewrite demo_fs_short; [done|]. rewrite length_app. simpl. lia.
  - exact demo_main_empty.
Defined.

Lemma main_ok_witness :
  (∃ fs', main_with demo_cwd demo_urls demo_fs (Ok ()) fs') ∧
  ∀ r fs', main_with demo_cwd demo_urls demo_fs r fs' → r = Ok ().
Proof.
  apply (main_ok demo_cwd eq_refl demo_urls demo_fs).
  - apply (bool_decide_unpack _). vm_compute. exact I.
  - intros u _. rewrite demo_fs_short; [done|rewrite length_app; simpl; lia].
  - apply fs_wfb_sound. vm_compute. reflexivity.
  - intros k c Hk. unfold proc_parts, img_parts in Hk. simpl in Hk.
    assert (k = 1 ∨ k = 2 ∨ k = 3 ∨ k = 4) as [-> | [-> | [-> | ->]]] by lia; vm_compute; congruence.
Defined.

Definition demo_exec1 : ((FS * list chunk) * list (@otask dl_task string)) * nat :=
  @wrun_first _ _ (dl_otask_Task (cwd_parts demo_cwd) (IMAGE_FOLDER demo_cwd))
    (thread_workers 1) 24 (((demo_fs1, []), map (o_start DlStart) demo_urls), 0).
Definition demo_exec_fs3 : FS := (path_mkdir (proc_parts demo_cwd) true true demo_exec1.1.1.1).2.
Definition demo_exec2 : ((FS * list chunk) * list (@otask pr_task string)) * nat :=
  @wrun_first _ _ (pr_otask_Task (cwd_parts demo_cwd) (PROCESSED_FOLDER demo_cwd))
    (process_workers 1) 24
    (((demo_exec_fs3, demo_exec1.1.1.2), map (o_start PrStart) (glob_images demo_cwd demo_exec_fs3)), 0).
Definition demo_exec_end : FS * list chunk :=
  (demo_exec2.1.1.1, demo_exec2.1.1.2 ++ py_print ("Time taken: " +:+ "0.25")).

Lemma demo_main_exec : main_exec demo_cwd 1 demo_urls (demo_fs, []) (Ok ()) demo_exec_end.
Proof.
  apply (exec_done _ _ _ _ _ demo_fs1 demo_exec1.1 demo_exec_fs3 demo_exec2.1 "0.25").
  - rewrite create_images by reflexivity. unfold demo_fs1. apply pair_eq_fst.
    vm_compute. reflexivity.
  - exists demo_exec1.2. rewrite <-surjective_pairing.
    split; [apply wrun_first_rtc|vm_compute; reflexivity].
  - rewrite create_processed by reflexivity. unfold demo_exec_fs3. apply pair_eq_fst.
    vm_compute. reflexivity.
  - exists demo_exec2.2. rewrite <-surjective_pairing.
    split; [apply wrun_first_rtc|vm_compute; reflexivity].
Qed.

(** The demo run with its standard output.  The error page of the second
    URL is stored, announced as processed and never finished: [Image.open]
    raises after line 69 printed. *)
Definition demo_out1 : (FS * list chunk) * list (@otask dl_task string) :=
  @run_first _ _ (dl_otask_Task (cwd_parts demo_cwd) (IMAGE_FOLDER demo_cwd)) 20
    ((demo_fs1, []), map (o_start DlStart) demo_urls).
Definition demo_out_fs3 : FS := (path_mkdir (proc_parts demo_cwd) true true demo_out1.1.1).2.
Definition demo_out2 : (FS * list chunk) * list (@otask pr_task string) :=
  @run_first _ _ (pr_otask_Task (cwd_parts demo_cwd) (PROCESSED_FOLDER demo_cwd)) 20
    ((demo_out_fs3, demo_out1.1.2), map (o_start PrStart) (glob_images demo_cwd demo_out_fs3)).
Definition demo_stdout : list chunk := demo_out2.1.2 ++ py_print ("Time taken: " +:+ "0.25").

Lemma demo_out_stage2 :
  @stage_run _ _ (pr_otask_Task (cwd_parts demo_cwd) (PROCESSED_FOLDER demo_cwd))
    ((demo_out_fs3, demo_out1.1.2), map (o_start PrStart) (glob_images demo_cwd demo_out_fs3)) demo_out2.
Proof. split; [apply run_first_rtc|vm_compute; reflexivity]. Qed.

Lemma demo_main_out : main_out demo_cwd demo_urls (demo_fs, []) (Ok ()) (demo_out2.1.1, demo_stdout).
Proof.
  apply (out_done _ _ _ _ demo_fs1 demo_out1 demo_out_fs3 demo_out2 "0.25").
  - rewrite create_images by reflexivity. unfold demo_fs1. apply pair_eq_fst.
    vm_compute. reflexivity.
  - split; [apply run_first_rtc|vm_compute; reflexivity].
  - rewrite create_processed by reflexivity. unfold demo_out_fs3. apply pair_eq_fst.
    vm_compute. reflexivity.
  - exact demo_out_stage2.
Qed.

Lemma demo_stdout_text :
  stdout_text demo_stdout =
    "Downloading image from photo-abc.jpg" +:+ newline +:+ "Downloaded image from photo-abc.jpg" +:+ newline +:+
    "Downloading image from photo-2.jpg" +:+ newline +:+ "Downloaded image from photo-2.jpg" +:+ newline +:+
    "Processing image photo-abc.jpg" +:+ newline +:+ "Processed image photo-abc.jpg" +:+ newline +:+
    "Processing image photo-2.jpg" +:+ newline +:+ "Time taken: 0.25" +:+ newline.
Proof. vm_compute. reflexivity. Qed.

Lemma main_out_order_witness :
  ∃ dl pr, Forall (λ c, ∃ u, u ∈ demo_urls ∧ dl_chunk u c) dl ∧ Forall (λ c, ∃ u, pr_chunk u c) pr ∧
    ((Ok () = Ok () ∧
      (∀ u, u ∈ demo_urls → py_print ("Downloading image from " +:+ url_name u) `sublist_of` dl) ∧
      ∃ elapsed, demo_stdout = [] ++ dl ++ pr ++ py_print ("Time taken: " +:+ elapsed)) ∨
     (Ok () ≠ Ok () ∧ pr = [] ∧ demo_stdout = [] ++ dl)).
Proof. apply (main_out_order demo_cwd demo_urls demo_fs [] (Ok ()) demo_out2.1.1). exact demo_main_out. Defined.

Lemma pr_stage_output_witness :
  pr_stage (cwd_parts demo_cwd) (PROCESSED_FOLDER demo_cwd)
    (demo_out_fs3, map PrStart (glob_images demo_cwd demo_out_fs3)) (o_silent demo_out2) ∧
  ∃ new, demo_out2.1.2 = demo_out1.1.2 ++ new ∧ new ≡ₚ concat (map o_printed demo_out2.2) ∧
    ∀ j ot, demo_out2.2 !! j = Some ot → glob_images demo_cwd demo_out_fs3 !! j = Some (o_item ot) ∧
      o_printed ot = py_print ("Processing image " +:+ (path_split (o_item ot)).2) ++
        (if pr_saved (o_task ot) then py_print ("Processed image " +:+ (path_split (o_item ot)).2)
         else []) ∧
      o_printed ot `sublist_of` new.
Proof.
  apply (pr_stage_output (cwd_parts demo_cwd) (PROCESSED_FOLDER demo_cwd) demo_out_fs3 demo_out1.1.2).
  exact demo_out_stage2.
Defined.

(** A URL that ends with a slash. *)
Definition slash_url : string := "https://example.com/a/".

Definition demo_fs_dot : FS :=
  {[ ["home"] := IDir; ["home"; "u"] := IDir; ["home"; "u"; "images"] := IDir;
     ["home"; "u"; "images"; ".jpg"] := IFile [x01];
     ["home"; "u"; "images"; "a.jpg"] := IFile [x02] ]}.

Lemma glob_skips_hidden_witness :
  url_name slash_url = ".jpg" ∧
  ∀ u, u ∈ glob_images demo_cwd demo_fs_dot → (path_split u).2 ≠ url_name slash_url.
Proof.
  split; [reflexivity|].
  apply (glob_skips_hidden demo_cwd demo_fs_dot (url_name slash_url)).
  vm_compute. reflexivity.
Defined.

(** Line 88 with a working directory that holds a wildcard: in
    [/h/x[1]], whose images folder holds [b.jpg], the pattern
    [/h/x[1]/images/*.jpg] reads [[1]] as a set, and [glob] returns the
    image of the sibling folder [/h/x1] instead. *)
Definition magic_fs : FS :=
  list_to_map [(["h"], IDir); (["h"; "x1"], IDir); (["h"; "x1"; "images"], IDir);
               (["h"; "x1"; "images"; "a.jpg"], IFile [x01]);
               (["h"; "x[1]"], IDir); (["h"; "x[1]"; "images"], IDir);
               (["h"; "x[1]"; "images"; "b.jpg"], IFile [x02])].

Lemma glob_images_magic_cwd : glob_images "/h/x[1]" magic_fs = ["/h/x1/images/a.jpg"].
Proof. vm_compute. reflexivity. Qed.

End Demo.

End Main.
